(** * EcoView persistence layer: the [EcoViewDatabase] facade

    A shallow embedding of the browser-side storage wrapper
    ([class EcoViewDatabase]) and of the part of the JavaScript runtime
    it relies on, followed by the properties of its operations.

    Modelling conventions.
    - A JavaScript value is a term of [value].  Numbers are exact
      rationals ([Q]) plus [VNaN]; the rounding of IEEE doubles and the
      infinities are outside the model.  Objects are property lists in
      insertion order; object identity is not modelled, so two objects
      are never [===].
    - The runtime conversions that have no closed form here
      (number to string, string to number, the Date parser) are fields
      of a [Runtime] record that every definition takes as a section
      variable.
    - A promise is the [outcome] it settles to; [Pending] is a promise
      that never settles.  A synchronous call uses the same type and is
      never [Pending].
    - [localStorage] holds one item, seen through [JSON.parse]; the
      IndexedDB object store is a key-ordered list of rows with its key
      generator.  Both are threaded explicitly in a [World].
    - All the clock readings taken during one call are one [Instant].
    - Strings are byte strings: the order, the case mapping and the
      white space of the model are those of ASCII text. *)

From Stdlib Require Import String Ascii List ZArith QArith Bool Lia.
From Stdlib Require Import Permutation Sorted DecimalString Qround.
Import ListNotations.

Local Open Scope string_scope.
Local Open Scope list_scope.

(** ** JavaScript values *)

#[warnings="-register-all"]
Inductive value : Type :=
| VUndefined
| VNull
| VBool (b : bool)
| VNum (q : Q)
| VNaN
| VStr (s : string)
| VArr (elems : list value)
| VObj (props : list (string * value)).

Definition obj : Type := list (string * value).

(** Conversions supplied by the runtime. *)
Record Runtime : Type := {
  (* Number::toString *)
  NumberToString : Q -> string;
  (* StringToNumber; [None] is NaN *)
  StringToNumber : string -> option Q;
  (* the time value of [new Date(v)]; [None] is an Invalid Date *)
  DateValue : value -> option Z
}.

Inductive error : Type :=
| TypeError
| SyntaxError
| SecurityError
| QuotaExceededError
| DataError
| ConstraintError
| UnknownError
| AnalysisNotFound.        (* new Error('Analysis not found') *)

Inductive outcome (A : Type) : Type :=
| Resolved (a : A)
| Rejected (e : error)
| Pending.

Arguments Resolved {A} a.
Arguments Rejected {A} e.
Arguments Pending {A}.

Definition bind {A B : Type} (m : outcome A) (k : A -> outcome B) : outcome B :=
  match m with
  | Resolved a => k a
  | Rejected e => Rejected e
  | Pending => Pending
  end.

Notation "x <- m ;; k" := (bind m (fun x => k))
  (at level 61, m at next level, right associativity).

(** *** Strings *)

(* Array.prototype.join on strings *)
Fixpoint join (sep : string) (l : list string) : string :=
  match l with
  | [] => ""
  | [x] => x
  | x :: r => x ++ sep ++ join sep r
  end.

(* String.prototype.split with a one-character separator *)
Fixpoint split (sep : ascii) (s : string) : list string :=
  match s with
  | EmptyString => [""]
  | String c r =>
      if Ascii.eqb c sep then "" :: split sep r
      else match split sep r with
           | [] => [String c ""]
           | w :: ws => String c w :: ws
           end
  end.

Definition chars (s : string) : list string :=
  map (fun c => String c "") (list_ascii_of_string s).

Definition lower_ascii (c : ascii) : ascii :=
  let n := nat_of_ascii c in
  if andb (Nat.leb 65 n) (Nat.leb n 90) then ascii_of_nat (n + 32) else c.

(* String.prototype.toLowerCase, on ASCII text *)
Fixpoint toLowerCase (s : string) : string :=
  match s with
  | EmptyString => EmptyString
  | String c r => String (lower_ascii c) (toLowerCase r)
  end.

(* the class \s, on ASCII text: TAB, LF, VT, FF, CR, SPACE *)
Definition is_space (c : ascii) : bool :=
  let n := nat_of_ascii c in
  orb (andb (Nat.leb 9 n) (Nat.leb n 13)) (Nat.eqb n 32).

(* s.replace(/\s+/g, '') *)
Fixpoint strip_spaces (s : string) : string :=
  match s with
  | EmptyString => EmptyString
  | String c r => if is_space c then strip_spaces r else String c (strip_spaces r)
  end.

Definition nat_to_string (n : nat) : string :=
  NilEmpty.string_of_uint (Nat.to_uint n).

(** *** Objects as property lists *)

Fixpoint lookup (k : string) (o : obj) : option value :=
  match o with
  | [] => None
  | (k', v) :: r => if String.eqb k' k then Some v else lookup k r
  end.

(* o[k] on an object used as a record or as a table: own properties
   only.  A table keyed by a name that every object inherits from
   Object.prototype (a species called 'constructor') is outside the
   model. *)
Definition own (o : obj) (k : string) : value :=
  match lookup k o with
  | Some v => v
  | None => VUndefined
  end.

(* o[k] = v : an existing property keeps its place, a new one goes last *)
Fixpoint assign (o : obj) (k : string) (v : value) : obj :=
  match o with
  | [] => [(k, v)]
  | (k', v') :: r =>
      if String.eqb k' k then (k, v) :: r else (k', v') :: assign r k v
  end.

Fixpoint indexed (i : nat) (l : list value) : obj :=
  match l with
  | [] => []
  | v :: r => (nat_to_string i, v) :: indexed (S i) r
  end.

(* the own enumerable properties copied by the spread {...v} *)
Definition own_props (v : value) : obj :=
  match v with
  | VObj o => o
  | VArr l => indexed 0 l
  | VStr s => indexed 0 (map VStr (chars s))
  | _ => []
  end.

(* { ...dst, ...src } continued on an object under construction *)
Definition spread (dst : obj) (src : value) : obj :=
  fold_left (fun o kv => assign o (fst kv) (snd kv)) (own_props src) dst.

(* v.k for the data properties read by the wrapper; reading a property
   of null or undefined is a TypeError and is guarded by [readable] *)
Definition get (v : value) (k : string) : value :=
  match v with
  | VObj o => own o k
  | _ => VUndefined
  end.

Definition readable (v : value) : bool :=
  match v with
  | VUndefined | VNull => false
  | _ => true
  end.

(* v?.k *)
Definition get_opt (v : value) (k : string) : value :=
  if readable v then get v k else VUndefined.

(** *** Operators *)

Definition truthy (v : value) : bool :=
  match v with
  | VUndefined | VNull | VNaN => false
  | VBool b => b
  | VNum q => negb (Qeq_bool q 0)
  | VStr s => negb (String.eqb s "")
  | VArr _ | VObj _ => true
  end.

(* a || b *)
Definition js_or (a b : value) : value := if truthy a then a else b.


(** *** Property enumeration *)

Definition digit_of (c : ascii) : option N :=
  let n := N_of_ascii c in
  if andb (N.leb 48 n) (N.leb n 57) then Some (n - 48)%N else None.

Fixpoint digits_value (s : string) (acc : N) : option N :=
  match s with
  | EmptyString => Some acc
  | String c r =>
      match digit_of c with
      | Some d => digits_value r (10 * acc + d)%N
      | None => None
      end
  end.

(* the canonical numeric strings of the integers 0 .. 2^32 - 2 *)
Definition array_index (s : string) : option N :=
  match s with
  | EmptyString => None
  | String "0" EmptyString => Some 0%N
  | String "0" _ => None
  | _ =>
      match digits_value s 0 with
      | Some n => if N.leb n 4294967294 then Some n else None
      | None => None
      end
  end.

Definition is_index (s : string) : bool :=
  match array_index s with Some _ => true | None => false end.

Definition index_value (s : string) : N :=
  match array_index s with Some n => n | None => 0%N end.

Fixpoint insert_index (k : string) (l : list string) : list string :=
  match l with
  | [] => [k]
  | k' :: r =>
      if N.leb (index_value k) (index_value k') then k :: l
      else k' :: insert_index k r
  end.

(* Object.keys: integer indices in ascending order, then the other
   names in the order they were added *)
Definition Object_keys (o : obj) : list string :=
  let names := map fst o in
  fold_right insert_index [] (filter is_index names)
    ++ filter (fun k => negb (is_index k)) names.

(** *** JSON *)

(* what JSON.parse(JSON.stringify(v)) gives back *)
Fixpoint jsonify (v : value) : value :=
  match v with
  | VUndefined | VNaN => VNull
  | VArr l => VArr (map jsonify l)
  | VObj o =>
      VObj ((fix props (o : list (string * value)) : list (string * value) :=
               match o with
               | [] => []
               | (k, VUndefined) :: r => props r
               | (k, x) :: r => (k, jsonify x) :: props r
               end) o)
  | _ => v
  end.

(* the elements an iteration [...v] or for-of visits *)
Definition iterate (v : value) : outcome (list value) :=
  match v with
  | VArr l => Resolved l
  | VStr s => Resolved (map VStr (chars s))
  | _ => Rejected TypeError
  end.

Definition is_undefined (v : value) : bool :=
  match v with VUndefined => true | _ => false end.

(** *** Array.prototype.sort

    The sort is stable; undefined elements go last and are not passed
    to the comparison function; a NaN comparison result counts as +0.
    With a consistent comparison function every stable sort returns the
    same array, computed here by insertion. *)

Fixpoint insert_by (cmp : value -> value -> Z) (x : value) (l : list value)
  : list value :=
  match l with
  | [] => [x]
  | y :: r => if Z.ltb 0 (cmp x y) then y :: insert_by cmp x r else x :: l
  end.

Definition array_sort (cmp : value -> value -> Z) (l : list value) : list value :=
  fold_right (insert_by cmp) [] (filter (fun v => negb (is_undefined v)) l)
    ++ filter is_undefined l.

(** ** The two stores *)

(** The item kept under 'ecoview_historical_data'. *)
Inductive Item : Type :=
| Missing                 (* getItem returns null, or the empty string *)
| Garbled                 (* a text that JSON.parse rejects *)
| Json (doc : value).     (* a text that JSON.parse turns into doc *)

Record LocalStorage : Type := {
  accessible : bool;      (* false: every access throws SecurityError *)
  has_room : bool;        (* false: setItem throws QuotaExceededError *)
  item : Item
}.

(** The 'analyses' object store: keyPath 'id', autoIncrement. *)
Record IDBDatabase : Type := {
  rows : list (value * obj);   (* ascending key order *)
  keyGenerator : Z;
  fault : option error         (* Some e: every request fails with e *)
}.

Record World : Type := {
  db : option IDBDatabase;     (* this.db *)
  storage : LocalStorage
}.

Record Instant : Type := {
  Date_now : Z;                (* Date.now() *)
  toISOString : string         (* new Date().toISOString() *)
}.

(** What an IndexedDB call does: it throws, or it returns a request
    whose success or error handler runs later. *)
Inductive request (A : Type) : Type :=
| Thrown (e : error)
| Failure (e : error)
| Success (result : A) (d : IDBDatabase).

Arguments Thrown {A} e.
Arguments Failure {A} e.
Arguments Success {A} result d.

Fixpoint valid_key (v : value) : bool :=
  match v with
  | VNum _ | VStr _ => true
  | VArr l => forallb valid_key l
  | _ => false
  end.

(* the key order: numbers, then strings, then arrays *)
Fixpoint key_compare (a b : value) : comparison :=
  match a, b with
  | VNum x, VNum y => Qcompare x y
  | VNum _, _ => Lt
  | VStr _, VNum _ => Gt
  | VStr x, VStr y => String.compare x y
  | VStr _, _ => Lt
  | VArr xs, VArr ys =>
      (fix go (xs ys : list value) : comparison :=
         match xs, ys with
         | [], [] => Eq
         | [], _ :: _ => Lt
         | _ :: _, [] => Gt
         | x :: xs', y :: ys' =>
             match key_compare x y with
             | Eq => go xs' ys'
             | c => c
             end
         end) xs ys
  | VArr _, _ => Gt
  | _, _ => Eq
  end.

Definition key_eqb (a b : value) : bool :=
  match key_compare a b with Eq => true | _ => false end.

Fixpoint find_row (k : value) (l : list (value * obj)) : option obj :=
  match l with
  | [] => None
  | (k', r) :: t => if key_eqb k' k then Some r else find_row k t
  end.

Definition remove_row (k : value) (l : list (value * obj)) : list (value * obj) :=
  filter (fun kr => negb (key_eqb (fst kr) k)) l.

Fixpoint insert_row (k : value) (r : obj) (l : list (value * obj))
  : list (value * obj) :=
  match l with
  | [] => [(k, r)]
  | (k', r') :: t =>
      match key_compare k k' with
      | Lt => (k, r) :: l
      | Eq => (k, r) :: t
      | Gt => (k', r') :: insert_row k r t
      end
  end.

(* the largest key that a key generator gives out: 2^53 *)
Definition last_generated_key : Z := 9007199254740992.

(* an explicit numeric key moves the key generator past it, and not
   beyond 2^53 + 1 *)
Definition bump_generator (k : value) (g : Z) : Z :=
  match k with
  | VNum q =>
      let value := Z.min (Qfloor q) last_generated_key in
      if Z.leb g value then (value + 1)%Z else g
  | _ => g
  end.

Definition store_write (overwrite : bool) (d : IDBDatabase) (record : obj)
  : request value :=
  match own record "id" with
  | VUndefined =>
      match fault d with
      | Some e => Failure e
      | None =>
          (* a key generator that has passed 2^53 gives no key; the
             key it gives is above every integer key stored so far *)
          if Z.ltb last_generated_key (keyGenerator d)
          then Failure ConstraintError
          else
            let k := VNum (inject_Z (keyGenerator d)) in
            Success k {| rows := insert_row k (assign record "id" k) (rows d);
                         keyGenerator := keyGenerator d + 1;
                         fault := None |}
      end
  | k =>
      if valid_key k then
        match fault d with
        | Some e => Failure e
        | None =>
            match find_row k (rows d) with
            | Some _ =>
                if overwrite then
                  Success k {| rows := insert_row k record (rows d);
                               keyGenerator := bump_generator k (keyGenerator d);
                               fault := None |}
                else Failure ConstraintError
            | None =>
                Success k {| rows := insert_row k record (rows d);
                             keyGenerator := bump_generator k (keyGenerator d);
                             fault := None |}
            end
        end
      else Thrown DataError
  end.

(* store.add(record) *)
Definition store_add := store_write false.

(* store.put(record) *)
Definition store_put := store_write true.

(* store.get(id) *)
Definition store_get (d : IDBDatabase) (id : value) : request value :=
  if valid_key id then
    match fault d with
    | Some e => Failure e
    | None =>
        Success (match find_row id (rows d) with
                 | Some r => VObj r
                 | None => VUndefined
                 end) d
    end
  else Thrown DataError.

(* store.getAll() *)
Definition store_getAll (d : IDBDatabase) : request (list value) :=
  match fault d with
  | Some e => Failure e
  | None => Success (map (fun kr => VObj (snd kr)) (rows d)) d
  end.

(* store.delete(id) *)
Definition store_delete (d : IDBDatabase) (id : value) : request value :=
  if valid_key id then
    match fault d with
    | Some e => Failure e
    | None =>
        Success VUndefined {| rows := remove_row id (rows d);
                              keyGenerator := keyGenerator d;
                              fault := None |}
    end
  else Thrown DataError.

(* store.clear() *)
Definition store_clear (d : IDBDatabase) : request value :=
  match fault d with
  | Some e => Failure e
  | None =>
      Success VUndefined {| rows := []; keyGenerator := keyGenerator d;
                            fault := None |}
  end.

(* localStorage.getItem('ecoview_historical_data') *)
Definition getItem (ls : LocalStorage) : outcome Item :=
  if accessible ls then Resolved (item ls) else Rejected SecurityError.

(* stored ? JSON.parse(stored) : [] *)
Definition parse_stored (stored : Item) : outcome value :=
  match stored with
  | Missing => Resolved (VArr [])
  | Garbled => Rejected SyntaxError
  | Json doc => Resolved doc
  end.

(* localStorage.setItem('ecoview_historical_data', JSON.stringify(doc)) *)
Definition setItem (ls : LocalStorage) (doc : value) : outcome LocalStorage :=
  if accessible ls then
    if has_room ls then
      Resolved {| accessible := true; has_room := true;
                  item := Json (jsonify doc) |}
    else Rejected QuotaExceededError
  else Rejected SecurityError.

Definition LF : ascii := ascii_of_nat 10.

Definition newline : string := String LF EmptyString.

(* new Set(l), in insertion order *)
Definition Set_add (same : value -> value -> bool) (s : list value) (v : value)
  : list value :=
  if existsb (same v) s then s else s ++ [v].

Record Analytics : Type := {
  totalAnalyses : nat;
  speciesCount : nat;
  averageConfidence : value;
  mostCommonSpecies : value;
  analysesByType : obj;
  analysesByDate : obj;
  recentAnalyses : list value
}.

(** What exportData returns: the CSV text, or the JSON text seen
    through JSON.parse. *)
Inductive Export : Type :=
| CsvText (csv : string)
| JsonText (doc : value).

(** An import payload: its characters, and what JSON.parse makes of
    them. *)
Record Payload : Type := {
  text : string;
  JSON_parse : outcome value
}.

Definition csv_headers : list string :=
  ["ID"; "Date"; "Type"; "Species"; "Confidence"; "Green Cover";
   "Tree Count"; "Created At"].

(* values[index] *)
Definition at_index (values : list string) (index : nat) : value :=
  match nth_error values index with
  | Some s => VStr s
  | None => VUndefined
  end.

(* the csv branch of importData *)
Definition parse_csv (data : string) : list value :=
  let lines := split LF data in
  let headers := split "," (hd "" lines) in
  map (fun line =>
         let values := split "," line in
         VObj (fold_left
                 (fun analysis hi =>
                    assign analysis (strip_spaces (toLowerCase (fst hi)))
                           (at_index values (snd hi)))
                 (combine headers (seq 0 (List.length headers))) []))
      (tl lines).

Section WithRuntime.

Variable rt : Runtime.

Fixpoint ToString (v : value) : string :=
  match v with
  | VUndefined => "undefined"
  | VNull => "null"
  | VBool true => "true"
  | VBool false => "false"
  | VNum q => NumberToString rt q
  | VNaN => "NaN"
  | VStr s => s
  | VArr l =>
      join "," (map (fun e => match e with
                              | VUndefined | VNull => ""
                              | _ => ToString e
                              end) l)
  | VObj _ => "[object Object]"
  end.

Definition ToPrimitive (v : value) : value :=
  match v with
  | VArr _ | VObj _ => VStr (ToString v)
  | _ => v
  end.

(* [None] is NaN *)
Definition ToNumber (v : value) : option Q :=
  match ToPrimitive v with
  | VUndefined | VNaN => None
  | VNull => Some 0%Q
  | VBool true => Some 1%Q
  | VBool false => Some 0%Q
  | VNum q => Some q
  | VStr s => StringToNumber rt s
  | _ => None
  end.

(* IsLessThan: [None] is the undefined result of a comparison with NaN *)
Definition js_lt (a b : value) : option bool :=
  match ToPrimitive a, ToPrimitive b with
  | VStr x, VStr y => Some (String.ltb x y)
  | pa, pb =>
      match ToNumber pa, ToNumber pb with
      | Some x, Some y => Some (match Qcompare x y with Lt => true | _ => false end)
      | _, _ => None
      end
  end.

(* a >= b *)
Definition js_ge (a b : value) : bool :=
  match js_lt a b with Some false => true | _ => false end.

(* a <= b *)
Definition js_le (a b : value) : bool :=
  match js_lt b a with Some false => true | _ => false end.

(* a > b *)
Definition js_gt (a b : value) : bool :=
  match js_lt b a with Some true => true | _ => false end.

(* a === b *)
Definition strict_eq (a b : value) : bool :=
  match a, b with
  | VUndefined, VUndefined => true
  | VNull, VNull => true
  | VBool x, VBool y => Bool.eqb x y
  | VNum x, VNum y => Qeq_bool x y
  | VStr x, VStr y => String.eqb x y
  | _, _ => false
  end.

(* SameValueZero, the equality of Set *)
Definition same_value_zero (a b : value) : bool :=
  match a, b with
  | VNaN, VNaN => true
  | _, _ => strict_eq a b
  end.

(* a + b *)
Definition js_add (a b : value) : value :=
  match ToPrimitive a, ToPrimitive b with
  | VStr x, pb => VStr (x ++ ToString pb)
  | pa, VStr y => VStr (ToString pa ++ y)
  | pa, pb =>
      match ToNumber pa, ToNumber pb with
      | Some x, Some y => VNum (x + y)
      | _, _ => VNaN
      end
  end.

(* a / b; a zero divisor does not occur in the wrapper *)
Definition js_div (a b : value) : value :=
  match ToNumber a, ToNumber b with
  | Some x, Some y => if Qeq_bool y 0 then VNaN else VNum (x / y)
  | _, _ => VNaN
  end.


(* Array.prototype.join *)
Definition array_join (sep : string) (l : list value) : string :=
  join sep (map (fun e => match e with
                          | VUndefined | VNull => ""
                          | _ => ToString e
                          end) l).

(** ** class EcoViewDatabase *)

Definition with_storage (w : World) (ls : LocalStorage) : World :=
  {| db := db w; storage := ls |}.

Definition with_db (w : World) (d : IDBDatabase) : World :=
  {| db := Some d; storage := storage w |}.

(* Fallback method for localStorage *)
Definition addAnalysisToLocalStorage (ls : LocalStorage) (now : Instant)
    (analysisData : value) : outcome value * LocalStorage :=
  let attempt :=
    stored <- getItem ls ;;
    doc <- parse_stored stored ;;
    let analysis :=
      assign (assign (spread [("id", VNum (inject_Z (Date_now now)))] analysisData)
                     "createdAt" (VStr (toISOString now)))
             "updatedAt" (VStr (toISOString now)) in
    match doc with
    | VArr analyses =>
        ls' <- setItem ls (VArr (analyses ++ [VObj analysis])) ;;
        Resolved (own analysis "id", ls')
    | _ => Rejected TypeError            (* analyses.push *)
    end in
  match attempt with
  | Resolved (id, ls') => (Resolved id, ls')
  | Rejected e => (Rejected e, ls)       (* catch (error) { throw error } *)
  | Pending => (Pending, ls)
  end.

(* Add a new analysis record with fallback *)
Definition addAnalysis (w : World) (now : Instant) (analysisData : value)
  : outcome value * World :=
  match db w with
  | None =>
      let (r, ls') := addAnalysisToLocalStorage (storage w) now analysisData in
      (r, with_storage w ls')
  | Some d =>
      let analysis :=
        assign (assign (spread [] analysisData)
                       "createdAt" (VStr (toISOString now)))
               "updatedAt" (VStr (toISOString now)) in
      match store_add d analysis with
      | Thrown e => (Rejected e, w)
      | Success key d' => (Resolved key, with_db w d')
      | Failure _ =>
          let (r, ls') :=
            addAnalysisToLocalStorage (storage w) now (VObj analysis) in
          (r, with_storage w ls')
      end
  end.

(* one  if (cond) filtered = filtered.filter(a => p a)  step; the
   callback reads a property of every element *)
Definition filter_step (cond : value) (p : value -> bool) (l : list value)
  : outcome (list value) :=
  if truthy cond then
    if forallb readable l then Resolved (filter p l) else Rejected TypeError
  else Resolved l.

(* Apply filters to analyses array *)
Definition applyFilters (analyses : value) (filters : obj)
  : outcome (list value) :=
  filtered <- iterate analyses ;;
  filtered <- filter_step (own filters "startDate")
    (fun a => js_ge (get a "date") (own filters "startDate")) filtered ;;
  filtered <- filter_step (own filters "endDate")
    (fun a => js_le (get a "date") (own filters "endDate")) filtered ;;
  filtered <- filter_step (own filters "type")
    (fun a => strict_eq (get a "type") (own filters "type")) filtered ;;
  filtered <- filter_step (own filters "species")
    (fun a => strict_eq (get a "species") (own filters "species")) filtered ;;
  filter_step (own filters "minConfidence")
    (fun a => js_ge (get a "confidence") (own filters "minConfidence")) filtered.

(* (a, b) => new Date(b.date) - new Date(a.date) *)
Definition newest_first (a b : value) : Z :=
  match DateValue rt (get b "date"), DateValue rt (get a "date") with
  | Some tb, Some ta => (tb - ta)%Z
  | _, _ => 0%Z
  end.

(* analyses.sort((a, b) => new Date(b.date) - new Date(a.date)); the
   comparison function runs as soon as two elements are defined *)
Definition sort_by_date (l : list value) : outcome (list value) :=
  let defined := filter (fun v => negb (is_undefined v)) l in
  if andb (Nat.leb 2 (List.length defined)) (negb (forallb readable defined))
  then Rejected TypeError
  else Resolved (array_sort newest_first l).

(* Fallback method for getting analyses from localStorage *)
Definition getAnalysesFromLocalStorage (ls : LocalStorage) (filters : obj)
  : list value :=
  let attempt :=
    stored <- getItem ls ;;
    analyses <- parse_stored stored ;;
    filteredAnalyses <- applyFilters analyses filters ;;
    sort_by_date filteredAnalyses in
  match attempt with
  | Resolved filteredAnalyses => filteredAnalyses
  | _ => []                              (* catch (error) { return [] } *)
  end.

(* Get all analyses with optional filtering and fallback *)
Definition getAnalyses (w : World) (filters : obj) : outcome (list value) :=
  match db w with
  | None => Resolved (getAnalysesFromLocalStorage (storage w) filters)
  | Some d =>
      match store_getAll d with
      | Thrown e => Rejected e
      | Success result _ =>
          match (analyses <- applyFilters (VArr result) filters ;;
                 sort_by_date analyses) with
          | Resolved analyses => Resolved analyses
          | _ => Pending                 (* the handler threw *)
          end
      | Failure _ =>
          Resolved (getAnalysesFromLocalStorage (storage w) filters)
      end
  end.

(* Get analysis by ID *)
Definition getAnalysis (w : World) (id : value) : outcome value :=
  match db w with
  | None => Rejected TypeError           (* this.db.transaction *)
  | Some d =>
      match store_get d id with
      | Thrown e => Rejected e
      | Success result _ => Resolved result
      | Failure e => Rejected e
      end
  end.

(* Update an existing analysis *)
Definition updateAnalysis (w : World) (now : Instant) (id : value)
    (updateData : value) : outcome value * World :=
  match db w with
  | None => (Rejected TypeError, w)      (* this.db.transaction *)
  | Some d =>
      match store_get d id with
      | Thrown e => (Rejected e, w)
      | Success analysis _ =>
          if truthy analysis then
            let updatedAnalysis :=
              assign (spread (spread [] analysis) updateData)
                     "updatedAt" (VStr (toISOString now)) in
            match store_put d updatedAnalysis with
            | Thrown _ => (Pending, w)   (* the handler threw *)
            | Success _ d' => (Resolved (VObj updatedAnalysis), with_db w d')
            | Failure e => (Rejected e, w)
            end
          else (Rejected AnalysisNotFound, w)
      | Failure e => (Rejected e, w)
      end
  end.

(* Delete an analysis *)
Definition deleteAnalysis (w : World) (id : value) : outcome value * World :=
  match db w with
  | None => (Rejected TypeError, w)      (* this.db.transaction *)
  | Some d =>
      match store_delete d id with
      | Thrown e => (Rejected e, w)
      | Success _ d' => (Resolved (VBool true), with_db w d')
      | Failure e => (Rejected e, w)
      end
  end.

(* Clear all data *)
Definition clearAllData (w : World) : outcome value * World :=
  match db w with
  | None => (Rejected TypeError, w)      (* this.db.transaction *)
  | Some d =>
      match store_clear d with
      | Thrown e => (Rejected e, w)
      | Success _ d' => (Resolved (VBool true), with_db w d')
      | Failure e => (Rejected e, w)
      end
  end.


(* o[k] = (o[k] || 0) + 1 *)
Definition bump (o : obj) (k : value) : obj :=
  let name := ToString k in
  assign o name (js_add (js_or (own o name) (VNum 0)) (VNum 1)).

(* a.date.split('T')[0] *)
Definition date_part (a : value) : outcome string :=
  match get a "date" with
  | VStr s => Resolved (hd "" (split "T" s))
  | _ => Rejected TypeError
  end.

(* Get analytics data *)
Definition getAnalytics (w : World) : outcome Analytics :=
  analyses <- getAnalyses w [] ;;
  if forallb readable analyses then
    let named := filter (fun a => truthy (get a "species")) analyses in
    let speciesAnalyses :=
      filter (fun a => andb (negb (strict_eq (get a "confidence") VNull))
                            (negb (strict_eq (get a "confidence") VUndefined)))
             analyses in
    let speciesFreq :=
      fold_left (fun freq a => bump freq (get a "species")) named [] in
    byDate <- fold_left
                (fun acc a =>
                   o <- acc ;; date <- date_part a ;;
                   Resolved (bump o (VStr date)))
                analyses (Resolved ([] : obj)) ;;
    Resolved
      {| totalAnalyses := List.length analyses;
         speciesCount :=
           List.length
             (fold_left (Set_add same_value_zero)
                        (map (fun a => get a "species") named) []);
         averageConfidence :=
           if Nat.ltb 0 (List.length speciesAnalyses) then
             js_div
               (fold_left (fun sum a => js_add sum (get a "confidence"))
                          speciesAnalyses (VNum 0))
               (VNum (inject_Z (Z.of_nat (List.length speciesAnalyses))))
           else VNum 0;
         mostCommonSpecies :=
           fold_left
             (fun a b =>
                if js_gt (own speciesFreq (ToString a)) (own speciesFreq b)
                then a else VStr b)
             (Object_keys speciesFreq) VNull;
         analysesByType :=
           fold_left (fun o a => bump o (get a "type")) analyses [];
         analysesByDate := byDate;
         recentAnalyses := firstn 10 analyses |}
  else Rejected TypeError.

(* one line of the csv export *)
Definition csv_row (a : value) : string :=
  array_join ","
    [ get a "id";
      get a "date";
      get a "type";
      js_or (get a "species") (VStr "");
      js_or (get a "confidence") (VStr "");
      js_or (get_opt (get a "metadata") "greenCover") (VStr "");
      js_or (get_opt (get a "metadata") "treeCount") (VStr "");
      get a "createdAt" ].

(* Export data *)
Definition exportData (w : World) (format : value) : outcome Export :=
  analyses <- getAnalyses w [] ;;
  if strict_eq format (VStr "csv") then
    if forallb readable analyses then
      Resolved (CsvText (join newline
                           (join "," csv_headers :: map csv_row analyses)))
    else Rejected TypeError
  else Resolved (JsonText (jsonify (VArr analyses))).

(* for (const analysis of analyses) { try { await this.addAnalysis(analysis) }
   catch (error) { console.error(...) } } ; the i-th pass reads clock i *)
Fixpoint import_each (w : World) (clock : nat -> Instant) (i : nat)
    (analyses : list value) : outcome unit * World :=
  match analyses with
  | [] => (Resolved tt, w)
  | analysis :: rest =>
      match addAnalysis w (clock i) analysis with
      | (Pending, w') => (Pending, w')
      | (_, w') => import_each w' clock (S i) rest
      end
  end.

(* Import data *)
Definition importData (w : World) (clock : nat -> Instant) (data : Payload)
    (format : value) : outcome value * World :=
  let parsed :=
    if strict_eq format (VStr "json") then JSON_parse data
    else if strict_eq format (VStr "csv")
         then Resolved (VArr (parse_csv (text data)))
         else Resolved VUndefined in
  match (analyses <- parsed ;; iterate analyses) with
  | Resolved elems =>
      match import_each w clock 0 elems with
      | (Resolved _, w') =>
          (Resolved (VNum (inject_Z (Z.of_nat (List.length elems)))), w')
      | (Rejected e, w') => (Rejected e, w')
      | (Pending, w') => (Pending, w')
      end
  | Rejected e => (Rejected e, w)
  | Pending => (Pending, w)
  end.

End WithRuntime.

(** ** The record set an operation works on *)

(* what the fallback adapter reads as its array of records *)
Definition fallback_records (ls : LocalStorage) : option (list value) :=
  if accessible ls then
    match item ls with
    | Missing => Some []
    | Json (VArr l) => Some l
    | _ => None
    end
  else None.

(* the records of the active store: the object store when the handle is
   present and answers, the fallback array otherwise *)
Definition stored_records (w : World) : option (list value) :=
  match db w with
  | Some d =>
      match fault d with
      | None => Some (map (fun kr => VObj (snd kr)) (rows d))
      | Some _ => fallback_records (storage w)
      end
  | None => fallback_records (storage w)
  end.

(* null or undefined *)
Definition missing (v : value) : bool := negb (readable v).

(** *** Reference definitions for the filter engine *)

(* every truthy entry of the filter object holds of the record *)
Definition passes (rt : Runtime) (filters : obj) (a : value) : bool :=
  andb (implb (truthy (own filters "startDate"))
              (js_ge rt (get a "date") (own filters "startDate")))
  (andb (implb (truthy (own filters "endDate"))
               (js_le rt (get a "date") (own filters "endDate")))
  (andb (implb (truthy (own filters "type"))
               (strict_eq (get a "type") (own filters "type")))
  (andb (implb (truthy (own filters "species"))
               (strict_eq (get a "species") (own filters "species")))
        (implb (truthy (own filters "minConfidence"))
               (js_ge rt (get a "confidence") (own filters "minConfidence")))))).

(* every entry of the filter object that is present holds of the record *)
Definition present (filters : obj) (k : string) : bool :=
  match lookup k filters with Some _ => true | None => false end.

Definition passes_supplied (rt : Runtime) (filters : obj) (a : value) : bool :=
  andb (implb (present filters "startDate")
              (js_ge rt (get a "date") (own filters "startDate")))
  (andb (implb (present filters "endDate")
               (js_le rt (get a "date") (own filters "endDate")))
  (andb (implb (present filters "type")
               (strict_eq (get a "type") (own filters "type")))
  (andb (implb (present filters "species")
               (strict_eq (get a "species") (own filters "species")))
        (implb (present filters "minConfidence")
               (js_ge rt (get a "confidence") (own filters "minConfidence")))))).

(** *** Reference definitions for the date order *)

Definition date_value (rt : Runtime) (a : value) : option Z :=
  DateValue rt (get a "date").

Definition has_date (rt : Runtime) (a : value) : Prop :=
  readable a = true /\ date_value rt a <> None.

(* a is dated no earlier than b *)
Definition not_older (rt : Runtime) (a b : value) : Prop :=
  match date_value rt a, date_value rt b with
  | Some ta, Some tb => (tb <= ta)%Z
  | _, _ => False
  end.

Definition dated (rt : Runtime) (t : Z) (a : value) : bool :=
  match date_value rt a with
  | Some ta => Z.eqb ta t
  | None => false
  end.

(** *** Reference definitions for the analytics *)

(* the confidence values that are present, in record order *)
Definition confidences (l : list value) : list Q :=
  flat_map (fun a => match get a "confidence" with
                     | VNum q => [q]
                     | _ => []
                     end) l.

Definition Qsum (l : list Q) : Q := fold_right Qplus 0%Q l.

Definition arithmetic_mean (l : list Q) : Q :=
  (Qsum l / inject_Z (Z.of_nat (List.length l)))%Q.

(* confidence is absent, null or a number *)
Definition numeric_confidence (a : value) : bool :=
  match get a "confidence" with
  | VUndefined | VNull | VNum _ => true
  | _ => false
  end.

Definition string_date (a : value) : bool :=
  match get a "date" with VStr _ => true | _ => false end.

(* the species names that take part in the aggregation, in record order *)
Definition species_names (l : list value) : list string :=
  flat_map (fun a => match get a "species" with
                     | VStr s => if String.eqb s "" then [] else [s]
                     | _ => []
                     end) l.

(* the property names every object inherits from Object.prototype; a
   read of one of them on a fresh {} finds a function, not undefined *)
Definition inherited_names : list string :=
  ["constructor"; "hasOwnProperty"; "isPrototypeOf"; "propertyIsEnumerable";
   "toLocaleString"; "toString"; "valueOf"; "__defineGetter__";
   "__defineSetter__"; "__lookupGetter__"; "__lookupSetter__"; "__proto__"].

Definition inherited (s : string) : bool :=
  existsb (String.eqb s) inherited_names.

(* species is absent, null or a string that is neither an integer index
   nor a name inherited by the frequency object *)
Definition plain_species (a : value) : bool :=
  match get a "species" with
  | VUndefined | VNull => true
  | VStr s => andb (negb (is_index s)) (negb (inherited s))
  | _ => false
  end.

(* the distinct names of l, in the order they are first met *)
Fixpoint first_seen (l : list string) : list string :=
  match l with
  | [] => []
  | s :: r => s :: filter (fun x => negb (String.eqb x s)) (first_seen r)
  end.

Definition occurrences (s : string) (l : list string) : nat :=
  count_occ string_dec l s.

(* o holds, in the order the names of seen were first met, how often
   each of them occurs *)
Definition tallies (o : obj) (seen : list string) : Prop :=
  map fst o = first_seen seen /\
  forall s,
    match lookup s o with
    | Some v =>
        exists q, v = VNum q /\
                  q == inject_Z (Z.of_nat (occurrences s seen)) /\
                  (0 < occurrences s seen)%nat
    | None => occurrences s seen = 0%nat
    end.

(* acc is what the reduce of getAnalytics holds after the names of
   done: null while 'null' beats them all, else the last of the names
   with the highest count *)
Definition leads (c : string -> nat) (done : list string) (acc : value) : Prop :=
  (acc = VNull /\ forall s, In s done -> (c s < c "null")%nat) \/
  (exists s before after,
      acc = VStr s /\ done = before ++ s :: after /\
      (forall s', In s' before -> (c s' <= c s)%nat) /\
      (forall s', In s' after -> (c s' < c s)%nat)).

(** *** Reference definitions for update *)

(* no property name is listed twice *)
Fixpoint unique_names (o : obj) : bool :=
  match o with
  | [] => true
  | (k, _) :: r =>
      andb (negb (existsb (String.eqb k) (map fst r))) (unique_names r)
  end.

(* the patch has a property called k *)
Definition names (patch : value) (k : string) : bool :=
  match lookup k (own_props patch) with Some _ => true | None => false end.

(* the id of the merge of patch onto analysis *)
Definition merged_id (analysis : obj) (patch : value) : value :=
  match lookup "id" (own_props patch) with
  | Some v => v
  | None => own analysis "id"
  end.

(** *** The history of an object store *)

(** A call of the facade that may write to the object store; an import
    is the sequence of its creates. *)
Inductive Call : Type :=
| CallAdd (analysisData : value)
| CallUpdate (id updateData : value)
| CallDelete (id : value)
| CallClear.

(* the world after a call made at the clock reading now *)
Definition perform (w : World) (c : Call * Instant) : World :=
  match fst c with
  | CallAdd analysisData => snd (addAnalysis w (snd c) analysisData)
  | CallUpdate id updateData => snd (updateAnalysis w (snd c) id updateData)
  | CallDelete id => snd (deleteAnalysis w id)
  | CallClear => snd (clearAllData w)
  end.

Definition history (w : World) (calls : list (Call * Instant)) : World :=
  fold_left perform calls w.

(* every row of the object store carries an updatedAt string that
   satisfies P *)
Definition stamped (P : string -> Prop) (w : World) : Prop :=
  forall d k r,
    db w = Some d -> In (k, r) (rows d) ->
    exists s, own r "updatedAt" = VStr s /\ P s.

(* the rows are stored under keys that IndexedDB accepts *)
Definition keyed (l : list (value * obj)) : bool :=
  forallb (fun kr => valid_key (fst kr)) l.

(** *** Reference definitions for import *)

(* every record is tried in turn, whatever became of the one before *)
Fixpoint create_each (w : World) (clock : nat -> Instant) (i : nat)
    (records : list value) : World :=
  match records with
  | [] => w
  | a :: rest => create_each (snd (addAnalysis w (clock i) a)) clock (S i) rest
  end.

(* how many of the creates were rejected *)
Fixpoint rejected_creates (w : World) (clock : nat -> Instant) (i : nat)
    (records : list value) : nat :=
  match records with
  | [] => 0
  | a :: rest =>
      (match fst (addAnalysis w (clock i) a) with
       | Rejected _ => 1
       | _ => 0
       end + rejected_creates (snd (addAnalysis w (clock i) a)) clock (S i) rest)%nat
  end.

(** ** A sample runtime and sample data *)

Definition digit_char (k : Z) : ascii := ascii_of_nat (48 + Z.to_nat k).

Fixpoint fraction_digits (fuel : nat) (num den : Z) : string :=
  match fuel with
  | O => EmptyString
  | S f =>
      if Z.eqb num 0 then EmptyString
      else String (digit_char (10 * num / den)%Z)
                  (fraction_digits f ((10 * num) mod den)%Z den)
  end.

(* decimal notation, up to 17 fractional digits *)
Definition decimal_of_Q (q : Q) : string :=
  let n := Z.abs (Qnum q) in
  let d := Zpos (Qden q) in
  (if Z.ltb (Qnum q) 0 then "-" else "")
    ++ NilEmpty.string_of_uint (N.to_uint (Z.to_N (n / d)%Z))
    ++ (if Z.eqb (n mod d)%Z 0 then ""
        else "." ++ fraction_digits 17 (n mod d)%Z d).

(* decimal literals: digits, optionally a point and more digits *)
Definition decimal_to_Q (s : string) : option Q :=
  match split "." s with
  | [i] =>
      match digits_value i 0 with
      | Some n => Some (inject_Z (Z.of_N n))
      | None => None
      end
  | [i; f] =>
      match digits_value i 0, digits_value f 0 with
      | Some n, Some m =>
          Some (inject_Z (Z.of_N n)
                + Qmake (Z.of_N m) (Pos.pow 10 (Pos.of_nat (String.length f))))%Q
      | _, _ => None
      end
  | _ => None
  end.

(* days from 1970-01-01 to the civil date y-m-d *)
Definition days_from_civil (y m d : Z) : Z :=
  (let y' := if Z.leb m 2 then y - 1 else y in
   let era := y' / 400 in
   let yoe := y' - era * 400 in
   let mp := (m + 9) mod 12 in
   let doy := (153 * mp + 2) / 5 + d - 1 in
   let doe := yoe * 365 + yoe / 4 - yoe / 100 + doy in
   era * 146097 + doe - 719468)%Z.

Definition field_value (s : string) (width : nat) : option Z :=
  if Nat.eqb (String.length s) width then
    match digits_value s 0 with
    | Some n => Some (Z.of_N n)
    | None => None
    end
  else None.

(* the date-only form YYYY-MM-DD, read as UTC midnight *)
Definition iso_date_value (v : value) : option Z :=
  match v with
  | VStr s =>
      match split "-" s with
      | [ys; ms; ds] =>
          match field_value ys 4, field_value ms 2, field_value ds 2 with
          | Some y, Some m, Some d =>
              if andb (andb (Z.leb 1 m) (Z.leb m 12))
                      (andb (Z.leb 1 d) (Z.leb d 31))
              then Some (days_from_civil y m d * 86400000)%Z
              else None
          | _, _, _ => None
          end
      | _ => None
      end
  | _ => None
  end.

Definition sample_runtime : Runtime :=
  {| NumberToString := decimal_of_Q;
     StringToNumber := decimal_to_Q;
     DateValue := iso_date_value |}.

Definition sample_instant : Instant :=
  {| Date_now := 1736899200000; toISOString := "2025-01-15T00:00:00.000Z" |}.

Definition later_instant : Instant :=
  {| Date_now := 1736985600000; toISOString := "2025-01-16T00:00:00.000Z" |}.

(* the three records written by the page when it enters fallback mode *)
Definition sample_oak : obj :=
  [ ("id", VNum 1736899200000);
    ("date", VStr "2025-01-15");
    ("type", VStr "species");
    ("species", VStr "Oak");
    ("confidence", VNum 0.85);
    ("image", VStr "data:image/jpeg;base64,...");
    ("metadata", VObj [("greenCover", VNum 75); ("treeCount", VNum 12)]);
    ("createdAt", VStr "2025-01-15T00:00:00.000Z");
    ("updatedAt", VStr "2025-01-15T00:00:00.000Z") ].

Definition sample_path : obj :=
  [ ("id", VNum 1736899200001);
    ("date", VStr "2025-01-14");
    ("type", VStr "path");
    ("species", VNull);
    ("confidence", VNull);
    ("image", VStr "data:image/jpeg;base64,...");
    ("metadata", VObj [("pathLength", VNum 150); ("efficiency", VNum 0.92)]);
    ("createdAt", VStr "2025-01-15T00:00:00.000Z");
    ("updatedAt", VStr "2025-01-15T00:00:00.000Z") ].

Definition sample_pine : obj :=
  [ ("id", VNum 1736899200002);
    ("date", VStr "2025-01-13");
    ("type", VStr "species");
    ("species", VStr "Pine");
    ("confidence", VNum 0.92);
    ("image", VStr "data:image/jpeg;base64,...");
    ("metadata", VObj [("greenCover", VNum 88); ("treeCount", VNum 8)]);
    ("createdAt", VStr "2025-01-15T00:00:00.000Z");
    ("updatedAt", VStr "2025-01-15T00:00:00.000Z") ].

Definition sampleData : list value :=
  [VObj sample_oak; VObj sample_path; VObj sample_pine].

Definition storage_of (it : Item) : LocalStorage :=
  {| accessible := true; has_room := true; item := it |}.

(* fallback mode, as the page sets it up after a failed init() *)
Definition fallback_world : World :=
  {| db := None; storage := storage_of (Json (VArr sampleData)) |}.

Definition garbled_world : World :=
  {| db := None; storage := storage_of Garbled |}.

(* the same three records in the object store *)
Definition primary_db : IDBDatabase :=
  {| rows := [ (VNum 1736899200000, sample_oak);
               (VNum 1736899200001, sample_path);
               (VNum 1736899200002, sample_pine) ];
     keyGenerator := 1736899200003;
     fault := None |}.

Definition primary_world : World :=
  {| db := Some primary_db; storage := storage_of Missing |}.

Definition path_id : value := VNum 1736899200001.

Definition confidence_patch : value := VObj [("confidence", VNum 0.5)].

Definition species_filter : obj :=
  [("type", VStr "species"); ("minConfidence", VNum 0.9)].

Definition empty_type_filter : obj := [("type", VStr "")].

Definition sample_payload : Payload :=
  {| text := "[...]"; JSON_parse := Resolved (VArr sampleData) |}.

Definition csv_header_of_the_spec : string :=
  "ID,Date,Type,Species,Confidence,GreenCover,TreeCount,CreatedAt".

(* an object store whose rows are not in date order and share dates *)
Definition older_pine : obj :=
  [ ("id", VNum 1); ("date", VStr "2025-01-13"); ("type", VStr "species");
    ("species", VStr "Pine") ].

Definition newer_oak : obj :=
  [ ("id", VNum 2); ("date", VStr "2025-01-15"); ("type", VStr "species");
    ("species", VStr "Oak") ].

Definition middle_path : obj :=
  [ ("id", VNum 3); ("date", VStr "2025-01-14"); ("type", VStr "path");
    ("species", VNull) ].

Definition newer_birch : obj :=
  [ ("id", VNum 4); ("date", VStr "2025-01-15"); ("type", VStr "species");
    ("species", VStr "Birch") ].

Definition middle_elm : obj :=
  [ ("id", VNum 5); ("date", VStr "2025-01-14"); ("type", VStr "species");
    ("species", VStr "Elm") ].

Definition shuffled_records : list value :=
  [ VObj older_pine; VObj newer_oak; VObj middle_path; VObj newer_birch;
    VObj middle_elm ].

Definition shuffled_world : World :=
  {| db := Some {| rows := [ (VNum 1, older_pine); (VNum 2, newer_oak);
                             (VNum 3, middle_path); (VNum 4, newer_birch);
                             (VNum 5, middle_elm) ];
                   keyGenerator := 6;
                   fault := None |};
     storage := storage_of Missing |}.

Definition type_filter : obj := [("type", VStr "species")].

(** * The rest of the page scripts *)

(** ** Opening the database: checkSupport, init and the page-load handler *)

(** What the platform does with [indexedDB.open]. *)
Inductive Opening : Type :=
| NoIndexedDB                          (* window.indexedDB is missing *)
| OpenFails (message : option string)  (* request.onerror; request.error?.message *)
| UpgradeThrows (e : error) (d : IDBDatabase)
                                       (* the schema step threw e, the open went on to succeed *)
| Blocked                              (* request.onblocked, and the open never completes *)
| Opened (d : IDBDatabase).            (* request.onsuccess *)

Inductive InitError : Type :=
| NotSupported                   (* new Error('IndexedDB not supported') *)
| DatabaseError (message : string)
| Raised (e : error).

Inductive InitResult : Type :=
| InitResolved (d : IDBDatabase)
| InitRejected (why : InitError)
| InitPending.

(** The fields of the facade object that change. *)
Record Facade : Type := {
  isSupported : bool;
  world : World
}.

(* Check if IndexedDB is supported *)
Definition checkSupport (platform : Opening) : bool :=
  match platform with
  | NoIndexedDB => false
  | _ => true
  end.

(* constructor() *)
Definition new_EcoViewDatabase (platform : Opening) (ls : LocalStorage) : Facade :=
  {| isSupported := checkSupport platform;
     world := {| db := None; storage := ls |} |}.

Definition set_db (f : Facade) (d : option IDBDatabase) : Facade :=
  {| isSupported := isSupported f;
     world := {| db := d; storage := storage (world f) |} |}.

(* Initialize the database with enhanced error handling: what the promise
   settles to, and the facade at that moment.  A reject(error) from the
   schema step settles the promise inside onupgradeneeded, before the
   open request has succeeded *)
Definition init (f : Facade) (platform : Opening) : InitResult * Facade :=
  if isSupported f then
    match platform with
    | NoIndexedDB => (InitRejected (Raised TypeError), f)
    | OpenFails message =>
        (InitRejected
           (DatabaseError
              ("Database error: " ++
               match message with
               | Some m => if String.eqb m "" then "Unknown error" else m
               | None => "Unknown error"
               end)), f)
    | UpgradeThrows e d => (InitRejected (Raised e), f)
    | Blocked => (InitPending, f)
    | Opened d => (InitResolved d, set_db f (Some d))
    end
  else (InitRejected NotSupported, f).

(* the connection that request.onsuccess still delivers after the
   promise of init() has been rejected; f is the facade init() ran on *)
Definition late_success (f : Facade) (platform : Opening)
  : option IDBDatabase :=
  if isSupported f then
    match platform with
    | UpgradeThrows _ d => Some d
    | _ => None
    end
  else None.

(* the sampleData literal of the page-load handler *)
Definition sampleData_at (now : Instant) : list value :=
  [ VObj [ ("id", VNum (inject_Z (Date_now now)));
           ("date", VStr "2025-01-15");
           ("type", VStr "species");
           ("species", VStr "Oak");
           ("confidence", VNum 0.85);
           ("image", VStr "data:image/jpeg;base64,...");
           ("metadata", VObj [("greenCover", VNum 75); ("treeCount", VNum 12)]);
           ("createdAt", VStr (toISOString now));
           ("updatedAt", VStr (toISOString now)) ];
    VObj [ ("id", VNum (inject_Z (Date_now now + 1)));
           ("date", VStr "2025-01-14");
           ("type", VStr "path");
           ("species", VNull);
           ("confidence", VNull);
           ("image", VStr "data:image/jpeg;base64,...");
           ("metadata", VObj [("pathLength", VNum 150); ("efficiency", VNum 0.92)]);
           ("createdAt", VStr (toISOString now));
           ("updatedAt", VStr (toISOString now)) ];
    VObj [ ("id", VNum (inject_Z (Date_now now + 2)));
           ("date", VStr "2025-01-13");
           ("type", VStr "species");
           ("species", VStr "Pine");
           ("confidence", VNum 0.92);
           ("image", VStr "data:image/jpeg;base64,...");
           ("metadata", VObj [("greenCover", VNum 88); ("treeCount", VNum 8)]);
           ("createdAt", VStr (toISOString now));
           ("updatedAt", VStr (toISOString now)) ] ].

(* document.addEventListener('DOMContentLoaded', async () => { ... }) of
   the database script, up to the last event of the open request: the
   catch block runs when the promise of init() is rejected, and a
   success event that comes after it sets this.db once more *)
Definition onDOMContentLoaded (f : Facade) (platform : Opening) (now : Instant)
  : Facade :=
  let handled :=
    match init f platform with
    | (InitRejected _, f') =>
        let ls := storage (world f') in
        let fallback (ls' : LocalStorage) :=
          {| isSupported := false; world := {| db := None; storage := ls' |} |} in
        match getItem ls with
        | Resolved Missing =>                       (* if (!stored) *)
            match setItem ls (VArr (sampleData_at now)) with
            | Resolved ls' => fallback ls'
            | _ => fallback ls                      (* setItem threw *)
            end
        | _ => fallback ls
        end
    | (_, f') => f'
    end in
  match late_success f platform with
  | Some d => set_db handled (Some d)     (* this.db = request.result *)
  | None => handled
  end.

(** ** Database statistics: getStats and getDatabaseSize *)

Record Stats : Type := {
  totalRecords : nat;
  databaseSize : value;
  lastUpdated : string
}.

(* Estimate database size.  [estimate] is the usage that
   navigator.storage.estimate() resolves with, [None] when the platform
   has no such method; the value computed in the then-callback goes
   nowhere *)
Definition getDatabaseSize (estimate : option value) : value :=
  match estimate with
  | Some usage => (fun _ : value => VNum 0) (js_or usage (VNum 0))
  | None => VNum 0
  end.

(* store.count() *)
Definition store_count (d : IDBDatabase) : request nat :=
  match fault d with
  | Some e => Failure e
  | None => Success (List.length (rows d)) d
  end.

(* Get database statistics *)
Definition getStats (w : World) (now : Instant) (estimate : option value)
  : outcome Stats :=
  match db w with
  | None => Rejected TypeError           (* this.db.transaction *)
  | Some d =>
      match store_count d with
      | Thrown e => Rejected e
      | Success result _ =>
          Resolved {| totalRecords := result;
                      databaseSize := getDatabaseSize estimate;
                      lastUpdated := toISOString now |}
      | Failure e => Rejected e
      end
  end.

(** ** class AnalysisLogger *)

Module AnalysisLogger.

(* this.db of the logger: window.ecoviewDB once init() has run *)
Record Logger : Type := { attached : bool }.

(* new Date().toISOString().split('T')[0] *)
Definition today (now : Instant) : string :=
  hd "" (split "T" (toISOString now)).

(* try { const id = await this.db.addAnalysis(analysisData); return id }
   catch (error) { return false } *)
Definition log_record (w : World) (now : Instant) (analysisData : obj)
  : outcome value * World :=
  match addAnalysis w now (VObj analysisData) with
  | (Resolved id, w') => (Resolved id, w')
  | (Rejected _, w') => (Resolved (VBool false), w')
  | (Pending, w') => (Pending, w')
  end.

(* the analysisData literal reads properties of data before the try *)
Definition with_data (l : Logger) (w : World) (data : value)
    (k : outcome value * World) : outcome value * World :=
  if attached l then
    if readable data then k else (Rejected TypeError, w)
  else (Resolved (VBool false), w).

Definition species_record (now : Instant) (data : value) : obj :=
  [ ("date", VStr (today now));
    ("type", VStr "species");
    ("species", js_or (get data "species") VNull);
    ("confidence", js_or (get data "confidence") VNull);
    ("image", js_or (get data "image") VNull);
    ("metadata",
     VObj [ ("greenCover", js_or (get data "greenCover") VNull);
            ("treeCount", js_or (get data "treeCount") VNull);
            ("boundingBoxes", js_or (get data "boundingBoxes") VNull);
            ("processingTime", js_or (get data "processingTime") VNull) ]) ].

Definition tree_count_record (now : Instant) (data : value) : obj :=
  [ ("date", VStr (today now));
    ("type", VStr "count");
    ("species", VNull);
    ("confidence", js_or (get data "confidence") VNull);
    ("image", js_or (get data "image") VNull);
    ("metadata",
     VObj [ ("treeCount", js_or (get data "treeCount") (VNum 0));
            ("greenCover", js_or (get data "greenCover") VNull);
            ("processingTime", js_or (get data "processingTime") VNull);
            ("algorithm", js_or (get data "algorithm") (VStr "default")) ]) ].

Definition path_record (now : Instant) (data : value) : obj :=
  [ ("date", VStr (today now));
    ("type", VStr "path");
    ("species", VNull);
    ("confidence", js_or (get data "efficiency") VNull);
    ("image", js_or (get data "image") VNull);
    ("metadata",
     VObj [ ("pathLength", js_or (get data "pathLength") VNull);
            ("efficiency", js_or (get data "efficiency") VNull);
            ("waypoints", js_or (get data "waypoints") VNull);
            ("processingTime", js_or (get data "processingTime") VNull);
            ("algorithm", js_or (get data "algorithm") (VStr "default")) ]) ].

Definition green_cover_record (now : Instant) (data : value) : obj :=
  [ ("date", VStr (today now));
    ("type", VStr "greencover");
    ("species", VNull);
    ("confidence", js_or (get data "confidence") VNull);
    ("image", js_or (get data "image") VNull);
    ("metadata",
     VObj [ ("greenCover", js_or (get data "greenCover") VNull);
            ("vegetationDensity", js_or (get data "vegetationDensity") VNull);
            ("processingTime", js_or (get data "processingTime") VNull);
            ("algorithm", js_or (get data "algorithm") (VStr "default")) ]) ].

Definition generic_record (now : Instant) (type data : value) : obj :=
  [ ("date", VStr (today now));
    ("type", type);
    ("species", js_or (get data "species") VNull);
    ("confidence", js_or (get data "confidence") VNull);
    ("image", js_or (get data "image") VNull);
    ("metadata", js_or (get data "metadata") (VObj [])) ].

(* Log a species identification analysis *)
Definition logSpeciesAnalysis (l : Logger) (w : World) (now : Instant)
    (data : value) : outcome value * World :=
  with_data l w data (log_record w now (species_record now data)).

(* Log a tree counting analysis *)
Definition logTreeCountAnalysis (l : Logger) (w : World) (now : Instant)
    (data : value) : outcome value * World :=
  with_data l w data (log_record w now (tree_count_record now data)).

(* Log an optimal path analysis *)
Definition logPathAnalysis (l : Logger) (w : World) (now : Instant)
    (data : value) : outcome value * World :=
  with_data l w data (log_record w now (path_record now data)).

(* Log a green cover analysis *)
Definition logGreenCoverAnalysis (l : Logger) (w : World) (now : Instant)
    (data : value) : outcome value * World :=
  with_data l w data (log_record w now (green_cover_record now data)).

(* Generic analysis logger *)
Definition logAnalysis (l : Logger) (w : World) (now : Instant)
    (type data : value) : outcome value * World :=
  with_data l w data (log_record w now (generic_record now type data)).

(* analyses.slice(0, limit) for an integer limit *)
Definition slice_to (l : list value) (limit : Z) : list value :=
  let len := Z.of_nat (List.length l) in
  firstn (Z.to_nat (if Z.ltb limit 0 then Z.max (len + limit) 0
                    else Z.min limit len)) l.

(* Get recent analyses for a specific type *)
Definition getRecentAnalyses (rt : Runtime) (l : Logger) (w : World)
    (type : value) (limit : Z) : outcome (list value) :=
  if attached l then
    let filters := if truthy type then [("type", type)] else [] in
    match getAnalyses rt w filters with
    | Resolved analyses => Resolved (slice_to analyses limit)
    | Rejected _ => Resolved []          (* catch (error) { return [] } *)
    | Pending => Pending
    end
  else Resolved [].

(* Get analysis statistics: the analytics, or null *)
Definition getStats (rt : Runtime) (l : Logger) (w : World)
  : outcome (option Analytics) :=
  if attached l then
    match getAnalytics rt w with
    | Resolved a => Resolved (Some a)
    | Rejected _ => Resolved None        (* catch (error) { return null } *)
    | Pending => Pending
    end
  else Resolved None.

End AnalysisLogger.

(** ** The carousel of the landing pages *)

Module Carousel.

(** A click on a button or a dot, or a tick of the auto-play timer. *)
Inductive Event : Type :=
| ClickNext
| ClickPrev
| ClickDot (index : nat)
| AutoPlay.

(* what initCarousel leaves in currentSlide; [None] when it returns at
   once: no track, or no slide *)
Definition initCarousel (track : bool) (slides : nat) : option Z :=
  if orb (negb track) (Nat.eqb slides 0) then None else Some 0%Z.

(* currentSlide = (currentSlide + 1) % slides.length *)
Definition nextSlide (slides : nat) (currentSlide : Z) : Z :=
  Z.rem (currentSlide + 1) (Z.of_nat slides).

(* currentSlide = (currentSlide - 1 + slides.length) % slides.length *)
Definition prevSlide (slides : nat) (currentSlide : Z) : Z :=
  Z.rem (currentSlide - 1 + Z.of_nat slides) (Z.of_nat slides).

(* the slides (or dots) that updateCarousel leaves with the class
   'active' *)
Definition active (count : nat) (currentSlide : Z) : list bool :=
  map (fun index => Z.eqb (Z.of_nat index) currentSlide) (seq 0 count).

(* the N of translateX(-N%) *)
Definition offset (currentSlide : Z) : Z := (currentSlide * 100)%Z.

(* one event on a carousel with that many slides and dots *)
Definition handle (slides dots : nat) (currentSlide : Z) (e : Event) : Z :=
  match e with
  | ClickNext | AutoPlay => nextSlide slides currentSlide
  | ClickPrev => prevSlide slides currentSlide
  | ClickDot index =>
      if Nat.ltb index dots then Z.of_nat index else currentSlide
  end.

Definition run (slides dots : nat) (currentSlide : Z) (events : list Event) : Z :=
  fold_left (handle slides dots) events currentSlide.

End Carousel.

(** ** Reference definitions for the further properties *)

(* the five logging methods, the generic one at a given type, each
   with the record it builds *)
Definition logging (type : value)
  : list ((AnalysisLogger.Logger -> World -> Instant -> value
           -> outcome value * World)
          * (Instant -> value -> obj)) :=
  [ (AnalysisLogger.logSpeciesAnalysis, AnalysisLogger.species_record);
    (AnalysisLogger.logTreeCountAnalysis, AnalysisLogger.tree_count_record);
    (AnalysisLogger.logPathAnalysis, AnalysisLogger.path_record);
    (AnalysisLogger.logGreenCoverAnalysis, AnalysisLogger.green_cover_record);
    (fun l w now data => AnalysisLogger.logAnalysis l w now type data,
     fun now data => AnalysisLogger.generic_record now type data) ].

(* the records they hand to addAnalysis *)
Definition log_records (now : Instant) (type data : value) : list obj :=
  [ AnalysisLogger.species_record now data;
    AnalysisLogger.tree_count_record now data;
    AnalysisLogger.path_record now data;
    AnalysisLogger.green_cover_record now data;
    AnalysisLogger.generic_record now type data ].

(* a localStorage that can be read and written and holds an array *)
Definition usable (ls : LocalStorage) (records : list value) : Prop :=
  accessible ls = true /\ has_room ls = true /\
  fallback_records ls = Some records.

Definition the_logger : AnalysisLogger.Logger :=
  {| AnalysisLogger.attached := true |}.

Definition oak_sighting : value :=
  VObj [("species", VStr "Oak"); ("confidence", VNum 0)].

Definition is_object (v : value) : bool :=
  match v with VObj _ => true | _ => false end.

(* the properties JSON keeps of an object: those that are not undefined *)
Fixpoint json_props (o : obj) : obj :=
  match o with
  | [] => []
  | (k, VUndefined) :: r => json_props r
  | (k, x) :: r => (k, jsonify x) :: json_props r
  end.

(* the object addAnalysisToLocalStorage pushes *)
Definition fallback_record (now : Instant) (a : value) : obj :=
  assign (assign (spread [("id", VNum (inject_Z (Date_now now)))] a)
                 "createdAt" (VStr (toISOString now)))
         "updatedAt" (VStr (toISOString now)).

(* the object addAnalysis hands to store.add *)
Definition primary_record (now : Instant) (a : value) : obj :=
  assign (assign (spread [] a) "createdAt" (VStr (toISOString now)))
         "updatedAt" (VStr (toISOString now)).

(* the order of two integer-like names: by the integers they denote *)
Definition index_le (a b : string) : Prop :=
  (index_value a <= index_value b)%N.

(* type is a string that the count-by-type object does not inherit *)
Definition plain_type (a : value) : bool :=
  match get a "type" with
  | VStr s => negb (inherited s)
  | _ => false
  end.

(* the types of the records, in record order *)
Definition type_names (l : list value) : list string :=
  flat_map (fun a => match get a "type" with
                     | VStr s => [s]
                     | _ => []
                     end) l.

(* the day of a date string: what comes before the first 'T' *)
Definition day_of (s : string) : string := hd "" (split "T" s).

(* date is a string whose day the count-by-date object does not inherit *)
Definition plain_day (a : value) : bool :=
  match get a "date" with
  | VStr s => negb (inherited (day_of s))
  | _ => false
  end.

(* the days of the records, in record order *)
Definition day_names (l : list value) : list string :=
  flat_map (fun a => match get a "date" with
                     | VStr s => [day_of s]
                     | _ => []
                     end) l.

(* how often the character occurs in the string *)
Fixpoint count_char (c : ascii) (s : string) : nat :=
  match s with
  | EmptyString => 0
  | String a r => (if Ascii.eqb a c then 1 else 0) + count_char c r
  end.

(* what slice_to keeps of a list of that length *)
Definition kept_by_slice (len : nat) (limit : Z) : nat :=
  if Z.ltb limit 0 then len - Z.to_nat (- limit) else Nat.min (Z.to_nat limit) len.

(* sample inputs for the further properties: a record as a page hands
   it to addAnalysis, the same under the id of a stored row, a record
   whose date is a number, and a fallback array with a null entry *)
Definition new_sighting : obj :=
  [ ("date", VStr "2025-01-16");
    ("type", VStr "species");
    ("species", VStr "Birch");
    ("confidence", VNum 0.7) ].

Definition clashing_sighting : obj :=
  ("id", VNum 1736899200001) :: new_sighting.

(* two records whose type and day are integer-like in the second *)
Definition numbered_records : list value :=
  [ VObj [("id", VNum 1); ("date", VStr "2025-01-15"); ("type", VStr "b")];
    VObj [("id", VNum 2); ("date", VStr "2025"); ("type", VStr "1")] ].

Definition numbered_world : World :=
  {| db := None; storage := storage_of (Json (VArr numbered_records)) |}.

(* an object store whose key generator has passed 2^53 *)
Definition spent_db : IDBDatabase :=
  {| rows := [(VNum 9007199254740992, sample_oak)];
     keyGenerator := 9007199254740993;
     fault := None |}.

Definition undated_world : World :=
  {| db := None;
     storage := storage_of
                  (Json (VArr [ VObj sample_oak;
                                VObj [("id", VNum 7); ("date", VNum 20250115)] ])) |}.

Definition holed_storage : LocalStorage :=
  storage_of (Json (VArr [VObj sample_oak; VNull])).

(* an object store filled by the facade: two creates and a delete *)
Definition fresh_db : IDBDatabase :=
  {| rows := []; keyGenerator := 1; fault := None |}.

Definition first_calls : list (Call * Instant) :=
  [ (CallAdd (VObj new_sighting), sample_instant);
    (CallAdd oak_sighting, sample_instant);
    (CallDelete (VNum 2), sample_instant) ].

Definition visited_record : obj :=
  new_sighting ++ [ ("createdAt", VStr "2025-01-15T00:00:00.000Z");
                    ("updatedAt", VStr "2025-01-15T00:00:00.000Z");
                    ("id", VNum 1) ].

Definition visited_db : IDBDatabase :=
  {| rows := [(VNum 1, visited_record)]; keyGenerator := 3; fault := None |}.

(** * Properties *)

Section Properties.

Variable rt : Runtime.

(** ** Session fallback mode *)

(** C1.  With the database handle absent, the point operations do not
    reach the fallback adapter: getAnalysis, updateAnalysis,
    deleteAnalysis and clearAllData dereference the null handle and
    reject with a TypeError, leaving both stores as they were, whereas
    addAnalysis and getAnalyses do delegate to the localStorage
    methods. *)
Theorem fallback_mode_point_operations_reject :
  forall (ls : LocalStorage) (now : Instant) (id patch a : value) (filters : obj),
    let w := {| db := None; storage := ls |} in
    getAnalysis w id = Rejected TypeError /\
    updateAnalysis w now id patch = (Rejected TypeError, w) /\
    deleteAnalysis w id = (Rejected TypeError, w) /\
    clearAllData w = (Rejected TypeError, w) /\
    fst (addAnalysis w now a) = fst (addAnalysisToLocalStorage ls now a) /\
    getAnalyses rt w filters =
      Resolved (getAnalysesFromLocalStorage rt ls filters).
Proof.
  intros ls now id patch a filters w.
  repeat split; try reflexivity.
  unfold addAnalysis, w; simpl.
  destruct (addAnalysisToLocalStorage ls now a); reflexivity.
Qed.

(** ** Point lookups in the object store *)

Lemma find_row_remove_row :
  forall (id : value) (l : list (value * obj)),
    find_row id (remove_row id l) = None.
Proof.
  intros id l; unfold remove_row.
  induction l as [| [k r] t IH]; simpl; [reflexivity |].
  destruct (key_eqb k id) eqn:E; simpl; [exact IH |].
  rewrite E; exact IH.
Qed.

(** C2 (as the code has it).  A lookup of an id that is absent from the
    object store resolves with undefined instead of failing; so does a
    lookup that follows a successful delete of that id. *)
Theorem getAnalysis_absent_resolves_undefined :
  forall (d : IDBDatabase) (ls : LocalStorage) (id : value),
    fault d = None ->
    valid_key id = true ->
    let w := {| db := Some d; storage := ls |} in
    (find_row id (rows d) = None -> getAnalysis w id = Resolved VUndefined) /\
    (exists w',
        deleteAnalysis w id = (Resolved (VBool true), w') /\
        getAnalysis w' id = Resolved VUndefined).
Proof.
  intros d ls id Hf Hk w; split.
  - intros Habs. unfold getAnalysis, store_get, w; simpl.
    rewrite Hk, Hf, Habs; reflexivity.
  - eexists; split.
    + unfold deleteAnalysis, store_delete, w; simpl.
      rewrite Hk, Hf; reflexivity.
    + unfold getAnalysis, store_get, with_db; simpl.
      rewrite Hk, find_row_remove_row; reflexivity.
Qed.

(** ** The fallback adapter on an unusable store *)

(** C9 (as the code has it).  When localStorage cannot be read or its
    payload does not parse, a write raises the underlying error and the
    facade passes it on to the caller; a read catches the error and
    returns the empty array. *)
Theorem unusable_fallback_store_write_raises_read_is_empty :
  forall (ls : LocalStorage) (now : Instant) (a : value) (filters : obj),
    accessible ls = false \/ (accessible ls = true /\ item ls = Garbled) ->
    let w := {| db := None; storage := ls |} in
    (exists e,
        addAnalysisToLocalStorage ls now a = (Rejected e, ls) /\
        addAnalysis w now a = (Rejected e, w)) /\
    getAnalysesFromLocalStorage rt ls filters = [] /\
    getAnalyses rt w filters = Resolved [].
Proof.
  intros ls now a filters H w.
  assert (Hw : exists e, addAnalysisToLocalStorage ls now a = (Rejected e, ls)).
  { unfold addAnalysisToLocalStorage, getItem.
    destruct H as [H | [H1 H2]].
    - rewrite H; simpl; eauto.
    - rewrite H1, H2; simpl; eauto. }
  assert (Hr : getAnalysesFromLocalStorage rt ls filters = []).
  { unfold getAnalysesFromLocalStorage, getItem.
    destruct H as [H | [H1 H2]].
    - rewrite H; reflexivity.
    - rewrite H1, H2; reflexivity. }
  split; [| split].
  - destruct Hw as [e He]; exists e; split; [exact He |].
    unfold addAnalysis, w; simpl; rewrite He; reflexivity.
  - exact Hr.
  - unfold getAnalyses, w; simpl; rewrite Hr; reflexivity.
Qed.

(** ** Import *)

Lemma addAnalysisToLocalStorage_settles :
  forall (ls : LocalStorage) (now : Instant) (a : value),
    fst (addAnalysisToLocalStorage ls now a) <> Pending.
Proof.
  intros ls now a; unfold addAnalysisToLocalStorage, getItem, setItem.
  destruct (accessible ls); simpl; [| discriminate].
  destruct (item ls) as [| | doc]; simpl; try discriminate.
  - destruct (has_room ls); simpl; discriminate.
  - destruct doc; simpl; try discriminate.
    destruct (has_room ls); simpl; discriminate.
Qed.

Lemma addAnalysis_settles :
  forall (w : World) (now : Instant) (a : value),
    fst (addAnalysis w now a) <> Pending.
Proof.
  intros w now a; unfold addAnalysis.
  destruct (db w) as [d |].
  - destruct (store_add d _) as [e | e | key d'] eqn:E; simpl; try discriminate.
    pose proof (addAnalysisToLocalStorage_settles (storage w) now
      (VObj (assign (assign (spread [] a) "createdAt" (VStr (toISOString now)))
                    "updatedAt" (VStr (toISOString now))))) as Hs.
    destruct (addAnalysisToLocalStorage _ _ _) as [r ls']; exact Hs.
  - pose proof (addAnalysisToLocalStorage_settles (storage w) now a) as Hs.
    destruct (addAnalysisToLocalStorage _ _ _) as [r ls']; exact Hs.
Qed.

Lemma import_each_tries_all :
  forall (records : list value) (w : World) (clock : nat -> Instant) (i : nat),
    import_each w clock i records = (Resolved tt, create_each w clock i records).
Proof.
  induction records as [| a rest IH]; intros w clock i; simpl; [reflexivity |].
  pose proof (addAnalysis_settles w (clock i) a) as Hs.
  destruct (addAnalysis w (clock i) a) as [r w']; simpl in *.
  destruct r; try apply IH. contradiction.
Qed.

(** C7.  importData parses the whole payload, then tries to create every
    parsed record in turn: a rejected create does not stop the loop,
    and the value returned is the number of parsed records whatever the
    creates did. *)
Theorem importData_returns_parsed_count :
  forall (w : World) (clock : nat -> Instant) (data : Payload)
         (format : value) (records : list value),
    (format = VStr "json" /\ JSON_parse data = Resolved (VArr records)) \/
    (format = VStr "csv" /\ parse_csv (text data) = records) ->
    importData w clock data format =
      (Resolved (VNum (inject_Z (Z.of_nat (List.length records)))),
       create_each w clock 0 records).
Proof.
  intros w clock data format records [[Hf Hp] | [Hf Hp]];
    unfold importData; rewrite Hf; simpl.
  - rewrite Hp; simpl. rewrite import_each_tries_all; reflexivity.
  - rewrite Hp; simpl. rewrite import_each_tries_all; reflexivity.
Qed.

(** ** The filter engine *)

Lemma filter_filter :
  forall (A : Type) (p q : A -> bool) (l : list A),
    filter p (filter q l) = filter (fun x => andb (q x) (p x)) l.
Proof.
  intros A p q l; induction l as [| x l IH]; simpl; [reflexivity |].
  destruct (q x); simpl; [| exact IH].
  destruct (p x); rewrite IH; reflexivity.
Qed.

Lemma forallb_filter :
  forall (A : Type) (p q : A -> bool) (l : list A),
    forallb p l = true -> forallb p (filter q l) = true.
Proof.
  intros A p q l; induction l as [| x l IH]; simpl; [reflexivity |].
  intros H; apply andb_prop in H; destruct H as [Hx Hl].
  destruct (q x); simpl; [rewrite Hx |]; auto.
Qed.

Lemma filter_step_spec :
  forall (cond : value) (p : value -> bool) (l : list value),
    forallb readable l = true ->
    filter_step cond p l =
      Resolved (filter (fun a => implb (truthy cond) (p a)) l).
Proof.
  intros cond p l Hl; unfold filter_step.
  destruct (truthy cond); simpl.
  - rewrite Hl; reflexivity.
  - f_equal. induction l as [| x l IH]; simpl; [reflexivity |].
    simpl in Hl; apply andb_prop in Hl; destruct Hl as [_ Hl].
    rewrite <- IH by exact Hl; reflexivity.
Qed.

Lemma applyFilters_spec :
  forall (l : list value) (filters : obj),
    forallb readable l = true ->
    applyFilters rt (VArr l) filters = Resolved (filter (passes rt filters) l).
Proof.
  intros l filters Hl; unfold applyFilters; simpl.
  rewrite filter_step_spec by exact Hl; simpl.
  rewrite filter_step_spec by (apply forallb_filter; exact Hl); simpl.
  rewrite filter_step_spec by (do 2 apply forallb_filter; exact Hl); simpl.
  rewrite filter_step_spec by (do 3 apply forallb_filter; exact Hl); simpl.
  rewrite filter_step_spec by (do 4 apply forallb_filter; exact Hl).
  rewrite !filter_filter; reflexivity.
Qed.

(** C3 (as the code has it).  On an array of records the filter engine
    returns, in their order, exactly the records for which every truthy
    entry of the filter object holds; an entry that is absent, or
    present but falsy (the empty string, zero, null), imposes no
    constraint. *)
Theorem applyFilters_keeps_records_passing_truthy_predicates :
  forall (l : list value) (filters : obj),
    forallb readable l = true ->
    applyFilters rt (VArr l) filters = Resolved (filter (passes rt filters) l) /\
    (forall a, In a (filter (passes rt filters) l) <->
               In a l /\ passes rt filters a = true) /\
    (forall x y, js_ge rt (VStr x) (VStr y) = negb (String.ltb x y) /\
                 js_le rt (VStr x) (VStr y) = negb (String.ltb y x)).
Proof.
  intros l filters Hl; split; [| split].
  - apply applyFilters_spec; exact Hl.
  - intros a; apply filter_In.
  - intros x y; unfold js_ge, js_le, js_lt; simpl.
    split; [destruct (String.ltb x y) | destruct (String.ltb y x)]; reflexivity.
Qed.

(** ** Sorting by date *)

Lemma insert_by_perm :
  forall (cmp : value -> value -> Z) (x : value) (l : list value),
    Permutation (x :: l) (insert_by cmp x l).
Proof.
  intros cmp x l; induction l as [| y r IH]; simpl; [apply Permutation_refl |].
  destruct (Z.ltb 0 (cmp x y)); [| apply Permutation_refl].
  eapply perm_trans; [apply perm_swap |].
  apply perm_skip; exact IH.
Qed.

Lemma insertion_perm :
  forall (cmp : value -> value -> Z) (l : list value),
    Permutation l (fold_right (insert_by cmp) [] l).
Proof.
  intros cmp l; induction l as [| x l IH]; simpl; [constructor |].
  eapply perm_trans; [apply perm_skip; exact IH | apply insert_by_perm].
Qed.

Lemma readable_defined :
  forall l : list value,
    forallb readable l = true ->
    filter (fun v => negb (is_undefined v)) l = l /\ filter is_undefined l = [].
Proof.
  induction l as [| x l IH]; simpl; intros H; [split; reflexivity |].
  apply andb_prop in H; destruct H as [Hx Hl].
  destruct (IH Hl) as [H1 H2].
  destruct x; simpl in *; try discriminate; rewrite H1, H2; split; reflexivity.
Qed.

Lemma array_sort_readable :
  forall (cmp : value -> value -> Z) (l : list value),
    forallb readable l = true ->
    array_sort cmp l = fold_right (insert_by cmp) [] l.
Proof.
  intros cmp l Hl; unfold array_sort.
  destruct (readable_defined l Hl) as [H1 H2].
  rewrite H1, H2, app_nil_r; reflexivity.
Qed.

Lemma sort_by_date_readable :
  forall l : list value,
    forallb readable l = true ->
    sort_by_date rt l = Resolved (fold_right (insert_by (newest_first rt)) [] l).
Proof.
  intros l Hl; unfold sort_by_date.
  destruct (readable_defined l Hl) as [H1 _].
  rewrite H1, Hl, andb_false_r, array_sort_readable by exact Hl.
  reflexivity.
Qed.

Lemma not_older_trans :
  forall a b c : value,
    not_older rt a b -> not_older rt b c -> not_older rt a c.
Proof.
  intros a b c; unfold not_older.
  destruct (date_value rt a), (date_value rt b), (date_value rt c);
    intros; try contradiction; lia.
Qed.

Lemma insert_by_sorted :
  forall (x : value) (l : list value),
    has_date rt x ->
    Forall (has_date rt) l ->
    StronglySorted (not_older rt) l ->
    StronglySorted (not_older rt) (insert_by (newest_first rt) x l).
Proof.
  intros x l [_ Hx] Hd Hs; induction l as [| y r IH]; simpl.
  - constructor; constructor.
  - inversion Hd as [| ? ? [_ Hy] Hr]; subst.
    inversion Hs as [| ? ? Hsr Hall]; subst.
    unfold newest_first at 1; fold (date_value rt x); fold (date_value rt y).
    destruct (date_value rt x) as [tx |] eqn:Ex; [| congruence].
    destruct (date_value rt y) as [ty |] eqn:Ey; [| congruence].
    destruct (Z.ltb 0 (ty - tx)) eqn:E.
    + apply Z.ltb_lt in E. constructor; [apply IH; assumption |].
      eapply Permutation_Forall; [apply insert_by_perm |].
      constructor; [| exact Hall].
      unfold not_older; rewrite Ex, Ey; lia.
    + apply Z.ltb_ge in E.
      assert (Hxy : not_older rt x y) by (unfold not_older; rewrite Ex, Ey; lia).
      constructor; [exact Hs |].
      constructor; [exact Hxy |].
      eapply Forall_impl; [| exact Hall].
      intros z Hz; eapply not_older_trans; eassumption.
Qed.

Lemma insertion_sorted :
  forall l : list value,
    Forall (has_date rt) l ->
    StronglySorted (not_older rt) (fold_right (insert_by (newest_first rt)) [] l).
Proof.
  induction l as [| x l IH]; simpl; intros H; [constructor |].
  inversion H; subst.
  apply insert_by_sorted; auto.
  eapply Permutation_Forall; [apply insertion_perm | assumption].
Qed.

Lemma insert_by_stable :
  forall (t : Z) (x : value) (l : list value),
    has_date rt x ->
    Forall (has_date rt) l ->
    filter (dated rt t) (insert_by (newest_first rt) x l) =
    filter (dated rt t) (x :: l).
Proof.
  intros t x l [_ Hx] Hd; induction l as [| y r IH]; [reflexivity |].
  inversion Hd as [| ? ? [_ Hy] Hr]; subst.
  cbn [insert_by].
  unfold newest_first at 1; fold (date_value rt x); fold (date_value rt y).
  destruct (date_value rt x) as [tx |] eqn:Ex; [| congruence].
  destruct (date_value rt y) as [ty |] eqn:Ey; [| congruence].
  destruct (Z.ltb 0 (ty - tx)) eqn:E; [| reflexivity].
  apply Z.ltb_lt in E.
  cbn [filter]; rewrite (IH Hr); cbn [filter].
  unfold dated; rewrite Ex, Ey.
  destruct (Z.eqb ty t) eqn:E1; destruct (Z.eqb tx t) eqn:E2; try reflexivity.
  apply Z.eqb_eq in E1, E2; lia.
Qed.

Lemma insertion_stable :
  forall (t : Z) (l : list value),
    Forall (has_date rt) l ->
    filter (dated rt t) (fold_right (insert_by (newest_first rt)) [] l) =
    filter (dated rt t) l.
Proof.
  intros t l; induction l as [| x l IH]; intros H; [reflexivity |].
  inversion H; subst. cbn [fold_right].
  rewrite insert_by_stable; auto.
  - cbn [filter]; rewrite IH by assumption; reflexivity.
  - eapply Permutation_Forall; [apply insertion_perm | assumption].
Qed.

(** ** Reading the active store *)

Lemma fallback_read_spec :
  forall (ls : LocalStorage) (recs : list value) (filters : obj),
    fallback_records ls = Some recs ->
    forallb readable recs = true ->
    getAnalysesFromLocalStorage rt ls filters =
      fold_right (insert_by (newest_first rt)) [] (filter (passes rt filters) recs).
Proof.
  intros ls recs filters Hs Hr.
  assert (Hgo : forall l, forallb readable l = true ->
            match (filteredAnalyses <- applyFilters rt (VArr l) filters ;;
                   sort_by_date rt filteredAnalyses) with
            | Resolved r => r
            | _ => []
            end = fold_right (insert_by (newest_first rt)) []
                             (filter (passes rt filters) l)).
  { intros l Hl. rewrite applyFilters_spec by exact Hl; simpl.
    rewrite sort_by_date_readable by (apply forallb_filter; exact Hl).
    reflexivity. }
  unfold fallback_records in Hs; unfold getAnalysesFromLocalStorage, getItem.
  destruct (accessible ls); [| discriminate].
  destruct (item ls) as [| | doc]; try discriminate.
  - inversion Hs; subst. simpl. apply (Hgo []); reflexivity.
  - destruct doc; try discriminate. inversion Hs; subst.
    simpl. apply Hgo; exact Hr.
Qed.

Lemma getAnalyses_spec :
  forall (w : World) (recs : list value) (filters : obj),
    stored_records w = Some recs ->
    forallb readable recs = true ->
    getAnalyses rt w filters =
      Resolved (fold_right (insert_by (newest_first rt)) []
                           (filter (passes rt filters) recs)).
Proof.
  intros w recs filters Hs Hr; unfold stored_records in Hs; unfold getAnalyses.
  destruct (db w) as [d |].
  - unfold store_getAll. destruct (fault d).
    + rewrite (fallback_read_spec _ _ _ Hs Hr); reflexivity.
    + inversion Hs; subst.
      rewrite applyFilters_spec by exact Hr; simpl.
      rewrite sort_by_date_readable by (apply forallb_filter; exact Hr).
      reflexivity.
  - rewrite (fallback_read_spec _ _ _ Hs Hr); reflexivity.
Qed.

Lemma has_date_readable :
  forall l : list value, Forall (has_date rt) l -> forallb readable l = true.
Proof.
  induction 1 as [| x l [Hx _] _ IH]; simpl; [reflexivity |].
  rewrite Hx, IH; reflexivity.
Qed.

Lemma Forall_filter :
  forall (A : Type) (P : A -> Prop) (p : A -> bool) (l : list A),
    Forall P l -> Forall P (filter p l).
Proof.
  intros A P p l H; induction H as [| x l Hx _ IH]; simpl; [constructor |].
  destruct (p x); [constructor |]; assumption.
Qed.

(** C6.  getAnalyses returns the records of the active store that pass
    the filter, newest date first, and records of one date stay in the
    order the store holds them. *)
Theorem getAnalyses_newest_first_and_stable :
  forall (w : World) (recs : list value) (filters : obj),
    stored_records w = Some recs ->
    Forall (has_date rt) recs ->
    exists l,
      getAnalyses rt w filters = Resolved l /\
      Permutation l (filter (passes rt filters) recs) /\
      StronglySorted (not_older rt) l /\
      (forall t, filter (dated rt t) l =
                 filter (dated rt t) (filter (passes rt filters) recs)).
Proof.
  intros w recs filters Hs Hd.
  pose proof (Forall_filter _ _ (passes rt filters) _ Hd) as Hdf.
  eexists; split; [| split; [| split]].
  - apply getAnalyses_spec; [exact Hs | apply has_date_readable; exact Hd].
  - apply Permutation_sym, insertion_perm.
  - apply insertion_sorted; exact Hdf.
  - intros t; apply insertion_stable; exact Hdf.
Qed.

(** ** Update *)

Lemma lookup_assign_same :
  forall (o : obj) (k : string) (v : value), lookup k (assign o k v) = Some v.
Proof.
  intros o k v; induction o as [| [k' v'] r IH]; simpl.
  - rewrite String.eqb_refl; reflexivity.
  - destruct (String.eqb k' k) eqn:E; simpl.
    + rewrite String.eqb_refl; reflexivity.
    + rewrite E; exact IH.
Qed.

Lemma lookup_assign_other :
  forall (o : obj) (k k' : string) (v : value),
    k' <> k -> lookup k (assign o k' v) = lookup k o.
Proof.
  intros o k k' v Hne; induction o as [| [k0 v0] r IH]; simpl.
  - apply String.eqb_neq in Hne; rewrite Hne; reflexivity.
  - destruct (String.eqb k0 k') eqn:E; simpl.
    + apply String.eqb_eq in E; subst k0.
      apply String.eqb_neq in Hne; rewrite Hne; reflexivity.
    + destruct (String.eqb k0 k); [reflexivity | exact IH].
Qed.

Lemma lookup_unnamed :
  forall (props dst : obj) (k : string),
    lookup k props = None ->
    lookup k (fold_left (fun o kv => assign o (fst kv) (snd kv)) props dst) =
    lookup k dst.
Proof.
  induction props as [| [k0 v0] r IH]; intros dst k H; simpl; [reflexivity |].
  simpl in H. destruct (String.eqb k0 k) eqn:E; [discriminate |].
  rewrite IH by exact H.
  apply lookup_assign_other. apply String.eqb_neq; exact E.
Qed.

Lemma unique_names_head :
  forall (k : string) (v : value) (r : obj),
    unique_names ((k, v) :: r) = true -> lookup k r = None.
Proof.
  intros k v r H; simpl in H; apply andb_prop in H; destruct H as [H _].
  apply negb_true_iff in H.
  induction r as [| [k1 v1] r IH]; simpl in *; [reflexivity |].
  apply orb_false_iff in H; destruct H as [H1 H2].
  rewrite String.eqb_sym, H1. apply IH; exact H2.
Qed.

Lemma lookup_copy :
  forall (props dst : obj) (k : string),
    unique_names props = true ->
    lookup k (fold_left (fun o kv => assign o (fst kv) (snd kv)) props dst) =
    match lookup k props with
    | Some v => Some v
    | None => lookup k dst
    end.
Proof.
  induction props as [| [k0 v0] r IH]; intros dst k H; simpl; [reflexivity |].
  pose proof (unique_names_head _ _ _ H) as Hk0.
  simpl in H; apply andb_prop in H; destruct H as [_ Hr].
  destruct (String.eqb k0 k) eqn:E.
  - apply String.eqb_eq in E; subst k0.
    rewrite lookup_unnamed by exact Hk0. apply lookup_assign_same.
  - rewrite IH by exact Hr.
    destruct (lookup k r); [reflexivity |].
    apply lookup_assign_other. apply String.eqb_neq; exact E.
Qed.

Lemma store_put_accepts :
  forall (d : IDBDatabase) (record : obj),
    fault d = None ->
    valid_key (own record "id") = true ->
    exists k d', store_put d record = Success k d'.
Proof.
  intros d record Hf Hk; unfold store_put, store_write.
  destruct (own record "id") eqn:E; try discriminate Hk;
    rewrite Hk, Hf;
    match goal with
    | |- context [find_row ?k ?l] => destruct (find_row k l)
    end; eauto.
Qed.

Lemma key_compare_refl :
  forall k : value, valid_key k = true -> key_compare k k = Eq.
Proof.
  fix IH 1. intros k; destruct k as [| | b | q | | s | l | o];
    intros H; try discriminate H.
  - simpl. apply Qeq_alt. reflexivity.
  - simpl. pose proof (String.compare_antisym s s) as Hs.
    destruct (String.compare s s); [reflexivity | discriminate Hs ..].
  - simpl in H |- *. induction l as [| x l IHl]; [reflexivity |].
    simpl in H. apply andb_prop in H; destruct H as [Hx Hl].
    rewrite (IH x Hx). apply IHl; exact Hl.
Qed.

Lemma key_compare_antisym :
  forall a b : value,
    valid_key a = true -> valid_key b = true ->
    key_compare b a = CompOpp (key_compare a b).
Proof.
  fix IH 1. intros a b Ha Hb.
  destruct a as [| | ? | x | | s | xs | ?]; try discriminate Ha;
    destruct b as [| | ? | y | | t | ys | ?]; try discriminate Hb;
    try reflexivity.
  - simpl. symmetry; apply Qcompare_antisym.
  - simpl. apply String.compare_antisym.
  - simpl in Ha, Hb |- *. revert ys Ha Hb.
    induction xs as [| x xs IHxs]; intros [| y ys] Ha Hb; try reflexivity.
    simpl in Ha, Hb.
    apply andb_prop in Ha; destruct Ha as [Hx Hxs].
    apply andb_prop in Hb; destruct Hb as [Hy Hys].
    rewrite (IH x y Hx Hy).
    destruct (key_compare x y); simpl; try reflexivity.
    apply IHxs; assumption.
Qed.

Lemma find_row_insert_row :
  forall (k : value) (r : obj) (l : list (value * obj)),
    valid_key k = true ->
    keyed l = true ->
    find_row k (insert_row k r l) = Some r.
Proof.
  intros k r l Hk.
  assert (Hrefl : key_eqb k k = true)
    by (unfold key_eqb; rewrite key_compare_refl by exact Hk; reflexivity).
  induction l as [| [k' r'] t IH]; intros Hl; cbn [insert_row find_row];
    [rewrite Hrefl; reflexivity |].
  unfold keyed in Hl; simpl in Hl; apply andb_prop in Hl; destruct Hl as [Hk' Ht].
  destruct (key_compare k k') eqn:E; cbn [find_row];
    try (rewrite Hrefl; reflexivity).
  unfold key_eqb. rewrite (key_compare_antisym k k' Hk Hk'), E; simpl.
  apply IH; exact Ht.
Qed.

Lemma In_insert_row :
  forall (k : value) (r : obj) (l : list (value * obj)) (x : value * obj),
    In x (insert_row k r l) -> x = (k, r) \/ In x l.
Proof.
  intros k r l x; induction l as [| [k' r'] t IH]; simpl.
  - intros [H | []]; left; symmetry; exact H.
  - destruct (key_compare k k'); simpl.
    + intros [H | H]; [left; symmetry; exact H | right; right; exact H].
    + intros [H | [H | H]]; [left; symmetry; exact H | right; left; exact H
                             | right; right; exact H].
    + intros [H | H]; [right; left; exact H |].
      destruct (IH H) as [H' | H']; [left; exact H' | right; right; exact H'].
Qed.

Lemma find_row_In :
  forall (k : value) (l : list (value * obj)) (r : obj),
    find_row k l = Some r -> exists k', In (k', r) l.
Proof.
  intros k l r; induction l as [| [k' r'] t IH]; simpl; [discriminate |].
  destruct (key_eqb k' k).
  - intros H; injection H as H; subst r'. exists k'; left; reflexivity.
  - intros H; destruct (IH H) as [k0 H0]. exists k0; right; exact H0.
Qed.

Lemma store_write_rows :
  forall (overwrite : bool) (d d' : IDBDatabase) (record : obj) (k : value),
    store_write overwrite d record = Success k d' ->
    fault d' = None /\
    exists r, rows d' = insert_row k r (rows d) /\
              own r "updatedAt" = own record "updatedAt" /\
              (own record "id" <> VUndefined -> r = record /\ k = own record "id").
Proof.
  intros overwrite d d' record k; unfold store_write.
  assert (Hgen : forall k0, own (assign record "id" k0) "updatedAt"
                            = own record "updatedAt").
  { intros k0; unfold own; rewrite lookup_assign_other by discriminate.
    reflexivity. }
  destruct (own record "id") eqn:Eid; cbn [valid_key];
    try discriminate;
    try (destruct (forallb valid_key elems); try discriminate);
    destruct (fault d); try discriminate;
    try (destruct (Z.ltb last_generated_key (keyGenerator d)); try discriminate);
    try (match goal with
         | |- context [find_row ?x ?l] => destruct (find_row x l)
         end);
    try (destruct overwrite; try discriminate);
    intros H; injection H as Hk Hd; subst k d'; cbn [rows fault];
    (split; [reflexivity |]); eexists;
    (split; [reflexivity |]); (split; [auto |]);
    intros Hne; try (exfalso; apply Hne; reflexivity); split; reflexivity.
Qed.

Lemma perform_stamped :
  forall (P : string -> Prop) (w : World) (c : Call * Instant),
    stamped P w -> P (toISOString (snd c)) -> stamped P (perform w c).
Proof.
  intros P w [call now] Hw Hnow; unfold perform; cbn [fst snd].
  assert (Hput : forall overwrite d d' record k,
            db w = Some d ->
            store_write overwrite d record = Success k d' ->
            own record "updatedAt" = VStr (toISOString now) ->
            stamped P (with_db w d')).
  { intros overwrite d d' record k Hd Hs Hu d1 k1 r1 Hd1 Hin.
    simpl in Hd1; injection Hd1 as Hd1; subst d1.
    destruct (store_write_rows _ _ _ _ _ Hs) as [_ [r [Hrows [Hr _]]]].
    rewrite Hrows in Hin. apply In_insert_row in Hin.
    destruct Hin as [Hin | Hin].
    - injection Hin as _ Hin; subst r1.
      exists (toISOString now). rewrite Hr, Hu. split; [reflexivity | exact Hnow].
    - exact (Hw d k1 r1 Hd Hin). }
  assert (Hkeep : forall ls', stamped P (with_storage w ls')).
  { intros ls' d k r Hd Hin. exact (Hw d k r Hd Hin). }
  destruct call as [a | id a | id |].
  - unfold addAnalysis. destruct (db w) as [d |] eqn:Hd.
    + destruct (store_add d _) as [e | e | key d'] eqn:Hs; cbn [snd].
      * exact Hw.
      * match goal with
        | |- context [addAnalysisToLocalStorage ?ls ?n ?x] =>
            destruct (addAnalysisToLocalStorage ls n x) as [res ls']
        end.
        cbn [snd]. apply Hkeep.
      * eapply Hput; [reflexivity | exact Hs |].
        unfold own; rewrite lookup_assign_same; reflexivity.
    + destruct (addAnalysisToLocalStorage (storage w) now a) as [res ls'].
      cbn [snd]. apply Hkeep.
  - unfold updateAnalysis. destruct (db w) as [d |] eqn:Hd; [| exact Hw].
    destruct (store_get d id) as [e | e | found d1]; cbn [snd]; try exact Hw.
    destruct (truthy found); [| exact Hw].
    match goal with
    | |- context [store_put d ?x] =>
        destruct (store_put d x) as [e | e | key d'] eqn:Hs
    end; cbn [snd]; try exact Hw.
    eapply Hput; [reflexivity | exact Hs |].
    unfold own; rewrite lookup_assign_same; reflexivity.
  - unfold deleteAnalysis. destruct (db w) as [d |] eqn:Hd; [| exact Hw].
    unfold store_delete.
    destruct (valid_key id); [| exact Hw].
    destruct (fault d); cbn [snd]; [exact Hw |].
    intros d1 k r Hd1 Hin. simpl in Hd1; injection Hd1 as Hd1; subst d1.
    cbn [rows] in Hin. unfold remove_row in Hin. apply filter_In in Hin.
    exact (Hw d k r Hd (proj1 Hin)).
  - unfold clearAllData. destruct (db w) as [d |] eqn:Hd; [| exact Hw].
    unfold store_clear. destruct (fault d); cbn [snd]; [exact Hw |].
    intros d1 k r Hd1 Hin. simpl in Hd1; injection Hd1 as Hd1; subst d1.
    contradiction Hin.
Qed.

Lemma history_stamped :
  forall (P : string -> Prop) (calls : list (Call * Instant)) (w : World),
    stamped P w ->
    Forall (fun c => P (toISOString (snd c))) calls ->
    stamped P (history w calls).
Proof.
  intros P calls; unfold history.
  induction calls as [| c calls IH]; intros w Hw Hc; [exact Hw |].
  inversion Hc as [| x l Hx Hl]; subst. simpl.
  apply IH; [apply perform_stamped; assumption | exact Hl].
Qed.

(** C4.  In the object store, updateAnalysis of a record that is there
    resolves with the merge of the patch onto it: every property the
    patch does not name keeps its value, every property it names takes
    the value of the patch, updatedAt is the clock reading of the call
    whatever the patch says, and the merged record is what is returned
    and what is stored: localStorage is not touched and getAnalysis of
    the id of the merged record returns it.  When the object store has
    been filled, from empty, by calls of the facade none of which read
    the clock later than this call does, the new updatedAt is not
    before the previous one.  For an id that is not there the call
    rejects with 'Analysis not found' and changes nothing. *)
Theorem updateAnalysis_merges_patch :
  forall (d : IDBDatabase) (ls : LocalStorage) (now : Instant)
         (id patch : value),
    fault d = None ->
    valid_key id = true ->
    let w := {| db := Some d; storage := ls |} in
    (forall analysis,
        find_row id (rows d) = Some analysis ->
        unique_names analysis = true ->
        unique_names (own_props patch) = true ->
        valid_key (merged_id analysis patch) = true ->
        exists merged w',
          updateAnalysis w now id patch = (Resolved (VObj merged), w') /\
          (forall k, k <> "updatedAt" -> names patch k = false ->
                     lookup k merged = lookup k analysis) /\
          (forall k v, k <> "updatedAt" ->
                       lookup k (own_props patch) = Some v ->
                       lookup k merged = Some v) /\
          own merged "updatedAt" = VStr (toISOString now) /\
          (forall d0 ls0 calls,
              rows d0 = [] ->
              history {| db := Some d0; storage := ls0 |} calls = w ->
              Forall (fun c => js_ge rt (VStr (toISOString now))
                                        (VStr (toISOString (snd c))) = true)
                     calls ->
              js_ge rt (own merged "updatedAt") (own analysis "updatedAt")
                = true) /\
          storage w' = ls /\
          (keyed (rows d) = true ->
           getAnalysis w' (merged_id analysis patch) = Resolved (VObj merged))) /\
    (find_row id (rows d) = None ->
     updateAnalysis w now id patch = (Rejected AnalysisNotFound, w)).
Proof.
  intros d ls now id patch Hf Hk w; split.
  - intros analysis Hrow Hu Hup Hid.
    set (merged := assign (spread (spread [] (VObj analysis)) patch)
                          "updatedAt" (VStr (toISOString now))).
    assert (Hmerge : forall k, k <> "updatedAt" ->
              lookup k merged = match lookup k (own_props patch) with
                                | Some v => Some v
                                | None => lookup k analysis
                                end).
    { intros k Hne; unfold merged.
      rewrite lookup_assign_other by congruence.
      unfold spread at 1. rewrite lookup_copy by exact Hup.
      destruct (lookup k (own_props patch)); [reflexivity |].
      unfold spread; simpl own_props. rewrite lookup_copy by exact Hu.
      destruct (lookup k analysis); reflexivity. }
    assert (Hstamp : own merged "updatedAt" = VStr (toISOString now)).
    { unfold own, merged; rewrite lookup_assign_same; reflexivity. }
    assert (Hmid : own merged "id" = merged_id analysis patch).
    { unfold own; rewrite Hmerge by discriminate.
      unfold merged_id, own.
      destruct (lookup "id" (own_props patch)); reflexivity. }
    assert (Hvalid : valid_key (own merged "id") = true)
      by (rewrite Hmid; exact Hid).
    destruct (store_put_accepts d merged Hf Hvalid) as [k [d' Hput]].
    destruct (store_write_rows _ _ _ _ _ Hput) as [Hf' [r [Hrows [_ Hsame]]]].
    assert (Hdefined : own merged "id" <> VUndefined).
    { intros E; rewrite E in Hvalid; discriminate Hvalid. }
    destruct (Hsame Hdefined) as [Hr Hkey]; subst r.
    exists merged, (with_db w d').
    split; [| split; [| split; [| split; [| split; [| split]]]]].
    + unfold updateAnalysis, store_get, w; simpl.
      rewrite Hk, Hf, Hrow; simpl. fold merged. rewrite Hput; reflexivity.
    + intros k0 Hne Hn; rewrite Hmerge by exact Hne.
      unfold names in Hn.
      destruct (lookup k0 (own_props patch)); [discriminate | reflexivity].
    + intros k0 v Hne Hin; rewrite Hmerge by exact Hne.
      rewrite Hin; reflexivity.
    + exact Hstamp.
    + intros d0 ls0 calls Hempty Hhist Hclock.
      assert (Hinv : stamped (fun s => js_ge rt (VStr (toISOString now)) (VStr s)
                                       = true) w).
      { rewrite <- Hhist. apply history_stamped; [| exact Hclock].
        intros d1 k1 r1 Hd1 Hin. simpl in Hd1; injection Hd1 as Hd1; subst d1.
        rewrite Hempty in Hin; contradiction Hin. }
      destruct (find_row_In _ _ _ Hrow) as [k' Hin].
      destruct (Hinv d k' analysis eq_refl Hin) as [s [Hs HP]].
      rewrite Hstamp, Hs; exact HP.
    + reflexivity.
    + intros Hkeyed. unfold getAnalysis, store_get; simpl.
      rewrite Hid, Hf', Hrows, Hkey, Hmid.
      rewrite find_row_insert_row by assumption. reflexivity.
  - intros Habs. unfold updateAnalysis, store_get, w; simpl.
    rewrite Hk, Hf, Habs; reflexivity.
Qed.

(** ** The unfiltered record set *)

Lemma filter_all :
  forall (A : Type) (p : A -> bool) (l : list A),
    (forall a, p a = true) -> filter p l = l.
Proof.
  intros A p l H; induction l as [| x l IH]; simpl; [reflexivity |].
  rewrite H, IH; reflexivity.
Qed.

Lemma forallb_perm :
  forall (A : Type) (p : A -> bool) (l l' : list A),
    Permutation l l' -> forallb p l = true -> forallb p l' = true.
Proof.
  intros A p l l' HP H. rewrite forallb_forall in *.
  intros x Hx; apply H. eapply Permutation_in; [apply Permutation_sym |]; eassumption.
Qed.

Lemma getAnalyses_unfiltered :
  forall (w : World) (recs : list value),
    stored_records w = Some recs ->
    forallb readable recs = true ->
    getAnalyses rt w [] =
      Resolved (fold_right (insert_by (newest_first rt)) [] recs).
Proof.
  intros w recs Hs Hr.
  rewrite (getAnalyses_spec w recs [] Hs Hr).
  rewrite filter_all by reflexivity; reflexivity.
Qed.

(** ** CSV export *)

Lemma csv_row_cells :
  forall a : value,
    exists cells,
      csv_row rt a = join "," cells /\
      List.length cells = 8%nat /\
      (missing (get a "species") = true -> nth 3 cells "?" = "") /\
      (missing (get a "confidence") = true -> nth 4 cells "?" = "") /\
      (missing (get_opt (get a "metadata") "greenCover") = true ->
       nth 5 cells "?" = "") /\
      (missing (get_opt (get a "metadata") "treeCount") = true ->
       nth 6 cells "?" = "").
Proof.
  intros a; unfold csv_row, array_join.
  eexists; split; [reflexivity |]; split; [reflexivity |].
  cbn [map nth].
  repeat split; intros H;
    match goal with
    | H : missing ?v = true |- _ => destruct v; try discriminate H; reflexivity
    end.
Qed.

(** C8 (as the code has it).  The CSV export starts with the header
    line ID,Date,Type,Species,Confidence,Green Cover,Tree Count,Created At
    and goes on with one line per record of the sorted set, in that
    order; each line is eight cells joined by commas, and the cell of a
    species, confidence, metadata.greenCover or metadata.treeCount that
    is missing is empty. *)
Theorem exportData_csv_layout :
  forall (w : World) (recs : list value),
    stored_records w = Some recs ->
    forallb readable recs = true ->
    exists analyses lines,
      getAnalyses rt w [] = Resolved analyses /\
      Permutation recs analyses /\
      exportData rt w (VStr "csv") =
        Resolved
          (CsvText
             (join newline
                ("ID,Date,Type,Species,Confidence,Green Cover,Tree Count,Created At"
                   :: lines))) /\
      Forall2
        (fun a line =>
           exists cells,
             line = join "," cells /\
             List.length cells = 8%nat /\
             (missing (get a "species") = true -> nth 3 cells "?" = "") /\
             (missing (get a "confidence") = true -> nth 4 cells "?" = "") /\
             (missing (get_opt (get a "metadata") "greenCover") = true ->
              nth 5 cells "?" = "") /\
             (missing (get_opt (get a "metadata") "treeCount") = true ->
              nth 6 cells "?" = ""))
        analyses lines.
Proof.
  intros w recs Hs Hr.
  pose proof (getAnalyses_unfiltered w recs Hs Hr) as Hg.
  set (l := fold_right (insert_by (newest_first rt)) [] recs) in *.
  assert (HP : Permutation recs l) by apply insertion_perm.
  exists l, (map (csv_row rt) l); split; [exact Hg |]; split; [exact HP |]; split.
  - unfold exportData; rewrite Hg; simpl.
    rewrite (forallb_perm _ _ _ _ HP Hr); reflexivity.
  - clear. induction l as [| a l IH]; simpl; constructor; [| exact IH].
    apply csv_row_cells.
Qed.

(** ** Analytics *)

Lemma by_date_resolves :
  forall (l : list value) (o : obj),
    forallb string_date l = true ->
    exists o',
      fold_left (fun acc a =>
                   o <- acc ;; date <- date_part a ;;
                   Resolved (bump rt o (VStr date)))
                l (Resolved o) = Resolved o'.
Proof.
  induction l as [| a l IH]; intros o H; simpl; [eauto |].
  simpl in H; apply andb_prop in H; destruct H as [Ha Hl].
  unfold date_part at 2. unfold string_date in Ha.
  destruct (get a "date"); try discriminate Ha. simpl.
  apply IH; exact Hl.
Qed.

Lemma getAnalytics_spec :
  forall (w : World) (recs : list value),
    stored_records w = Some recs ->
    forallb readable recs = true ->
    forallb string_date recs = true ->
    let analyses := fold_right (insert_by (newest_first rt)) [] recs in
    let scored :=
      filter (fun a => andb (negb (strict_eq (get a "confidence") VNull))
                            (negb (strict_eq (get a "confidence") VUndefined)))
             analyses in
    let speciesFreq :=
      fold_left (fun freq a => bump rt freq (get a "species"))
                (filter (fun a => truthy (get a "species")) analyses) [] in
    exists a,
      getAnalytics rt w = Resolved a /\
      averageConfidence a =
        (if Nat.ltb 0 (List.length scored) then
           js_div rt
             (fold_left (fun sum a => js_add rt sum (get a "confidence"))
                        scored (VNum 0))
             (VNum (inject_Z (Z.of_nat (List.length scored))))
         else VNum 0) /\
      mostCommonSpecies a =
        fold_left
          (fun a b =>
             if js_gt rt (own speciesFreq (ToString rt a)) (own speciesFreq b)
             then a else VStr b)
          (Object_keys speciesFreq) VNull.
Proof.
  intros w recs Hs Hr Hd analyses scored speciesFreq.
  assert (HP : Permutation recs analyses) by apply insertion_perm.
  unfold getAnalytics.
  rewrite (getAnalyses_unfiltered w recs Hs Hr); cbn [bind].
  fold analyses. rewrite (forallb_perm _ _ _ _ HP Hr).
  destruct (by_date_resolves analyses [] (forallb_perm _ _ _ _ HP Hd))
    as [byDate Hby].
  eexists; rewrite Hby; cbn [bind].
  split; [reflexivity |]; split; reflexivity.
Qed.

Lemma Qsum_perm :
  forall l l' : list Q, Permutation l l' -> Qsum l == Qsum l'.
Proof.
  intros l l' H; induction H; simpl.
  - reflexivity.
  - rewrite IHPermutation; reflexivity.
  - ring.
  - rewrite IHPermutation1; exact IHPermutation2.
Qed.

Lemma fold_left_Qplus :
  forall (l : list Q) (acc : Q), fold_left Qplus l acc == acc + Qsum l.
Proof.
  induction l as [| x l IH]; intros acc; simpl.
  - ring.
  - rewrite IH; ring.
Qed.

Lemma confidence_sum :
  forall (l : list value) (acc : Q),
    forallb numeric_confidence l = true ->
    let scored :=
      filter (fun a => andb (negb (strict_eq (get a "confidence") VNull))
                            (negb (strict_eq (get a "confidence") VUndefined)))
             l in
    fold_left (fun sum a => js_add rt sum (get a "confidence")) scored (VNum acc)
      = VNum (fold_left Qplus (confidences l) acc) /\
    List.length scored = List.length (confidences l).
Proof.
  induction l as [| a l IH]; intros acc H; [split; reflexivity |].
  simpl in H; apply andb_prop in H; destruct H as [Ha Hl].
  unfold numeric_confidence in Ha.
  unfold confidences; cbn [filter flat_map].
  destruct (get a "confidence") eqn:E; try discriminate Ha; cbn.
  - apply IH; exact Hl.
  - apply IH; exact Hl.
  - rewrite E. destruct (IH (acc + q) Hl) as [H1 H2]. split.
    + exact H1.
    + f_equal; exact H2.
Qed.

(** C10.  When no record carries a confidence other than null or
    undefined, the empty store included, averageConfidence is the
    number 0; otherwise it is the sum of the confidences that are
    present, zeros included, divided by how many there are. *)
Theorem getAnalytics_average_confidence :
  forall (w : World) (recs : list value),
    stored_records w = Some recs ->
    forallb readable recs = true ->
    forallb string_date recs = true ->
    forallb numeric_confidence recs = true ->
    exists a,
      getAnalytics rt w = Resolved a /\
      (confidences recs = [] -> averageConfidence a = VNum 0) /\
      (confidences recs <> [] ->
       exists q, averageConfidence a = VNum q /\
                 q == arithmetic_mean (confidences recs)).
Proof.
  intros w recs Hs Hr Hd Hc.
  destruct (getAnalytics_spec w recs Hs Hr Hd) as [a [Ha [Havg _]]].
  set (analyses := fold_right (insert_by (newest_first rt)) [] recs) in *.
  assert (HP : Permutation recs analyses) by apply insertion_perm.
  destruct (confidence_sum analyses 0 (forallb_perm _ _ _ _ HP Hc)) as [Hsum Hlen].
  assert (HPc : Permutation (confidences recs) (confidences analyses)).
  { unfold confidences; apply Permutation_flat_map; exact HP. }
  rewrite Hsum, Hlen in Havg.
  exists a; split; [exact Ha |]; split.
  - intros Hnil. rewrite Hnil in HPc. apply Permutation_nil in HPc.
    rewrite HPc in Havg; exact Havg.
  - intros Hne.
    assert (Hpos : (0 < List.length (confidences analyses))%nat).
    { destruct (confidences analyses) eqn:E; simpl; [| lia].
      apply Permutation_sym, Permutation_nil in HPc; contradiction. }
    apply Nat.ltb_lt in Hpos as Hb; rewrite Hb in Havg.
    unfold js_div in Havg; simpl in Havg.
    assert (Hnz : ~ inject_Z (Z.of_nat (List.length (confidences analyses))) == 0).
    { unfold Qeq; simpl. lia. }
    destruct (Qeq_bool (inject_Z (Z.of_nat (List.length (confidences analyses)))) 0)
      eqn:Ez; [apply Qeq_bool_eq in Ez; contradiction |].
    eexists; split; [exact Havg |].
    unfold arithmetic_mean.
    rewrite fold_left_Qplus, (Qsum_perm _ _ HPc), (Permutation_length HPc).
    field. exact Hnz.
Qed.

(** ** The most common species *)

Lemma leads_step :
  forall (c : string -> nat) (done : list string) (acc : value) (b : string),
    leads c done acc ->
    leads c (done ++ [b])
          (if Nat.ltb (c b) (c (ToString rt acc)) then acc else VStr b).
Proof.
  intros c done acc b [[Hacc Hall] | [s [before [after [Hacc [Hdone [Hb Ha]]]]]]];
    subst acc; simpl ToString.
  - destruct (Nat.ltb (c b) (c "null")) eqn:E.
    + apply Nat.ltb_lt in E. left; split; [reflexivity |].
      intros s Hs; apply in_app_or in Hs; destruct Hs as [Hs | [Hs | []]].
      * apply Hall; exact Hs.
      * subst s; exact E.
    + apply Nat.ltb_ge in E. right; exists b, done, [].
      split; [reflexivity |]; split; [reflexivity |]; split.
      * intros s' Hs'; specialize (Hall s' Hs'); lia.
      * intros s' [].
  - destruct (Nat.ltb (c b) (c s)) eqn:E.
    + apply Nat.ltb_lt in E. right; exists s, before, (after ++ [b]).
      split; [reflexivity |]; split; [| split].
      * subst done; rewrite <- app_assoc; reflexivity.
      * exact Hb.
      * intros s' Hs'; apply in_app_or in Hs'; destruct Hs' as [Hs' | [Hs' | []]].
        -- apply Ha; exact Hs'.
        -- subst s'; exact E.
    + apply Nat.ltb_ge in E. right; exists b, done, [].
      split; [reflexivity |]; split; [reflexivity |]; split.
      * intros s' Hs'; subst done.
        apply in_app_or in Hs'; destruct Hs' as [Hs' | [Hs' | Hs']].
        -- specialize (Hb s' Hs'); lia.
        -- subst s'; exact E.
        -- specialize (Ha s' Hs'); lia.
      * intros s' [].
Qed.

Lemma leads_fold :
  forall (c : string -> nat) (todo done : list string) (acc : value),
    leads c done acc ->
    leads c (done ++ todo)
          (fold_left (fun a b => if Nat.ltb (c b) (c (ToString rt a))
                                 then a else VStr b) todo acc).
Proof.
  intros c todo; induction todo as [| b todo IH]; intros done acc H; simpl.
  - rewrite app_nil_r; exact H.
  - replace (done ++ b :: todo) with ((done ++ [b]) ++ todo)
      by (rewrite <- app_assoc; reflexivity).
    apply IH, leads_step; exact H.
Qed.

Lemma fold_left_ext_in :
  forall (A B : Type) (f g : A -> B -> A) (l : list B) (a : A),
    (forall x b, In b l -> f x b = g x b) ->
    fold_left f l a = fold_left g l a.
Proof.
  intros A B f g l; induction l as [| b l IH]; intros a H; simpl; [reflexivity |].
  rewrite H by (left; reflexivity).
  apply IH; intros x b' Hb'; apply H; right; exact Hb'.
Qed.

Lemma existsb_eqb_In :
  forall (s : string) (l : list string),
    existsb (String.eqb s) l = true <-> In s l.
Proof.
  intros s l; rewrite existsb_exists; split.
  - intros [x [Hx E]]; apply String.eqb_eq in E; subst; exact Hx.
  - intros H; exists s; split; [exact H | apply String.eqb_refl].
Qed.

Lemma first_seen_In :
  forall (s : string) (l : list string), In s (first_seen l) <-> In s l.
Proof.
  intros s l; induction l as [| x l IH]; simpl; [tauto |].
  rewrite filter_In, IH. split.
  - intros [H | [H _]]; auto.
  - intros [H | H]; [left; exact H |].
    destruct (String.eqb s x) eqn:E.
    + apply String.eqb_eq in E; left; congruence.
    + right; split; [exact H | reflexivity].
Qed.

Lemma first_seen_snoc :
  forall (l : list string) (s : string),
    first_seen (l ++ [s]) =
    if existsb (String.eqb s) l then first_seen l else first_seen l ++ [s].
Proof.
  induction l as [| x l IH]; intros s; simpl; [reflexivity |].
  rewrite IH. destruct (String.eqb s x) eqn:E; simpl.
  - destruct (existsb (String.eqb s) l); [reflexivity |].
    rewrite filter_app; simpl. rewrite E; simpl.
    rewrite app_nil_r; reflexivity.
  - destruct (existsb (String.eqb s) l); [reflexivity |].
    rewrite filter_app; simpl. rewrite E; reflexivity.
Qed.

Lemma map_fst_assign :
  forall (o : obj) (k : string) (v : value),
    map fst (assign o k v) =
    if existsb (String.eqb k) (map fst o) then map fst o else map fst o ++ [k].
Proof.
  intros o k v; induction o as [| [k' v'] r IH]; simpl; [reflexivity |].
  rewrite (String.eqb_sym k k').
  destruct (String.eqb k' k) eqn:E; simpl.
  - apply String.eqb_eq in E; subst; reflexivity.
  - rewrite IH. destruct (existsb (String.eqb k) (map fst r)); reflexivity.
Qed.

Lemma occurrences_snoc :
  forall (s x : string) (l : list string),
    occurrences s (l ++ [x]) =
    (occurrences s l + (if String.eqb x s then 1 else 0))%nat.
Proof.
  intros s x l; unfold occurrences; rewrite count_occ_app; simpl.
  destruct (string_dec x s) as [E | E].
  - subst; rewrite String.eqb_refl; reflexivity.
  - apply String.eqb_neq in E; rewrite E; reflexivity.
Qed.

Lemma tallies_step :
  forall (o : obj) (seen : list string) (s : string),
    tallies o seen -> tallies (bump rt o (VStr s)) (seen ++ [s]).
Proof.
  intros o seen s [Hkeys Hcount]; unfold bump; simpl ToString; split.
  - rewrite map_fst_assign, first_seen_snoc, Hkeys.
    assert (E : existsb (String.eqb s) (first_seen seen) =
                existsb (String.eqb s) seen).
    { apply eq_true_iff_eq. rewrite !existsb_eqb_In. apply first_seen_In. }
    rewrite E; reflexivity.
  - intros s'. rewrite occurrences_snoc.
    destruct (String.eqb s s') eqn:E.
    + apply String.eqb_eq in E; subst s'.
      rewrite lookup_assign_same.
      specialize (Hcount s); unfold own.
      destruct (lookup s o) as [v |].
      * destruct Hcount as [q [Hv [Hq Hpos]]]; subst v.
        assert (Hnz : Qeq_bool q 0 = false).
        { destruct (Qeq_bool q 0) eqn:Ez; [| reflexivity].
          apply Qeq_bool_eq in Ez. rewrite Ez in Hq.
          unfold Qeq in Hq; simpl in Hq; lia. }
        unfold js_or; simpl truthy; rewrite Hnz; simpl.
        eexists; split; [reflexivity |]; split; [| lia].
        rewrite Hq, Nat2Z.inj_add, inject_Z_plus; reflexivity.
      * rewrite Hcount; simpl.
        eexists; split; [reflexivity |]; split; [reflexivity | lia].
    + apply String.eqb_neq in E.
      rewrite lookup_assign_other by exact E.
      rewrite Nat.add_0_r; apply Hcount.
Qed.

Lemma tallies_fold :
  forall (rest seen : list string) (o : obj),
    tallies o seen ->
    tallies (fold_left (fun o s => bump rt o (VStr s)) rest o) (seen ++ rest).
Proof.
  induction rest as [| s rest IH]; intros seen o H; simpl.
  - rewrite app_nil_r; exact H.
  - replace (seen ++ s :: rest) with ((seen ++ [s]) ++ rest)
      by (rewrite <- app_assoc; reflexivity).
    apply IH, tallies_step; exact H.
Qed.

Lemma species_fold :
  forall (l : list value) (o : obj),
    forallb plain_species l = true ->
    fold_left (fun freq a => bump rt freq (get a "species"))
              (filter (fun a => truthy (get a "species")) l) o =
    fold_left (fun o s => bump rt o (VStr s)) (species_names l) o.
Proof.
  induction l as [| a l IH]; intros o H; [reflexivity |].
  simpl in H; apply andb_prop in H; destruct H as [Ha Hl].
  unfold plain_species in Ha. unfold species_names; cbn [filter flat_map].
  destruct (get a "species") eqn:E; try discriminate Ha; cbn.
  - apply IH; exact Hl.
  - apply IH; exact Hl.
  - destruct (String.eqb s "") eqn:Es; cbn.
    + apply IH; exact Hl.
    + rewrite E; apply IH; exact Hl.
Qed.

Lemma species_names_plain :
  forall (l : list value) (s : string),
    forallb plain_species l = true ->
    In s (species_names l) -> is_index s = false.
Proof.
  induction l as [| a l IH]; intros s H Hin; [destruct Hin |].
  simpl in H; apply andb_prop in H; destruct H as [Ha Hl].
  unfold species_names in Hin; cbn [flat_map] in Hin.
  apply in_app_or in Hin; destruct Hin as [Hin | Hin]; [| exact (IH s Hl Hin)].
  unfold plain_species in Ha.
  destruct (get a "species") as [| | | | | s0 | |];
    simpl in Hin; try contradiction.
  destruct (String.eqb s0 ""); simpl in Hin; [contradiction |].
  destruct Hin as [Hin | []]; subst.
  apply andb_prop in Ha; destruct Ha as [Ha _].
  apply negb_true_iff; exact Ha.
Qed.

Lemma Object_keys_plain :
  forall o : obj,
    (forall k, In k (map fst o) -> is_index k = false) ->
    Object_keys o = map fst o.
Proof.
  intros o H; unfold Object_keys.
  induction (map fst o) as [| k ks IH]; [reflexivity |].
  cbn [filter]. rewrite (H k) by (left; reflexivity). cbn [negb].
  assert (Hks : forall k0, In k0 ks -> is_index k0 = false)
    by (intros k0 Hk0; apply H; right; exact Hk0).
  specialize (IH Hks).
  destruct (filter is_index ks) eqn:Ef.
  - simpl in *; rewrite IH; reflexivity.
  - exfalso. assert (Hin : In s (filter is_index ks)) by (rewrite Ef; left; reflexivity).
    apply filter_In in Hin; destruct Hin as [Hin Hs].
    rewrite (Hks s Hin) in Hs; discriminate.
Qed.

Lemma js_gt_tallies :
  forall (o : obj) (seen : list string) (x b : string),
    tallies o seen ->
    In b seen ->
    js_gt rt (own o x) (own o b) =
    Nat.ltb (occurrences b seen) (occurrences x seen).
Proof.
  intros o seen x b [_ Hcount] Hb.
  pose proof (Hcount b) as Hcb; pose proof (Hcount x) as Hcx.
  unfold own.
  destruct (lookup b o) as [vb |].
  2:{ unfold occurrences in Hcb.
      apply (count_occ_In string_dec) in Hb; lia. }
  destruct Hcb as [qb [Hvb [Hqb Hpb]]]; subst vb.
  destruct (lookup x o) as [vx |].
  - destruct Hcx as [qx [Hvx [Hqx Hpx]]]; subst vx.
    unfold js_gt, js_lt; simpl.
    destruct (Qcompare qb qx) eqn:E.
    + apply Qeq_alt in E. rewrite Hqb, Hqx in E.
      unfold Qeq in E; simpl in E. symmetry; apply Nat.ltb_ge; lia.
    + apply Qlt_alt in E. rewrite Hqb, Hqx in E.
      unfold Qlt in E; simpl in E. symmetry; apply Nat.ltb_lt; lia.
    + apply Qgt_alt in E. rewrite Hqb, Hqx in E.
      unfold Qlt in E; simpl in E. symmetry; apply Nat.ltb_ge; lia.
  - rewrite Hcx. unfold js_gt, js_lt; simpl.
    symmetry; apply Nat.ltb_ge; lia.
Qed.

(** C5 (as the code has it).  mostCommonSpecies is null when no record
    names a species; otherwise it is a species of highest frequency,
    and among species of equal frequency it is the one met last: every
    species first met before it is at most as frequent, every species
    first met after it is strictly less frequent. *)
Theorem getAnalytics_most_common_species :
  forall (w : World) (recs : list value),
    stored_records w = Some recs ->
    forallb readable recs = true ->
    forallb string_date recs = true ->
    forallb plain_species recs = true ->
    exists a analyses,
      getAnalytics rt w = Resolved a /\
      getAnalyses rt w [] = Resolved analyses /\
      (species_names analyses = [] -> mostCommonSpecies a = VNull) /\
      (species_names analyses <> [] ->
       exists s before after,
         mostCommonSpecies a = VStr s /\
         first_seen (species_names analyses) = before ++ s :: after /\
         (forall s', In s' before ->
            (occurrences s' (species_names analyses)
             <= occurrences s (species_names analyses))%nat) /\
         (forall s', In s' after ->
            (occurrences s' (species_names analyses)
             < occurrences s (species_names analyses))%nat)).
Proof.
  intros w recs Hs Hr Hd Hp.
  destruct (getAnalytics_spec w recs Hs Hr Hd) as [a [Ha [_ Hmost]]].
  pose proof (getAnalyses_unfiltered w recs Hs Hr) as Hg.
  set (analyses := fold_right (insert_by (newest_first rt)) [] recs) in *.
  assert (HP : Permutation recs analyses) by apply insertion_perm.
  pose proof (forallb_perm _ _ _ _ HP Hp) as Hpa.
  set (seen := species_names analyses).
  rewrite species_fold in Hmost by exact Hpa. fold seen in Hmost.
  assert (Ht : tallies (fold_left (fun o s => bump rt o (VStr s)) seen []) seen).
  { apply (tallies_fold seen [] []). split; [reflexivity |]. intros s; reflexivity. }
  set (freq := fold_left (fun o s => bump rt o (VStr s)) seen []) in *.
  assert (Hkeys : Object_keys freq = first_seen seen).
  { rewrite Object_keys_plain; [exact (proj1 Ht) |].
    intros k Hk. rewrite (proj1 Ht) in Hk.
    apply (proj1 (first_seen_In _ _)) in Hk.
    exact (species_names_plain analyses k Hpa Hk). }
  rewrite Hkeys in Hmost.
  rewrite (fold_left_ext_in _ _ _
             (fun a b => if Nat.ltb (occurrences b seen)
                                    (occurrences (ToString rt a) seen)
                         then a else VStr b)) in Hmost.
  2:{ intros x b Hb. apply (proj1 (first_seen_In _ _)) in Hb.
      rewrite (js_gt_tallies freq seen _ b Ht Hb); reflexivity. }
  exists a, analyses; fold seen.
  split; [exact Ha |]; split; [exact Hg |]; split.
  - intros Hnil. rewrite Hmost, Hnil; reflexivity.
  - intros Hne.
    pose proof (leads_fold (fun s => occurrences s seen) (first_seen seen) [] VNull)
      as Hl.
    simpl in Hl. rewrite <- Hmost in Hl.
    destruct Hl as [[Hnull Hall] | Hl].
    + left; split; [reflexivity | intros s []].
    + exfalso. destruct seen as [| k seen'] eqn:Eseen; [apply Hne; reflexivity |].
      rewrite <- Eseen in *.
      assert (Hk : In k (first_seen seen))
        by (apply first_seen_In; rewrite Eseen; left; reflexivity).
      pose proof (Hall k Hk) as Hlt.
      assert (Hn : In "null" (first_seen seen)).
      { apply first_seen_In. apply (count_occ_In string_dec).
        unfold occurrences in Hlt; lia. }
      specialize (Hall "null" Hn); lia.
    + exact Hl.
Qed.

End Properties.

(** * Instances on the sample data *)

(** Counterexample to C2 as stated: a lookup that follows a delete resolves, with undefined. *)
Lemma getAnalysis_after_delete_counterexample :
  fst (deleteAnalysis primary_world path_id) = Resolved (VBool true) /\
  getAnalysis (snd (deleteAnalysis primary_world path_id)) path_id
    = Resolved VUndefined /\
  ~ (exists e,
        getAnalysis (snd (deleteAnalysis primary_world path_id)) path_id
          = Rejected e).
Proof.
  split; [reflexivity |]; split; [reflexivity |].
  intros [e He]; vm_compute in He; discriminate He.
Qed.

Lemma getAnalysis_absent_witness :
  fault primary_db = None /\
  valid_key path_id = true /\
  (find_row path_id (rows primary_db) = None ->
   getAnalysis primary_world path_id = Resolved VUndefined) /\
  (exists w',
      deleteAnalysis primary_world path_id = (Resolved (VBool true), w') /\
      getAnalysis w' path_id = Resolved VUndefined).
Proof.
  split; [reflexivity |]; split; [reflexivity |].
  apply (getAnalysis_absent_resolves_undefined primary_db (storage_of Missing)
           path_id); reflexivity.
Defined.

(** Counterexample to C3 as stated: an empty type entry is supplied, no record has that type, and
    every record is returned. *)
Lemma applyFilters_empty_type_counterexample :
  present empty_type_filter "type" = true /\
  filter (passes_supplied sample_runtime empty_type_filter) sampleData = [] /\
  applyFilters sample_runtime (VArr sampleData) empty_type_filter
    = Resolved sampleData /\
  applyFilters sample_runtime (VArr sampleData) empty_type_filter
    <> Resolved (filter (passes_supplied sample_runtime empty_type_filter)
                        sampleData).
Proof.
  split; [reflexivity |]; split; [vm_compute; reflexivity |].
  split; [vm_compute; reflexivity |].
  intros H; vm_compute in H; discriminate H.
Qed.

Lemma applyFilters_witness :
  forallb readable sampleData = true /\
  applyFilters sample_runtime (VArr sampleData) species_filter
    = Resolved (filter (passes sample_runtime species_filter) sampleData) /\
  (forall a, In a (filter (passes sample_runtime species_filter) sampleData) <->
             In a sampleData /\ passes sample_runtime species_filter a = true) /\
  (forall x y,
      js_ge sample_runtime (VStr x) (VStr y) = negb (String.ltb x y) /\
      js_le sample_runtime (VStr x) (VStr y) = negb (String.ltb y x)).
Proof.
  split; [reflexivity |].
  apply (applyFilters_keeps_records_passing_truthy_predicates sample_runtime
           sampleData species_filter); reflexivity.
Defined.

Lemma updateAnalysis_witness :
  fault visited_db = None /\
  valid_key (VNum 1) = true /\
  history {| db := Some fresh_db; storage := storage_of Missing |} first_calls
    = {| db := Some visited_db; storage := storage_of Missing |} /\
  Forall (fun c => js_ge sample_runtime (VStr (toISOString later_instant))
                         (VStr (toISOString (snd c))) = true)
         first_calls /\
  exists merged w',
    updateAnalysis {| db := Some visited_db; storage := storage_of Missing |}
                   later_instant (VNum 1) confidence_patch
      = (Resolved (VObj merged), w') /\
    lookup "species" merged = Some (VStr "Birch") /\
    lookup "confidence" merged = Some (VNum 0.5) /\
    own merged "updatedAt" = VStr "2025-01-16T00:00:00.000Z" /\
    js_ge sample_runtime (own merged "updatedAt")
          (VStr "2025-01-15T00:00:00.000Z") = true /\
    storage w' = storage_of Missing /\
    getAnalysis w' (VNum 1) = Resolved (VObj merged).
Proof.
  assert (Hh : history {| db := Some fresh_db; storage := storage_of Missing |}
                       first_calls
               = {| db := Some visited_db; storage := storage_of Missing |})
    by reflexivity.
  assert (Hc : Forall (fun c => js_ge sample_runtime
                                      (VStr (toISOString later_instant))
                                      (VStr (toISOString (snd c))) = true)
                      first_calls)
    by (repeat (constructor; [reflexivity |]); constructor).
  do 2 (split; [reflexivity |]). split; [exact Hh |]. split; [exact Hc |].
  destruct (updateAnalysis_merges_patch sample_runtime visited_db
              (storage_of Missing) later_instant (VNum 1) confidence_patch
              eq_refl eq_refl) as [Hfound _].
  destruct (Hfound visited_record eq_refl eq_refl eq_refl eq_refl)
    as [merged [w' [Hres [Hframe [Hpatch [Hstamp [Hhist [Hst Hread]]]]]]]].
  exists merged, w'.
  split; [exact Hres |].
  split; [rewrite Hframe; [reflexivity | discriminate | reflexivity] |].
  split; [apply Hpatch; [discriminate | reflexivity] |].
  split; [exact Hstamp |].
  split; [exact (Hhist fresh_db (storage_of Missing) first_calls eq_refl Hh Hc) |].
  split; [exact Hst | exact (Hread eq_refl)].
Defined.

(** Counterexample to C5 as stated: Oak and Pine occur once each, Oak is met first, and the
    analytics name Pine. *)
Lemma most_common_species_tie_counterexample :
  getAnalyses sample_runtime fallback_world [] = Resolved sampleData /\
  first_seen (species_names sampleData) = ["Oak"; "Pine"] /\
  occurrences "Oak" (species_names sampleData)
    = occurrences "Pine" (species_names sampleData) /\
  exists a,
    getAnalytics sample_runtime fallback_world = Resolved a /\
    mostCommonSpecies a = VStr "Pine" /\
    mostCommonSpecies a <> VStr "Oak".
Proof.
  split; [vm_compute; reflexivity |].
  split; [reflexivity |]; split; [reflexivity |].
  eexists; split; [vm_compute; reflexivity |].
  split; [reflexivity | discriminate].
Qed.

Lemma most_common_species_witness :
  stored_records fallback_world = Some sampleData /\
  forallb readable sampleData = true /\
  forallb string_date sampleData = true /\
  forallb plain_species sampleData = true /\
  exists a analyses,
    getAnalytics sample_runtime fallback_world = Resolved a /\
    getAnalyses sample_runtime fallback_world [] = Resolved analyses /\
    (species_names analyses = [] -> mostCommonSpecies a = VNull) /\
    (species_names analyses <> [] ->
     exists s before after,
       mostCommonSpecies a = VStr s /\
       first_seen (species_names analyses) = before ++ s :: after /\
       (forall s', In s' before ->
          (occurrences s' (species_names analyses)
           <= occurrences s (species_names analyses))%nat) /\
       (forall s', In s' after ->
          (occurrences s' (species_names analyses)
           < occurrences s (species_names analyses))%nat)).
Proof.
  split; [reflexivity |]; split; [reflexivity |].
  split; [reflexivity |]; split; [reflexivity |].
  apply (getAnalytics_most_common_species sample_runtime fallback_world
           sampleData); reflexivity.
Defined.

Lemma getAnalyses_order_witness :
  stored_records shuffled_world = Some shuffled_records /\
  Forall (has_date sample_runtime) shuffled_records /\
  filter (passes sample_runtime type_filter) shuffled_records
    = [VObj older_pine; VObj newer_oak; VObj newer_birch; VObj middle_elm] /\
  exists l,
    getAnalyses sample_runtime shuffled_world type_filter = Resolved l /\
    l = [VObj newer_oak; VObj newer_birch; VObj middle_elm; VObj older_pine] /\
    Permutation l (filter (passes sample_runtime type_filter) shuffled_records) /\
    StronglySorted (not_older sample_runtime) l /\
    (forall t, filter (dated sample_runtime t) l =
               filter (dated sample_runtime t)
                      (filter (passes sample_runtime type_filter)
                              shuffled_records)).
Proof.
  assert (Hd : Forall (has_date sample_runtime) shuffled_records).
  { repeat constructor; vm_compute; discriminate. }
  split; [reflexivity |]; split; [exact Hd |]. split; [reflexivity |].
  destruct (getAnalyses_newest_first_and_stable sample_runtime shuffled_world
              shuffled_records type_filter eq_refl Hd)
    as [l [Hg [Hperm [Hsorted Hstable]]]].
  exists l. split; [exact Hg |].
  split; [| split; [exact Hperm | split; [exact Hsorted | exact Hstable]]].
  pose proof Hg as Hc. vm_compute in Hc.
  injection Hc as Hc. rewrite <- Hc. reflexivity.
Defined.

Lemma importData_witness :
  ((VStr "json" = VStr "json" /\
    JSON_parse sample_payload = Resolved (VArr sampleData)) \/
   (VStr "json" = VStr "csv" /\ parse_csv (text sample_payload) = sampleData)) /\
  rejected_creates garbled_world (fun _ => sample_instant) 0 sampleData = 3%nat /\
  importData garbled_world (fun _ => sample_instant) sample_payload (VStr "json")
    = (Resolved (VNum (inject_Z (Z.of_nat (List.length sampleData)))),
       create_each garbled_world (fun _ => sample_instant) 0 sampleData).
Proof.
  assert (H : (VStr "json" = VStr "json" /\
               JSON_parse sample_payload = Resolved (VArr sampleData)) \/
              (VStr "json" = VStr "csv" /\
               parse_csv (text sample_payload) = sampleData))
    by (left; split; reflexivity).
  split; [exact H |]; split; [reflexivity |].
  apply (importData_returns_parsed_count garbled_world (fun _ => sample_instant)
           sample_payload (VStr "json") sampleData H).
Defined.

(** Counterexample to C8 as stated: the header line of the export is not the one without spaces. *)
Lemma exportData_header_counterexample :
  exists csv,
    exportData sample_runtime fallback_world (VStr "csv") = Resolved (CsvText csv) /\
    hd "" (split LF csv)
      = "ID,Date,Type,Species,Confidence,Green Cover,Tree Count,Created At" /\
    hd "" (split LF csv) <> csv_header_of_the_spec.
Proof.
  eexists; split; [vm_compute; reflexivity |].
  split; [vm_compute; reflexivity |].
  vm_compute; discriminate.
Qed.

Lemma exportData_witness :
  stored_records fallback_world = Some sampleData /\
  forallb readable sampleData = true /\
  exists analyses lines,
    getAnalyses sample_runtime fallback_world [] = Resolved analyses /\
    Permutation sampleData analyses /\
    exportData sample_runtime fallback_world (VStr "csv") =
      Resolved
        (CsvText
           (join newline
              ("ID,Date,Type,Species,Confidence,Green Cover,Tree Count,Created At"
                 :: lines))) /\
    Forall2
      (fun a line =>
         exists cells,
           line = join "," cells /\
           List.length cells = 8%nat /\
           (missing (get a "species") = true -> nth 3 cells "?" = "") /\
           (missing (get a "confidence") = true -> nth 4 cells "?" = "") /\
           (missing (get_opt (get a "metadata") "greenCover") = true ->
            nth 5 cells "?" = "") /\
           (missing (get_opt (get a "metadata") "treeCount") = true ->
            nth 6 cells "?" = ""))
      analyses lines.
Proof.
  split; [reflexivity |]; split; [reflexivity |].
  apply (exportData_csv_layout sample_runtime fallback_world sampleData);
    reflexivity.
Defined.

(** Counterexample to C9 as stated: a read of a payload that does not parse returns the empty
    array instead of raising. *)
Lemma garbled_read_counterexample :
  item (storage garbled_world) = Garbled /\
  getAnalysesFromLocalStorage sample_runtime (storage garbled_world) [] = [] /\
  getAnalyses sample_runtime garbled_world [] = Resolved [] /\
  ~ (exists e, getAnalyses sample_runtime garbled_world [] = Rejected e).
Proof.
  split; [reflexivity |]; split; [reflexivity |]; split; [reflexivity |].
  intros [e He]; vm_compute in He; discriminate He.
Qed.

Lemma unusable_fallback_store_witness :
  (accessible (storage_of Garbled) = false \/
   (accessible (storage_of Garbled) = true /\ item (storage_of Garbled) = Garbled)) /\
  (exists e,
      addAnalysisToLocalStorage (storage_of Garbled) sample_instant (VObj sample_oak)
        = (Rejected e, storage_of Garbled) /\
      addAnalysis garbled_world sample_instant (VObj sample_oak)
        = (Rejected e, garbled_world)) /\
  getAnalysesFromLocalStorage sample_runtime (storage_of Garbled) species_filter = [] /\
  getAnalyses sample_runtime garbled_world species_filter = Resolved [].
Proof.
  assert (H : accessible (storage_of Garbled) = false \/
              (accessible (storage_of Garbled) = true /\
               item (storage_of Garbled) = Garbled))
    by (right; split; reflexivity).
  split; [exact H |].
  apply (unusable_fallback_store_write_raises_read_is_empty sample_runtime
           (storage_of Garbled) sample_instant (VObj sample_oak) species_filter H).
Defined.

Lemma average_confidence_witness :
  stored_records fallback_world = Some sampleData /\
  forallb readable sampleData = true /\
  forallb string_date sampleData = true /\
  forallb numeric_confidence sampleData = true /\
  exists a,
    getAnalytics sample_runtime fallback_world = Resolved a /\
    (confidences sampleData = [] -> averageConfidence a = VNum 0) /\
    (confidences sampleData <> [] ->
     exists q, averageConfidence a = VNum q /\
               q == arithmetic_mean (confidences sampleData)).
Proof.
  split; [reflexivity |]; split; [reflexivity |].
  split; [reflexivity |]; split; [reflexivity |].
  apply (getAnalytics_average_confidence sample_runtime fallback_world
           sampleData); reflexivity.
Defined.

(** * Further properties *)

Section Further.

Variable rt : Runtime.

(** ** Page load *)

(** X1.  When init() rejects, the page-load handler sets isSupported to
    false and the handle to null.  The handle stays null when IndexedDB
    is missing or the open request fails; when the schema step threw,
    the open request still succeeds afterwards and its success event
    puts the connection back, so the facade ends with a handle although
    isSupported is false.  In every case the three sample records are
    written only into a localStorage that is usable and has no item
    yet, and any other localStorage, a garbled one included, is left as
    it was found. *)
Theorem page_load_after_a_failed_init :
  forall (platform : Opening) (ls : LocalStorage) (now : Instant)
         (why : InitError),
    fst (init (new_EcoViewDatabase platform ls) platform) = InitRejected why ->
    let f := onDOMContentLoaded (new_EcoViewDatabase platform ls) platform now in
    isSupported f = false /\
    db (world f) = match platform with
                   | UpgradeThrows _ d => Some d
                   | _ => None
                   end /\
    (accessible ls = true /\ has_room ls = true /\ item ls = Missing ->
     fallback_records (storage (world f)) = Some (sampleData_at now)) /\
    (accessible ls = false \/ has_room ls = false \/ item ls <> Missing ->
     storage (world f) = ls).
Proof.
  intros platform ls now why H f; subst f.
  destruct ls as [acc room it].
  destruct platform; simpl in H; try discriminate H;
    unfold onDOMContentLoaded, late_success, getItem, setItem; simpl;
    destruct acc, room, it; simpl;
    (split; [reflexivity |]; split; [reflexivity |]; split;
     [ intros [H1 [H2 H3]]; try discriminate; reflexivity
     | intros [H1 | [H1 | H1]]; try discriminate; try reflexivity;
       exfalso; apply H1; reflexivity ]).
Qed.

(** ** Statistics *)

Lemma rows_readable :
  forall l : list (value * obj),
    forallb readable (map (fun kr => VObj (snd kr)) l) = true.
Proof.
  induction l as [| x l IH]; simpl; auto.
Qed.

(** X2.  With the handle present and the engine answering, getStats
    counts as many records as an unfiltered getAnalyses returns, and
    reports a database size of 0 whatever the platform estimates. *)
Theorem getStats_counts_rows_and_reports_size_zero :
  forall (d : IDBDatabase) (ls : LocalStorage) (now : Instant)
         (estimate : option value),
    fault d = None ->
    let w := {| db := Some d; storage := ls |} in
    exists st l,
      getStats w now estimate = Resolved st /\
      getAnalyses rt w [] = Resolved l /\
      totalRecords st = List.length l /\
      databaseSize st = VNum 0.
Proof.
  intros d ls now estimate Hf w.
  assert (Hs : stored_records w = Some (map (fun kr => VObj (snd kr)) (rows d))).
  { unfold stored_records, w; simpl; rewrite Hf; reflexivity. }
  pose proof (getAnalyses_unfiltered rt w _ Hs (rows_readable (rows d))) as Hg.
  eexists; eexists; split; [| split; [exact Hg | split]].
  - unfold getStats, store_count, w; simpl; rewrite Hf; reflexivity.
  - simpl. rewrite <- (Permutation_length (insertion_perm _ _)).
    rewrite length_map; reflexivity.
  - simpl; destruct estimate; reflexivity.
Qed.

(** ** Creating records *)

Lemma world_eta :
  forall w : World, {| db := db w; storage := storage w |} = w.
Proof.
  intros [d ls]; reflexivity.
Qed.

Lemma stamped_lookup_id :
  forall (seed : obj) (a : value) (c u : value),
    lookup "id" (own_props a) = None ->
    lookup "id" (assign (assign (spread seed a) "createdAt" c) "updatedAt" u)
      = lookup "id" seed.
Proof.
  intros seed a c u H.
  rewrite !lookup_assign_other by discriminate.
  unfold spread; rewrite lookup_unnamed by exact H; reflexivity.
Qed.

Lemma stamped_id :
  forall (seed : obj) (a : value) (c u : value),
    lookup "id" (own_props a) = None ->
    own (assign (assign (spread seed a) "createdAt" c) "updatedAt" u) "id"
      = own seed "id".
Proof.
  intros seed a c u H; unfold own.
  rewrite (stamped_lookup_id seed a c u H); reflexivity.
Qed.

(** X4.  No record built by the logger carries an id, and its
    confidence and species are either null or truthy: a confidence of 0
    or an empty species name reported by the caller is logged as
    null. *)
Theorem logged_records_turn_falsy_values_into_null :
  forall (now : Instant) (type data : value) (o : obj),
    In o (log_records now type data) ->
    lookup "id" o = None /\
    own o "date" = VStr (AnalysisLogger.today now) /\
    (own o "confidence" = VNull \/ truthy (own o "confidence") = true) /\
    (own o "species" = VNull \/ truthy (own o "species") = true).
Proof.
  intros now type data o Ho; simpl in Ho.
  destruct Ho as [Ho | [Ho | [Ho | [Ho | [Ho | []]]]]]; subst o;
    (split; [reflexivity |]); (split; [reflexivity |]);
    unfold own; simpl; unfold js_or;
    split;
    try (left; reflexivity);
    match goal with
    | |- context [truthy ?v] =>
        destruct (truthy v) eqn:E; [right; exact E | left; reflexivity]
    end.
Qed.

(** ** Round trips through the two stores *)

Lemma jsonify_obj :
  forall o : obj, jsonify (VObj o) = VObj (json_props o).
Proof.
  intros o; reflexivity.
Qed.

Lemma lookup_json_props :
  forall (o : obj) (k : string),
    unique_names o = true ->
    lookup k (json_props o) =
    match lookup k o with
    | Some VUndefined => None
    | Some v => Some (jsonify v)
    | None => None
    end.
Proof.
  induction o as [| [k0 v0] r IH]; intros k Hu; [reflexivity |].
  pose proof (unique_names_head _ _ _ Hu) as Hk0.
  assert (Hr : unique_names r = true)
    by (simpl in Hu; apply andb_prop in Hu; tauto).
  specialize (IH k Hr).
  destruct (String.eqb k0 k) eqn:E.
  - apply String.eqb_eq in E; subst k0.
    rewrite Hk0 in IH.
    cbn [lookup]; rewrite String.eqb_refl.
    destruct v0; cbn [json_props lookup]; rewrite ?String.eqb_refl;
      try reflexivity; exact IH.
  - cbn [lookup]; rewrite E.
    destruct v0; cbn [json_props lookup]; rewrite ?E; exact IH.
Qed.

Lemma keys_assign_mem :
  forall (o : obj) (k x : string) (v : value),
    existsb (String.eqb x) (map fst (assign o k v)) =
    orb (existsb (String.eqb x) (map fst o)) (String.eqb x k).
Proof.
  intros o k x v; rewrite map_fst_assign.
  destruct (existsb (String.eqb k) (map fst o)) eqn:E.
  - destruct (String.eqb x k) eqn:Ex; [| rewrite orb_false_r; reflexivity].
    apply String.eqb_eq in Ex; subst x; rewrite E; reflexivity.
  - rewrite existsb_app; simpl; rewrite orb_false_r; reflexivity.
Qed.

Lemma unique_names_assign :
  forall (o : obj) (k : string) (v : value),
    unique_names o = true -> unique_names (assign o k v) = true.
Proof.
  induction o as [| [k0 v0] r IH]; intros k v Hu; [reflexivity |].
  simpl in Hu; apply andb_prop in Hu; destruct Hu as [Hh Hr].
  simpl. destruct (String.eqb k0 k) eqn:E.
  - apply String.eqb_eq in E; subst k0. simpl; rewrite Hh, Hr; reflexivity.
  - simpl. rewrite keys_assign_mem, E, orb_false_r, Hh.
    rewrite IH by exact Hr; reflexivity.
Qed.

Lemma unique_names_spread :
  forall (props dst : obj),
    unique_names dst = true ->
    unique_names (fold_left (fun o kv => assign o (fst kv) (snd kv)) props dst)
      = true.
Proof.
  induction props as [| [k v] r IH]; intros dst H; simpl; [exact H |].
  apply IH, unique_names_assign; exact H.
Qed.

Lemma fallback_record_spec :
  forall (now : Instant) (a : value),
    unique_names (own_props a) = true ->
    unique_names (fallback_record now a) = true /\
    lookup "createdAt" (fallback_record now a) = Some (VStr (toISOString now)) /\
    lookup "updatedAt" (fallback_record now a) = Some (VStr (toISOString now)) /\
    (forall k, k <> "createdAt" -> k <> "updatedAt" ->
       lookup k (fallback_record now a) =
       match lookup k (own_props a) with
       | Some v => Some v
       | None => lookup k [("id", VNum (inject_Z (Date_now now)))]
       end).
Proof.
  intros now a Hu; unfold fallback_record; split; [| split; [| split]].
  - do 2 apply unique_names_assign. apply unique_names_spread; reflexivity.
  - rewrite lookup_assign_other by discriminate. apply lookup_assign_same.
  - apply lookup_assign_same.
  - intros k H1 H2. rewrite !lookup_assign_other by congruence.
    unfold spread; apply lookup_copy; exact Hu.
Qed.

Lemma fallback_create_appends :
  forall (ls : LocalStorage) (old : list value) (now : Instant) (a : value),
    usable ls old ->
    exists ls',
      addAnalysisToLocalStorage ls now a
        = (Resolved (own (fallback_record now a) "id"), ls') /\
      usable ls' (map jsonify old ++ [VObj (json_props (fallback_record now a))]).
Proof.
  intros ls old now a [Ha [Hroom Hrec]].
  unfold fallback_records in Hrec; rewrite Ha in Hrec.
  unfold addAnalysisToLocalStorage, getItem, setItem; rewrite Ha, Hroom.
  fold (fallback_record now a).
  destruct (item ls) as [| | doc]; try discriminate Hrec.
  - injection Hrec as Hrec; subst old. simpl.
    eexists; split; [reflexivity |].
    unfold usable, fallback_records; simpl.
    rewrite <- jsonify_obj; repeat split; reflexivity.
  - destruct doc; try discriminate Hrec. injection Hrec as Hrec; subst old.
    cbn [parse_stored bind].
    eexists; split; [reflexivity |].
    unfold usable, fallback_records; cbn.
    rewrite map_app; cbn [map]. rewrite <- jsonify_obj.
    repeat split; reflexivity.
Qed.

Lemma jsonify_objects_readable :
  forall l : list value,
    forallb is_object l = true -> forallb readable (map jsonify l) = true.
Proof.
  induction l as [| x l IH]; intros H; [reflexivity |].
  simpl in H; apply andb_prop in H; destruct H as [Hx Hl].
  cbn [map forallb]. rewrite (IH Hl).
  destruct x; try discriminate Hx. rewrite jsonify_obj; reflexivity.
Qed.

(** X5.  In fallback mode, on a usable localStorage holding an array of
    objects, addAnalysis of an object without id resolves with
    Date.now() and an unfiltered getAnalyses then returns one record
    more, among them a record with that id, the two stamps of the call
    and every other defined property of the data as JSON keeps it. *)
Theorem fallback_create_can_be_read_back :
  forall (ls : LocalStorage) (old : list value) (now : Instant) (o : obj),
    usable ls old ->
    forallb is_object old = true ->
    unique_names o = true ->
    lookup "id" o = None ->
    let w := {| db := None; storage := ls |} in
    exists w' l rec,
      addAnalysis w now (VObj o)
        = (Resolved (VNum (inject_Z (Date_now now))), w') /\
      getAnalyses rt w' [] = Resolved l /\
      List.length l = S (List.length old) /\
      In rec l /\
      get rec "id" = VNum (inject_Z (Date_now now)) /\
      get rec "createdAt" = VStr (toISOString now) /\
      get rec "updatedAt" = VStr (toISOString now) /\
      (forall k v, k <> "createdAt" -> k <> "updatedAt" ->
                   lookup k o = Some v -> v <> VUndefined ->
                   get rec k = jsonify v).
Proof.
  intros ls old now o Hus Hobj Hu Hid w.
  destruct (fallback_create_appends ls old now (VObj o) Hus) as [ls' [Hadd Hus']].
  destruct (fallback_record_spec now (VObj o) Hu) as [HuA [Hc [Hup Hother]]].
  set (A := fallback_record now (VObj o)) in *.
  assert (HidA : lookup "id" A = Some (VNum (inject_Z (Date_now now)))).
  { rewrite Hother by discriminate. simpl own_props; rewrite Hid; reflexivity. }
  set (recs := map jsonify old ++ [VObj (json_props A)]) in *.
  assert (Hread : forallb readable recs = true).
  { unfold recs; rewrite forallb_app, jsonify_objects_readable by exact Hobj.
    reflexivity. }
  set (w' := {| db := None; storage := ls' |}).
  assert (Hs : stored_records w' = Some recs) by (apply Hus').
  pose proof (getAnalyses_unfiltered rt w' recs Hs Hread) as Hg.
  assert (HP : Permutation recs (fold_right (insert_by (newest_first rt)) [] recs))
    by apply insertion_perm.
  exists w', (fold_right (insert_by (newest_first rt)) [] recs),
         (VObj (json_props A)).
  split; [| split; [exact Hg | split; [| split; [| split; [| split; [| split]]]]]].
  - unfold addAnalysis, w; simpl. rewrite Hadd.
    unfold own; rewrite HidA; reflexivity.
  - rewrite <- (Permutation_length HP). unfold recs.
    rewrite length_app, length_map; simpl; lia.
  - eapply Permutation_in; [exact HP |].
    unfold recs; apply in_or_app; right; left; reflexivity.
  - simpl; unfold own. rewrite lookup_json_props, HidA by exact HuA; reflexivity.
  - simpl; unfold own. rewrite lookup_json_props, Hc by exact HuA; reflexivity.
  - simpl; unfold own. rewrite lookup_json_props, Hup by exact HuA; reflexivity.
  - intros k v H1 H2 Hk Hv. simpl; unfold own.
    rewrite lookup_json_props by exact HuA.
    rewrite Hother by assumption. simpl own_props; rewrite Hk.
    destruct v; try reflexivity. contradiction.
Qed.

Lemma lookup_in_keys :
  forall (o : obj) (k : string),
    existsb (String.eqb k) (map fst o) = true -> lookup k o <> None.
Proof.
  induction o as [| [k1 v1] t IH]; intros k H; [discriminate H |].
  simpl in *. rewrite (String.eqb_sym k k1) in H.
  destruct (String.eqb k1 k); [discriminate | apply IH; exact H].
Qed.

Lemma unique_names_json_props :
  forall o : obj, unique_names o = true -> unique_names (json_props o) = true.
Proof.
  induction o as [| [k v] r IH]; intros Hu; [reflexivity |].
  pose proof (unique_names_head _ _ _ Hu) as Hk.
  simpl in Hu; apply andb_prop in Hu; destruct Hu as [_ Hr].
  specialize (IH Hr).
  assert (Hn : existsb (String.eqb k) (map fst (json_props r)) = false).
  { destruct (existsb (String.eqb k) (map fst (json_props r))) eqn:E;
      [| reflexivity].
    apply lookup_in_keys in E.
    rewrite lookup_json_props, Hk in E by exact Hr. contradiction. }
  destruct v; cbn [json_props unique_names map fst]; rewrite ?Hn, ?IH;
    try reflexivity; exact IH.
Qed.

(** X6.  In fallback mode the id is the clock reading: two creates of
    records without id within one millisecond resolve with the same
    id, and the array then ends with both records, each under that
    id. *)
Theorem fallback_creates_in_one_millisecond_share_their_id :
  forall (ls : LocalStorage) (old : list value) (now : Instant) (a b : obj),
    usable ls old ->
    unique_names a = true -> lookup "id" a = None ->
    unique_names b = true -> lookup "id" b = None ->
    exists ls1 ls2 front ra rb,
      addAnalysisToLocalStorage ls now (VObj a)
        = (Resolved (VNum (inject_Z (Date_now now))), ls1) /\
      addAnalysisToLocalStorage ls1 now (VObj b)
        = (Resolved (VNum (inject_Z (Date_now now))), ls2) /\
      fallback_records ls2 = Some (front ++ [ra; rb]) /\
      List.length front = List.length old /\
      get ra "id" = VNum (inject_Z (Date_now now)) /\
      get rb "id" = VNum (inject_Z (Date_now now)).
Proof.
  intros ls old now a b Hus Hua Hia Hub Hib.
  destruct (fallback_create_appends ls old now (VObj a) Hus) as [ls1 [Ha Hus1]].
  destruct (fallback_create_appends ls1 _ now (VObj b) Hus1) as [ls2 [Hb Hus2]].
  destruct (fallback_record_spec now (VObj a) Hua) as [HuA [_ [_ HoA]]].
  destruct (fallback_record_spec now (VObj b) Hub) as [HuB [_ [_ HoB]]].
  assert (HidA : lookup "id" (fallback_record now (VObj a))
                 = Some (VNum (inject_Z (Date_now now)))).
  { rewrite HoA by discriminate. simpl own_props; rewrite Hia; reflexivity. }
  assert (HidB : lookup "id" (fallback_record now (VObj b))
                 = Some (VNum (inject_Z (Date_now now)))).
  { rewrite HoB by discriminate. simpl own_props; rewrite Hib; reflexivity. }
  exists ls1, ls2, (map jsonify (map jsonify old)),
         (jsonify (VObj (json_props (fallback_record now (VObj a))))),
         (VObj (json_props (fallback_record now (VObj b)))).
  split; [| split; [| split; [| split; [| split]]]].
  - rewrite Ha; unfold own; rewrite HidA; reflexivity.
  - rewrite Hb; unfold own; rewrite HidB; reflexivity.
  - destruct Hus2 as [_ [_ Hrec]]. rewrite Hrec.
    rewrite map_app, <- app_assoc; reflexivity.
  - rewrite !length_map; reflexivity.
  - rewrite jsonify_obj. simpl; unfold own.
    rewrite lookup_json_props by (apply unique_names_json_props; exact HuA).
    rewrite lookup_json_props, HidA by exact HuA. reflexivity.
  - simpl; unfold own. rewrite lookup_json_props, HidB by exact HuB; reflexivity.
Qed.

Lemma primary_record_spec :
  forall (now : Instant) (o : obj),
    unique_names o = true ->
    lookup "createdAt" (primary_record now (VObj o))
      = Some (VStr (toISOString now)) /\
    lookup "updatedAt" (primary_record now (VObj o))
      = Some (VStr (toISOString now)) /\
    (forall k, k <> "createdAt" -> k <> "updatedAt" ->
       lookup k (primary_record now (VObj o)) = lookup k o).
Proof.
  intros now o Hu; unfold primary_record; split; [| split].
  - rewrite lookup_assign_other by discriminate. apply lookup_assign_same.
  - apply lookup_assign_same.
  - intros k H1 H2. rewrite !lookup_assign_other by congruence.
    unfold spread; simpl own_props. rewrite lookup_copy by exact Hu.
    destruct (lookup k o); reflexivity.
Qed.

(** X7.  A create whose record brings the id of a row that is already
    in the object store is turned down by store.add and lands in
    localStorage instead: the call resolves, the object store and what
    getAnalyses returns stay as they were, and the fallback array has
    one record more. *)
Theorem create_under_an_existing_key_lands_in_localStorage :
  forall (d : IDBDatabase) (ls : LocalStorage) (old : list value)
         (now : Instant) (o r : obj) (k : value),
    fault d = None ->
    usable ls old ->
    unique_names o = true ->
    lookup "id" o = Some k ->
    valid_key k = true ->
    find_row k (rows d) = Some r ->
    let w := {| db := Some d; storage := ls |} in
    exists id w' kept,
      addAnalysis w now (VObj o) = (Resolved id, w') /\
      db w' = Some d /\
      (forall filters, getAnalyses rt w' filters = getAnalyses rt w filters) /\
      fallback_records (storage w') = Some kept /\
      List.length kept = S (List.length old).
Proof.
  intros d ls old now o r k Hf Hus Hu Hid Hk Hrow w.
  destruct (primary_record_spec now o Hu) as [_ [_ Hother]].
  assert (HidP : own (primary_record now (VObj o)) "id" = k).
  { unfold own; rewrite Hother, Hid by discriminate; reflexivity. }
  destruct (fallback_create_appends ls old now
              (VObj (primary_record now (VObj o))) Hus) as [ls' [Hadd Hus']].
  assert (Hstore : store_add d (primary_record now (VObj o))
                   = Failure ConstraintError).
  { unfold store_add, store_write. rewrite HidP.
    destruct k; try discriminate Hk; rewrite Hk, Hf, Hrow; reflexivity. }
  eexists; exists {| db := Some d; storage := ls' |}; eexists.
  split; [| split; [reflexivity | split; [| split]]].
  - unfold addAnalysis, w; simpl. fold (primary_record now (VObj o)).
    rewrite Hstore, Hadd; reflexivity.
  - intros filters; unfold getAnalyses, store_getAll, w; simpl.
    rewrite Hf; reflexivity.
  - apply Hus'.
  - rewrite length_app, length_map; simpl; lia.
Qed.

Lemma find_row_insert_row_number :
  forall (q : Q) (r : obj) (l : list (value * obj)),
    find_row (VNum q) (insert_row (VNum q) r l) = Some r.
Proof.
  intros q r l.
  assert (Hrefl : key_eqb (VNum q) (VNum q) = true).
  { unfold key_eqb; simpl.
    rewrite (proj1 (Qeq_alt q q) (Qeq_refl q)); reflexivity. }
  induction l as [| [k' r'] t IH]; cbn [insert_row find_row];
    [rewrite Hrefl; reflexivity |].
  destruct (key_compare (VNum q) k') eqn:E; cbn [find_row];
    try (rewrite Hrefl; reflexivity).
  destruct k'; simpl in E; try discriminate E.
  unfold key_eqb; simpl. rewrite <- Qcompare_antisym, E; simpl. exact IH.
Qed.

Lemma unique_names_primary_record :
  forall (now : Instant) (o : obj),
    unique_names o = true ->
    unique_names (primary_record now (VObj o)) = true.
Proof.
  intros now o Hu; unfold primary_record.
  do 2 apply unique_names_assign. apply unique_names_spread; reflexivity.
Qed.

Lemma primary_create :
  forall (d : IDBDatabase) (ls : LocalStorage) (now : Instant) (o : obj),
    fault d = None ->
    (keyGenerator d <= last_generated_key)%Z ->
    unique_names o = true ->
    lookup "id" o = None ->
    let w := {| db := Some d; storage := ls |} in
    let id := VNum (inject_Z (keyGenerator d)) in
    exists d' rec,
      addAnalysis w now (VObj o) = (Resolved id, {| db := Some d'; storage := ls |}) /\
      keyGenerator d' = (keyGenerator d + 1)%Z /\
      getAnalysis {| db := Some d'; storage := ls |} id = Resolved (VObj rec) /\
      own rec "id" = id /\
      own rec "createdAt" = VStr (toISOString now) /\
      own rec "updatedAt" = VStr (toISOString now) /\
      (forall k, k <> "id" -> k <> "createdAt" -> k <> "updatedAt" ->
                 lookup k rec = lookup k o).
Proof.
  intros d ls now o Hf Hg Hu Hid w id.
  destruct (primary_record_spec now o Hu) as [Hc [Hup Hother]].
  set (P := primary_record now (VObj o)) in *.
  assert (HidP : own P "id" = VUndefined).
  { unfold own; rewrite Hother, Hid by discriminate; reflexivity. }
  exists {| rows := insert_row id (assign P "id" id) (rows d);
            keyGenerator := keyGenerator d + 1;
            fault := None |}, (assign P "id" id).
  split; [| split; [reflexivity | split; [| split; [| split; [| split]]]]].
  - unfold addAnalysis, w; simpl. fold (primary_record now (VObj o)); fold P.
    unfold store_add, store_write. rewrite HidP, Hf.
    replace (Z.ltb last_generated_key (keyGenerator d)) with false
      by (symmetry; apply Z.ltb_ge; exact Hg).
    reflexivity.
  - unfold getAnalysis, store_get; simpl.
    unfold id; rewrite find_row_insert_row_number; reflexivity.
  - unfold own; rewrite lookup_assign_same; reflexivity.
  - unfold own; rewrite lookup_assign_other, Hc by discriminate; reflexivity.
  - unfold own; rewrite lookup_assign_other, Hup by discriminate; reflexivity.
  - intros k H1 H2 H3. rewrite lookup_assign_other by congruence.
    apply Hother; assumption.
Qed.

Lemma fallback_create_usable_or_rejected :
  forall (ls : LocalStorage) (now : Instant) (a : value),
    (exists old, usable ls old) \/
    (exists e, addAnalysisToLocalStorage ls now a = (Rejected e, ls)).
Proof.
  intros ls now a.
  unfold addAnalysisToLocalStorage, getItem, setItem, usable, fallback_records.
  destruct (accessible ls); simpl; [| right; eauto].
  destruct (item ls) as [| | doc]; simpl; [| right; eauto |].
  - destruct (has_room ls); simpl; [left | right]; eauto.
  - destruct doc; simpl; try (right; eauto; fail).
    destruct (has_room ls); simpl; [left | right]; eauto.
Qed.

Lemma fallback_create :
  forall (ls : LocalStorage) (old : list value) (now : Instant) (a : value),
    usable ls old ->
    unique_names (own_props a) = true ->
    lookup "id" (own_props a) = None ->
    exists ls' rec,
      addAnalysisToLocalStorage ls now a
        = (Resolved (VNum (inject_Z (Date_now now))), ls') /\
      fallback_records ls' = Some (map jsonify old ++ [VObj rec]) /\
      own rec "id" = VNum (inject_Z (Date_now now)) /\
      own rec "createdAt" = VStr (toISOString now) /\
      own rec "updatedAt" = VStr (toISOString now) /\
      (forall k v, k <> "createdAt" -> k <> "updatedAt" ->
                   lookup k (own_props a) = Some v -> v <> VUndefined ->
                   own rec k = jsonify v).
Proof.
  intros ls old now a Hus Hu Hid.
  destruct (fallback_create_appends ls old now a Hus) as [ls' [Hadd Hus']].
  destruct (fallback_record_spec now a Hu) as [HuA [Hc [Hup Hother]]].
  set (A := fallback_record now a) in *.
  assert (HidA : lookup "id" A = Some (VNum (inject_Z (Date_now now)))).
  { rewrite Hother by discriminate. rewrite Hid; reflexivity. }
  exists ls', (json_props A).
  split; [| split; [apply Hus' | split; [| split; [| split]]]].
  - rewrite Hadd. unfold own; rewrite HidA; reflexivity.
  - unfold own. rewrite lookup_json_props, HidA by exact HuA; reflexivity.
  - unfold own. rewrite lookup_json_props, Hc by exact HuA; reflexivity.
  - unfold own. rewrite lookup_json_props, Hup by exact HuA; reflexivity.
  - intros k v H1 H2 Hk Hv. unfold own.
    rewrite lookup_json_props by exact HuA.
    rewrite Hother by assumption. rewrite Hk.
    destruct v; try reflexivity. contradiction.
Qed.

Lemma generator_spent :
  forall (d : IDBDatabase) (ls : LocalStorage) (now : Instant) (o : obj),
    fault d = None ->
    (last_generated_key < keyGenerator d)%Z ->
    unique_names o = true ->
    lookup "id" o = None ->
    addAnalysis {| db := Some d; storage := ls |} now (VObj o)
      = (let (r, ls') :=
           addAnalysisToLocalStorage ls now (VObj (primary_record now (VObj o))) in
         (r, {| db := Some d; storage := ls' |})).
Proof.
  intros d ls now o Hf Hg Hu Hid.
  destruct (primary_record_spec now o Hu) as [_ [_ Hother]].
  assert (HidP : own (primary_record now (VObj o)) "id" = VUndefined).
  { unfold own; rewrite Hother, Hid by discriminate; reflexivity. }
  unfold addAnalysis; simpl. fold (primary_record now (VObj o)).
  unfold store_add, store_write. rewrite HidP, Hf.
  replace (Z.ltb last_generated_key (keyGenerator d)) with true
    by (symmetry; apply Z.ltb_lt; exact Hg).
  reflexivity.
Qed.

(** X8.  With the handle present and the engine answering, addAnalysis
    of an object without id resolves with the key generator's number
    as long as that number is at most 2^53, moves the generator one up,
    and getAnalysis of that number then returns the record: the data,
    the id and the two stamps of the call.  Once the generator has
    passed 2^53 the store gives no key any more: the create lands in a
    usable localStorage under Date.now() and leaves the object store as
    it was. *)
Theorem primary_create_can_be_read_back :
  forall (d : IDBDatabase) (ls : LocalStorage) (now : Instant) (o : obj),
    fault d = None ->
    unique_names o = true ->
    lookup "id" o = None ->
    let w := {| db := Some d; storage := ls |} in
    let id := VNum (inject_Z (keyGenerator d)) in
    ((keyGenerator d <= last_generated_key)%Z ->
     exists d' rec,
       addAnalysis w now (VObj o)
         = (Resolved id, {| db := Some d'; storage := ls |}) /\
       keyGenerator d' = (keyGenerator d + 1)%Z /\
       getAnalysis {| db := Some d'; storage := ls |} id = Resolved (VObj rec) /\
       own rec "id" = id /\
       own rec "createdAt" = VStr (toISOString now) /\
       own rec "updatedAt" = VStr (toISOString now) /\
       (forall k, k <> "id" -> k <> "createdAt" -> k <> "updatedAt" ->
                  lookup k rec = lookup k o)) /\
    ((last_generated_key < keyGenerator d)%Z ->
     forall old, usable ls old ->
       exists ls' rec,
         addAnalysis w now (VObj o)
           = (Resolved (VNum (inject_Z (Date_now now))),
              {| db := Some d; storage := ls' |}) /\
         fallback_records ls' = Some (map jsonify old ++ [VObj rec]) /\
         own rec "id" = VNum (inject_Z (Date_now now))).
Proof.
  intros d ls now o Hf Hu Hid w id; split.
  - intros Hg. exact (primary_create d ls now o Hf Hg Hu Hid).
  - intros Hg old Hus.
    destruct (primary_record_spec now o Hu) as [_ [_ Hother]].
    destruct (fallback_create ls old now (VObj (primary_record now (VObj o))) Hus)
      as [ls' [rec [Hadd [Hrec [Hi _]]]]].
    + apply unique_names_primary_record; exact Hu.
    + simpl own_props. rewrite Hother by discriminate. exact Hid.
    + exists ls', rec. split; [| split; [exact Hrec | exact Hi]].
      unfold w. rewrite generator_spent by assumption.
      rewrite Hadd; reflexivity.
Qed.

(** ** Logging *)

Lemma create_cases :
  forall (w : World) (now : Instant) (o : obj),
    unique_names o = true ->
    lookup "id" o = None ->
    (exists d d' rec,
        db w = Some d /\
        addAnalysis w now (VObj o)
          = (Resolved (VNum (inject_Z (keyGenerator d))),
             {| db := Some d'; storage := storage w |}) /\
        getAnalysis {| db := Some d'; storage := storage w |}
                    (VNum (inject_Z (keyGenerator d)))
          = Resolved (VObj rec) /\
        own rec "id" = VNum (inject_Z (keyGenerator d)) /\
        own rec "createdAt" = VStr (toISOString now) /\
        own rec "updatedAt" = VStr (toISOString now) /\
        (forall k, k <> "id" -> k <> "createdAt" -> k <> "updatedAt" ->
                   lookup k rec = lookup k o)) \/
    (exists ls' front rec,
        addAnalysis w now (VObj o)
          = (Resolved (VNum (inject_Z (Date_now now))),
             {| db := db w; storage := ls' |}) /\
        fallback_records ls' = Some (front ++ [VObj rec]) /\
        own rec "id" = VNum (inject_Z (Date_now now)) /\
        own rec "createdAt" = VStr (toISOString now) /\
        own rec "updatedAt" = VStr (toISOString now) /\
        (forall k v, k <> "createdAt" -> k <> "updatedAt" ->
                     lookup k o = Some v -> v <> VUndefined ->
                     own rec k = jsonify v)) \/
    (exists e, addAnalysis w now (VObj o) = (Rejected e, w)).
Proof.
  intros [[d |] ls] now o Hu Hid; cbn [db storage].
  - destruct (primary_record_spec now o Hu) as [_ [_ Hother]].
    set (P := primary_record now (VObj o)) in *.
    assert (HidP : lookup "id" P = None)
      by (rewrite Hother by discriminate; exact Hid).
    assert (Hfall :
      addAnalysis {| db := Some d; storage := ls |} now (VObj o)
        = (let (r, ls') := addAnalysisToLocalStorage ls now (VObj P) in
           (r, {| db := Some d; storage := ls' |})) ->
      (exists ls' front rec,
          addAnalysis {| db := Some d; storage := ls |} now (VObj o)
            = (Resolved (VNum (inject_Z (Date_now now))),
               {| db := Some d; storage := ls' |}) /\
          fallback_records ls' = Some (front ++ [VObj rec]) /\
          own rec "id" = VNum (inject_Z (Date_now now)) /\
          own rec "createdAt" = VStr (toISOString now) /\
          own rec "updatedAt" = VStr (toISOString now) /\
          (forall k v, k <> "createdAt" -> k <> "updatedAt" ->
                       lookup k o = Some v -> v <> VUndefined ->
                       own rec k = jsonify v)) \/
      (exists e, addAnalysis {| db := Some d; storage := ls |} now (VObj o)
                 = (Rejected e, {| db := Some d; storage := ls |}))).
    { intros Hadd.
      destruct (fallback_create_usable_or_rejected ls now (VObj P))
        as [[old Hus] | [e He]].
      - destruct (fallback_create ls old now (VObj P) Hus
                    (unique_names_primary_record now o Hu) HidP)
          as [ls' [rec [Hres [Hrec [Hi [Hc [Hup Hframe]]]]]]].
        left; exists ls', (map jsonify old), rec.
        split; [rewrite Hadd, Hres; reflexivity |].
        split; [exact Hrec |]. split; [exact Hi |].
        split; [exact Hc |]. split; [exact Hup |].
        intros k v H1 H2 Hk Hv. apply Hframe; try assumption.
        simpl own_props; fold P. rewrite Hother by assumption. exact Hk.
      - right; exists e. rewrite Hadd, He; reflexivity. }
    destruct (fault d) as [e |] eqn:Hf.
    + right. apply Hfall.
      assert (HoP : own P "id" = VUndefined) by (unfold own; rewrite HidP; reflexivity).
      unfold addAnalysis; simpl. fold (primary_record now (VObj o)); fold P.
      unfold store_add, store_write. rewrite HoP, Hf; reflexivity.
    + destruct (Z.ltb last_generated_key (keyGenerator d)) eqn:Hg.
      * right. apply Hfall. apply Z.ltb_lt in Hg.
        apply generator_spent; assumption.
      * left. apply Z.ltb_ge in Hg.
        destruct (primary_create d ls now o Hf Hg Hu Hid)
          as [d' [rec [Ha [_ H]]]].
        exists d, d', rec. split; [reflexivity |]. split; [exact Ha | exact H].
  - right.
    destruct (fallback_create_usable_or_rejected ls now (VObj o))
      as [[old Hus] | [e He]].
    + destruct (fallback_create ls old now (VObj o) Hus Hu Hid)
        as [ls' [rec [Hres [Hrec H]]]].
      left; exists ls', (map jsonify old), rec.
      split; [unfold addAnalysis; simpl; rewrite Hres; reflexivity |].
      split; [exact Hrec | exact H].
    + right; exists e. unfold addAnalysis; simpl; rewrite He; reflexivity.
Qed.

(** X3.  Each of the five logging methods: answers false without
    touching anything when the logger has no database; rejects with a
    TypeError when data is null or undefined, since the record is built
    before the try block; otherwise it resolves, either with false,
    and then both stores are as they were, or with the numeric id
    under which the record it built is now stored, with the two stamps
    of the call: as the row that getAnalysis returns for that id, the
    id being the key generator's number, or as the last entry of the
    fallback array, the id being Date.now() and the properties being
    those that JSON keeps. *)
Theorem logger_answers_with_the_id_of_the_stored_record :
  forall (type : value)
         (m : AnalysisLogger.Logger -> World -> Instant -> value
              -> outcome value * World)
         (record : Instant -> value -> obj)
         (l : AnalysisLogger.Logger) (w : World) (now : Instant) (data : value),
    In (m, record) (logging type) ->
    (AnalysisLogger.attached l = false ->
     m l w now data = (Resolved (VBool false), w)) /\
    (AnalysisLogger.attached l = true -> readable data = false ->
     m l w now data = (Rejected TypeError, w)) /\
    (AnalysisLogger.attached l = true -> readable data = true ->
     m l w now data = (Resolved (VBool false), w) \/
     exists q w' rec,
       m l w now data = (Resolved (VNum q), w') /\
       own rec "id" = VNum q /\
       own rec "createdAt" = VStr (toISOString now) /\
       own rec "updatedAt" = VStr (toISOString now) /\
       ((exists d,
            db w = Some d /\
            q = inject_Z (keyGenerator d) /\
            storage w' = storage w /\
            getAnalysis w' (VNum q) = Resolved (VObj rec) /\
            (forall k, k <> "id" -> k <> "createdAt" -> k <> "updatedAt" ->
                       lookup k rec = lookup k (record now data))) \/
        (exists front,
            db w' = db w /\
            q = inject_Z (Date_now now) /\
            fallback_records (storage w') = Some (front ++ [VObj rec]) /\
            (forall k v, k <> "createdAt" -> k <> "updatedAt" ->
                         lookup k (record now data) = Some v ->
                         v <> VUndefined ->
                         own rec k = jsonify v)))).
Proof.
  intros type m record l w now data Hm.
  assert (Hgo : forall o,
            unique_names o = true -> lookup "id" o = None ->
            AnalysisLogger.log_record w now o = (Resolved (VBool false), w) \/
            exists q w' rec,
              AnalysisLogger.log_record w now o = (Resolved (VNum q), w') /\
              own rec "id" = VNum q /\
              own rec "createdAt" = VStr (toISOString now) /\
              own rec "updatedAt" = VStr (toISOString now) /\
              ((exists d,
                   db w = Some d /\
                   q = inject_Z (keyGenerator d) /\
                   storage w' = storage w /\
                   getAnalysis w' (VNum q) = Resolved (VObj rec) /\
                   (forall k, k <> "id" -> k <> "createdAt" ->
                              k <> "updatedAt" ->
                              lookup k rec = lookup k o)) \/
               (exists front,
                   db w' = db w /\
                   q = inject_Z (Date_now now) /\
                   fallback_records (storage w') = Some (front ++ [VObj rec]) /\
                   (forall k v, k <> "createdAt" -> k <> "updatedAt" ->
                                lookup k o = Some v -> v <> VUndefined ->
                                own rec k = jsonify v)))).
  { intros o Hu Hid; unfold AnalysisLogger.log_record.
    destruct (create_cases w now o Hu Hid)
      as [[d [d' [rec [Hd [E [Hget [Hi [Hc [Hup Hframe]]]]]]]]]
         | [[ls' [front [rec [E [Hrec [Hi [Hc [Hup Hframe]]]]]]]]
           | [e E]]]; rewrite E.
    - right. exists (inject_Z (keyGenerator d)),
                    {| db := Some d'; storage := storage w |}, rec.
      split; [reflexivity |]. split; [exact Hi |].
      split; [exact Hc |]. split; [exact Hup |].
      left; exists d.
      split; [exact Hd |]. split; [reflexivity |]. split; [reflexivity |].
      split; [exact Hget | exact Hframe].
    - right. exists (inject_Z (Date_now now)),
                    {| db := db w; storage := ls' |}, rec.
      split; [reflexivity |]. split; [exact Hi |].
      split; [exact Hc |]. split; [exact Hup |].
      right; exists front.
      split; [reflexivity |]. split; [reflexivity |].
      split; [exact Hrec | exact Hframe].
    - left; reflexivity. }
  simpl in Hm.
  destruct Hm as [Hm | [Hm | [Hm | [Hm | [Hm | []]]]]];
    injection Hm as Hm1 Hm2; subst m record;
    unfold AnalysisLogger.logSpeciesAnalysis, AnalysisLogger.logTreeCountAnalysis,
           AnalysisLogger.logPathAnalysis, AnalysisLogger.logGreenCoverAnalysis,
           AnalysisLogger.logAnalysis, AnalysisLogger.with_data;
    (split; [intros Ha; rewrite Ha; reflexivity |]);
    (split; [intros Ha Hr; rewrite Ha, Hr; reflexivity |]);
    intros Ha Hr; rewrite Ha, Hr; apply Hgo; reflexivity.
Qed.

(** X9.  After updateAnalysis has resolved for a row with a numeric id,
    getAnalysis of that id returns the merged record, and localStorage
    is not touched. *)
Theorem update_can_be_read_back :
  forall (d : IDBDatabase) (ls : LocalStorage) (now : Instant) (q : Q)
         (patch : value) (analysis : obj),
    fault d = None ->
    find_row (VNum q) (rows d) = Some analysis ->
    unique_names analysis = true ->
    own analysis "id" = VNum q ->
    names patch "id" = false ->
    let w := {| db := Some d; storage := ls |} in
    exists merged w',
      updateAnalysis w now (VNum q) patch = (Resolved (VObj merged), w') /\
      getAnalysis w' (VNum q) = Resolved (VObj merged) /\
      storage w' = ls.
Proof.
  intros d ls now q patch analysis Hf Hrow Hu Hid Hn w.
  set (merged := assign (spread (spread [] (VObj analysis)) patch)
                        "updatedAt" (VStr (toISOString now))).
  assert (Hmid : own merged "id" = VNum q).
  { unfold own, merged. rewrite lookup_assign_other by discriminate.
    unfold names in Hn. unfold spread at 1.
    rewrite lookup_unnamed by (destruct (lookup "id" (own_props patch)); congruence).
    unfold spread; simpl own_props. rewrite lookup_copy by exact Hu.
    unfold own in Hid. destruct (lookup "id" analysis); [exact Hid | discriminate]. }
  exists merged.
  exists {| db := Some {| rows := insert_row (VNum q) merged (rows d);
                          keyGenerator := bump_generator (VNum q) (keyGenerator d);
                          fault := None |};
            storage := ls |}.
  split; [| split; [| reflexivity]].
  - unfold updateAnalysis, store_get, w; simpl. rewrite Hf, Hrow; simpl.
    fold merged. unfold store_put, store_write. rewrite Hmid; simpl.
    rewrite Hf, Hrow; reflexivity.
  - unfold getAnalysis, store_get; simpl.
    rewrite find_row_insert_row_number; reflexivity.
Qed.

Lemma getAnalytics_fields :
  forall (w : World) (recs : list value),
    stored_records w = Some recs ->
    forallb readable recs = true ->
    forallb string_date recs = true ->
    let analyses := fold_right (insert_by (newest_first rt)) [] recs in
    exists a,
      getAnalytics rt w = Resolved a /\
      totalAnalyses a = List.length analyses /\
      speciesCount a =
        List.length
          (fold_left (Set_add same_value_zero)
                     (map (fun a => get a "species")
                          (filter (fun a => truthy (get a "species")) analyses))
                     []) /\
      analysesByType a =
        fold_left (fun o a => bump rt o (get a "type")) analyses [] /\
      fold_left (fun acc a =>
                   o <- acc ;; date <- date_part a ;;
                   Resolved (bump rt o (VStr date)))
                analyses (Resolved ([] : obj)) = Resolved (analysesByDate a) /\
      recentAnalyses a = firstn 10 analyses.
Proof.
  intros w recs Hs Hr Hd analyses.
  assert (HP : Permutation recs analyses) by apply insertion_perm.
  unfold getAnalytics.
  rewrite (getAnalyses_unfiltered rt w recs Hs Hr); cbn [bind].
  fold analyses. rewrite (forallb_perm _ _ _ _ HP Hr).
  destruct (by_date_resolves rt analyses [] (forallb_perm _ _ _ _ HP Hd))
    as [byDate Hby].
  eexists; rewrite Hby; cbn [bind].
  split; [reflexivity |]. repeat split; reflexivity.
Qed.

(** X10.  clearAllData empties the object store and nothing else: it
    resolves with true, localStorage keeps what it had, getAnalyses
    then returns no record under any filter, and the analytics are
    those of an empty history. *)
Theorem clearAllData_empties_the_object_store_only :
  forall (d : IDBDatabase) (ls : LocalStorage),
    fault d = None ->
    let w := {| db := Some d; storage := ls |} in
    exists w' a,
      clearAllData w = (Resolved (VBool true), w') /\
      storage w' = ls /\
      (forall filters, getAnalyses rt w' filters = Resolved []) /\
      getAnalytics rt w' = Resolved a /\
      totalAnalyses a = 0%nat /\
      speciesCount a = 0%nat /\
      averageConfidence a = VNum 0 /\
      mostCommonSpecies a = VNull /\
      analysesByType a = [] /\
      analysesByDate a = [] /\
      recentAnalyses a = [].
Proof.
  intros d ls Hf w.
  set (w' := {| db := Some {| rows := []; keyGenerator := keyGenerator d;
                              fault := None |};
                storage := ls |}).
  assert (Hs : stored_records w' = Some []) by reflexivity.
  assert (Hg : forall filters, getAnalyses rt w' filters = Resolved []).
  { intros filters. rewrite (getAnalyses_spec rt w' [] filters Hs eq_refl).
    reflexivity. }
  exists w'. eexists.
  split; [unfold clearAllData, store_clear, w; simpl; rewrite Hf; reflexivity |].
  split; [reflexivity |]. split; [exact Hg |].
  split; [unfold getAnalytics; rewrite Hg; reflexivity |].
  repeat split; reflexivity.
Qed.

(** ** The rest of the analytics *)

Lemma type_fold :
  forall (l : list value) (o : obj),
    forallb plain_type l = true ->
    fold_left (fun o a => bump rt o (get a "type")) l o =
    fold_left (fun o s => bump rt o (VStr s)) (type_names l) o.
Proof.
  induction l as [| a l IH]; intros o H; [reflexivity |].
  simpl in H; apply andb_prop in H; destruct H as [Ha Hl].
  unfold plain_type in Ha. unfold type_names; cbn [fold_left flat_map].
  destruct (get a "type") eqn:E; try discriminate Ha.
  cbn [app fold_left]. apply IH; exact Hl.
Qed.

Lemma type_names_length :
  forall l : list value,
    forallb plain_type l = true -> List.length (type_names l) = List.length l.
Proof.
  induction l as [| a l IH]; intros H; [reflexivity |].
  simpl in H; apply andb_prop in H; destruct H as [Ha Hl].
  unfold plain_type in Ha. unfold type_names; cbn [flat_map].
  destruct (get a "type"); try discriminate Ha.
  cbn. f_equal. apply IH; exact Hl.
Qed.

Lemma tallies_own :
  forall (o : obj) (seen : list string) (s : string),
    tallies o seen ->
    (occurrences s seen = 0%nat -> own o s = VUndefined) /\
    ((0 < occurrences s seen)%nat ->
     exists q, own o s = VNum q /\
               q == inject_Z (Z.of_nat (occurrences s seen))).
Proof.
  intros o seen s [_ H]; specialize (H s); unfold own.
  destruct (lookup s o) as [v |].
  - destruct H as [q [Hv [Hq Hpos]]]; subst v. split; [lia | eauto].
  - split; [reflexivity | lia].
Qed.

Lemma insert_index_perm :
  forall (k : string) (l : list string),
    Permutation (k :: l) (insert_index k l).
Proof.
  intros k l; induction l as [| k' r IH]; simpl; [apply Permutation_refl |].
  destruct (N.leb (index_value k) (index_value k')); [apply Permutation_refl |].
  eapply perm_trans; [apply perm_swap |]. apply perm_skip; exact IH.
Qed.

Lemma index_sort_perm :
  forall l : list string, Permutation l (fold_right insert_index [] l).
Proof.
  induction l as [| k l IH]; simpl; [apply perm_nil |].
  eapply perm_trans; [apply perm_skip; exact IH | apply insert_index_perm].
Qed.

Lemma insert_index_sorted :
  forall (k : string) (l : list string),
    StronglySorted index_le l -> StronglySorted index_le (insert_index k l).
Proof.
  intros k l; induction l as [| k' r IH]; intros H; simpl.
  - constructor; [constructor | constructor].
  - inversion H as [| x y Hr Hall]; subst.
    destruct (N.leb (index_value k) (index_value k')) eqn:E.
    + apply N.leb_le in E. constructor; [exact H |].
      constructor; [exact E |].
      eapply Forall_impl; [| exact Hall].
      intros b Hb; unfold index_le in *; lia.
    + apply N.leb_gt in E. constructor; [apply IH; exact Hr |].
      eapply Permutation_Forall; [apply insert_index_perm |].
      constructor; [unfold index_le; lia | exact Hall].
Qed.

Lemma index_sort_sorted :
  forall l : list string, StronglySorted index_le (fold_right insert_index [] l).
Proof.
  induction l as [| k l IH]; simpl; [constructor |].
  apply insert_index_sorted; exact IH.
Qed.

Lemma filter_split_perm :
  forall (A : Type) (p : A -> bool) (l : list A),
    Permutation l (filter p l ++ filter (fun x => negb (p x)) l).
Proof.
  intros A p l; induction l as [| x l IH]; simpl; [apply perm_nil |].
  destruct (p x); simpl.
  - apply perm_skip; exact IH.
  - apply Permutation_cons_app; exact IH.
Qed.

Lemma Object_keys_order :
  forall o : obj,
    Permutation (map fst o) (Object_keys o) /\
    exists indices,
      Object_keys o
        = indices ++ filter (fun k => negb (is_index k)) (map fst o) /\
      Forall (fun k => is_index k = true) indices /\
      StronglySorted index_le indices.
Proof.
  intros o; unfold Object_keys; split.
  - eapply perm_trans; [apply (filter_split_perm _ is_index) |].
    apply Permutation_app_tail, index_sort_perm.
  - eexists; split; [reflexivity |]. split; [| apply index_sort_sorted].
    eapply Permutation_Forall; [apply index_sort_perm |].
    apply Forall_forall; intros k Hk.
    apply filter_In in Hk; apply Hk.
Qed.

(** X11.  For records whose type is a string, analysesByType has one
    key for every type that occurs, with the number of records of that
    type as its value; a type that does not occur has no entry, and
    totalAnalyses is the number of records.  Object.keys lists the
    integer-like types first, in ascending numeric order, and then the
    other types in the order getAnalyses first returns them. *)
Theorem getAnalytics_counts_records_by_type :
  forall (w : World) (recs : list value),
    stored_records w = Some recs ->
    forallb readable recs = true ->
    forallb string_date recs = true ->
    forallb plain_type recs = true ->
    exists a analyses,
      getAnalytics rt w = Resolved a /\
      getAnalyses rt w [] = Resolved analyses /\
      totalAnalyses a = List.length recs /\
      List.length (type_names analyses) = List.length recs /\
      Permutation (first_seen (type_names analyses))
                  (Object_keys (analysesByType a)) /\
      (exists indices,
          Object_keys (analysesByType a)
            = indices ++ filter (fun t => negb (is_index t))
                                (first_seen (type_names analyses)) /\
          Forall (fun t => is_index t = true) indices /\
          StronglySorted index_le indices) /\
      (forall t,
          (occurrences t (type_names analyses) = 0%nat ->
           own (analysesByType a) t = VUndefined) /\
          ((0 < occurrences t (type_names analyses))%nat ->
           exists q, own (analysesByType a) t = VNum q /\
                     q == inject_Z (Z.of_nat (occurrences t (type_names analyses))))).
Proof.
  intros w recs Hs Hr Hd Ht.
  destruct (getAnalytics_fields w recs Hs Hr Hd)
    as [a [Ha [Htot [_ [Hby [_ _]]]]]].
  pose proof (getAnalyses_unfiltered rt w recs Hs Hr) as Hg.
  set (analyses := fold_right (insert_by (newest_first rt)) [] recs) in *.
  assert (HP : Permutation recs analyses) by apply insertion_perm.
  pose proof (forallb_perm _ _ _ _ HP Ht) as Hta.
  rewrite type_fold in Hby by exact Hta.
  assert (Htal : tallies (analysesByType a) (type_names analyses)).
  { rewrite Hby. apply (tallies_fold rt (type_names analyses) [] []).
    split; [reflexivity | intros s; reflexivity]. }
  exists a, analyses.
  split; [exact Ha |]. split; [exact Hg |].
  split; [rewrite Htot; symmetry; apply Permutation_length; exact HP |].
  split; [rewrite type_names_length by exact Hta;
          symmetry; apply Permutation_length; exact HP |].
  destruct (Object_keys_order (analysesByType a)) as [Hperm Hord].
  rewrite (proj1 Htal) in Hperm, Hord.
  split; [exact Hperm |]. split; [exact Hord |].
  intros t; apply tallies_own; exact Htal.
Qed.

Lemma day_fold :
  forall (l : list value) (o : obj),
    forallb plain_day l = true ->
    fold_left (fun acc a =>
                 o <- acc ;; date <- date_part a ;;
                 Resolved (bump rt o (VStr date)))
              l (Resolved o) =
    Resolved (fold_left (fun o s => bump rt o (VStr s)) (day_names l) o).
Proof.
  induction l as [| a l IH]; intros o H; [reflexivity |].
  simpl in H; apply andb_prop in H; destruct H as [Ha Hl].
  unfold plain_day in Ha. unfold day_names; cbn [fold_left flat_map].
  unfold date_part at 2.
  destruct (get a "date") eqn:E; try discriminate Ha.
  cbn [bind app fold_left]. apply IH; exact Hl.
Qed.

Lemma plain_day_string_date :
  forall l : list value,
    forallb plain_day l = true -> forallb string_date l = true.
Proof.
  induction l as [| a l IH]; intros H; [reflexivity |].
  simpl in H; apply andb_prop in H; destruct H as [Ha Hl].
  simpl; rewrite (IH Hl), andb_true_r.
  unfold plain_day in Ha; unfold string_date.
  destruct (get a "date"); try discriminate Ha; reflexivity.
Qed.

(** X12.  analysesByDate groups the records by day, the day being the
    part of the date string before its first 'T': it has one key for
    every day that occurs, with the number of records of that day as
    its value, and no other key.  Object.keys lists the integer-like
    days (a date such as '2025') first, in ascending numeric order, and
    then the other days in the order getAnalyses first returns them. *)
Theorem getAnalytics_counts_records_by_day :
  forall (w : World) (recs : list value),
    stored_records w = Some recs ->
    forallb readable recs = true ->
    forallb plain_day recs = true ->
    exists a analyses,
      getAnalytics rt w = Resolved a /\
      getAnalyses rt w [] = Resolved analyses /\
      Permutation (first_seen (day_names analyses))
                  (Object_keys (analysesByDate a)) /\
      (exists indices,
          Object_keys (analysesByDate a)
            = indices ++ filter (fun day => negb (is_index day))
                                (first_seen (day_names analyses)) /\
          Forall (fun day => is_index day = true) indices /\
          StronglySorted index_le indices) /\
      (forall day,
          (occurrences day (day_names analyses) = 0%nat ->
           own (analysesByDate a) day = VUndefined) /\
          ((0 < occurrences day (day_names analyses))%nat ->
           exists q, own (analysesByDate a) day = VNum q /\
                     q == inject_Z (Z.of_nat (occurrences day (day_names analyses))))).
Proof.
  intros w recs Hs Hr Hd.
  destruct (getAnalytics_fields w recs Hs Hr (plain_day_string_date recs Hd))
    as [a [Ha [_ [_ [_ [Hby _]]]]]].
  pose proof (getAnalyses_unfiltered rt w recs Hs Hr) as Hg.
  set (analyses := fold_right (insert_by (newest_first rt)) [] recs) in *.
  assert (HP : Permutation recs analyses) by apply insertion_perm.
  rewrite day_fold in Hby by exact (forallb_perm _ _ _ _ HP Hd).
  injection Hby as Hby.
  assert (Htal : tallies (analysesByDate a) (day_names analyses)).
  { rewrite <- Hby. apply (tallies_fold rt (day_names analyses) [] []).
    split; [reflexivity | intros s; reflexivity]. }
  exists a, analyses.
  split; [exact Ha |]. split; [exact Hg |].
  destruct (Object_keys_order (analysesByDate a)) as [Hperm Hord].
  rewrite (proj1 Htal) in Hperm, Hord.
  split; [exact Hperm |]. split; [exact Hord |].
  intros day; apply tallies_own; exact Htal.
Qed.

Lemma named_species :
  forall l : list value,
    forallb plain_species l = true ->
    map (fun a => get a "species")
        (filter (fun a => truthy (get a "species")) l)
    = map VStr (species_names l).
Proof.
  induction l as [| a l IH]; intros H; [reflexivity |].
  simpl in H; apply andb_prop in H; destruct H as [Ha Hl].
  unfold plain_species in Ha. unfold species_names; cbn [filter flat_map].
  destruct (get a "species") eqn:E; try discriminate Ha; cbn.
  - apply IH; exact Hl.
  - apply IH; exact Hl.
  - destruct (String.eqb s "") eqn:Es; cbn.
    + apply IH; exact Hl.
    + rewrite E. f_equal. apply IH; exact Hl.
Qed.

Lemma Set_of_names :
  forall (rest seen : list string),
    fold_left (Set_add same_value_zero) (map VStr rest)
              (map VStr (first_seen seen))
    = map VStr (first_seen (seen ++ rest)).
Proof.
  induction rest as [| s rest IH]; intros seen; simpl.
  - rewrite app_nil_r; reflexivity.
  - replace (seen ++ s :: rest) with ((seen ++ [s]) ++ rest)
      by (rewrite <- app_assoc; reflexivity).
    rewrite <- IH. f_equal.
    unfold Set_add. rewrite first_seen_snoc.
    assert (E : existsb (same_value_zero (VStr s)) (map VStr (first_seen seen))
                = existsb (String.eqb s) seen).
    { transitivity (existsb (String.eqb s) (first_seen seen)).
      - induction (first_seen seen) as [| x xs IHx]; [reflexivity |].
        simpl; rewrite IHx; reflexivity.
      - apply eq_true_iff_eq. rewrite !existsb_eqb_In. apply first_seen_In. }
    rewrite E. destruct (existsb (String.eqb s) seen); [reflexivity |].
    rewrite map_app; reflexivity.
Qed.

(** X13.  speciesCount is the number of distinct species names among the
    records, and recentAnalyses are the first ten records that
    getAnalyses returns, all of them when there are fewer. *)
Theorem getAnalytics_counts_distinct_species :
  forall (w : World) (recs : list value),
    stored_records w = Some recs ->
    forallb readable recs = true ->
    forallb string_date recs = true ->
    forallb plain_species recs = true ->
    exists a analyses,
      getAnalytics rt w = Resolved a /\
      getAnalyses rt w [] = Resolved analyses /\
      speciesCount a = List.length (first_seen (species_names analyses)) /\
      recentAnalyses a = firstn 10 analyses /\
      List.length (recentAnalyses a) = Nat.min 10 (List.length recs).
Proof.
  intros w recs Hs Hr Hd Hp.
  destruct (getAnalytics_fields w recs Hs Hr Hd)
    as [a [Ha [_ [Hcount [_ [_ Hrecent]]]]]].
  pose proof (getAnalyses_unfiltered rt w recs Hs Hr) as Hg.
  set (analyses := fold_right (insert_by (newest_first rt)) [] recs) in *.
  assert (HP : Permutation recs analyses) by apply insertion_perm.
  exists a, analyses.
  split; [exact Ha |]. split; [exact Hg |]. split; [| split].
  - rewrite Hcount, named_species by exact (forallb_perm _ _ _ _ HP Hp).
    pose proof (Set_of_names (species_names analyses) []) as Hset.
    simpl in Hset; rewrite Hset.
    rewrite length_map; reflexivity.
  - exact Hrecent.
  - rewrite Hrecent, length_firstn, (Permutation_length HP); reflexivity.
Qed.

Lemma by_date_stays_rejected :
  forall (l : list value) (e : error),
    fold_left (fun acc a =>
                 o <- acc ;; date <- date_part a ;;
                 Resolved (bump rt o (VStr date)))
              l (Rejected e) = Rejected e.
Proof.
  induction l as [| a l IH]; intros e; [reflexivity | apply IH].
Qed.

Lemma by_date_rejects :
  forall (l : list value) (o : obj),
    forallb string_date l = false ->
    fold_left (fun acc a =>
                 o <- acc ;; date <- date_part a ;;
                 Resolved (bump rt o (VStr date)))
              l (Resolved o) = Rejected TypeError.
Proof.
  induction l as [| a l IH]; intros o H; [discriminate H |].
  cbn [fold_left bind]. cbn [forallb] in H.
  unfold date_part at 2. unfold string_date at 1 in H.
  destruct (get a "date"); cbn [bind];
    try apply by_date_stays_rejected.
  apply IH; exact H.
Qed.

(** X14.  One record whose date is not a string is enough to make
    getAnalytics reject with a TypeError, and the logger's getStats
    answer null, although getAnalyses still returns every record. *)
Theorem getAnalytics_rejects_on_a_record_without_date_string :
  forall (w : World) (recs : list value),
    stored_records w = Some recs ->
    forallb readable recs = true ->
    forallb string_date recs = false ->
    getAnalytics rt w = Rejected TypeError /\
    AnalysisLogger.getStats rt the_logger w = Resolved None /\
    exists analyses,
      getAnalyses rt w [] = Resolved analyses /\ Permutation recs analyses.
Proof.
  intros w recs Hs Hr Hd.
  pose proof (getAnalyses_unfiltered rt w recs Hs Hr) as Hg.
  set (analyses := fold_right (insert_by (newest_first rt)) [] recs) in *.
  assert (HP : Permutation recs analyses) by apply insertion_perm.
  assert (Hda : forallb string_date analyses = false).
  { destruct (forallb string_date analyses) eqn:E; [| reflexivity].
    rewrite (forallb_perm _ _ _ _ (Permutation_sym HP) E) in Hd; discriminate. }
  assert (Ha : getAnalytics rt w = Rejected TypeError).
  { unfold getAnalytics. rewrite Hg; cbn [bind]. fold analyses.
    rewrite (forallb_perm _ _ _ _ HP Hr).
    rewrite (by_date_rejects analyses [] Hda); reflexivity. }
  split; [exact Ha |]. split.
  - unfold AnalysisLogger.getStats; simpl. rewrite Ha; reflexivity.
  - exists analyses; split; [exact Hg | exact HP].
Qed.

(** ** The filter engine at its edges *)

Lemma applyFilters_unreadable :
  forall (l : list value) (filters : obj),
    forallb readable l = false ->
    applyFilters rt (VArr l) filters = Rejected TypeError \/
    applyFilters rt (VArr l) filters = Resolved l.
Proof.
  intros l filters H; unfold applyFilters, filter_step; cbn [iterate bind].
  destruct (truthy (own filters "startDate"));
    [rewrite H; left; reflexivity | cbn [bind]].
  destruct (truthy (own filters "endDate"));
    [rewrite H; left; reflexivity | cbn [bind]].
  destruct (truthy (own filters "type"));
    [rewrite H; left; reflexivity | cbn [bind]].
  destruct (truthy (own filters "species"));
    [rewrite H; left; reflexivity | cbn [bind]].
  destruct (truthy (own filters "minConfidence"));
    [rewrite H; left; reflexivity | right; reflexivity].
Qed.

(** X15.  A null entry in a fallback array of two or more entries hides
    the whole array: whatever the filter, the fallback read returns no
    record, and so does getAnalyses in fallback mode. *)
Theorem null_entry_hides_the_fallback_records :
  forall (ls : LocalStorage) (recs : list value) (filters : obj),
    fallback_records ls = Some recs ->
    In VNull recs ->
    (2 <= List.length (filter (fun v => negb (is_undefined v)) recs))%nat ->
    getAnalysesFromLocalStorage rt ls filters = [] /\
    getAnalyses rt {| db := None; storage := ls |} filters = Resolved [].
Proof.
  intros ls recs filters Hs Hnull Hlen.
  assert (Hbad : forallb readable recs = false).
  { destruct (forallb readable recs) eqn:E; [| reflexivity].
    rewrite forallb_forall in E. specialize (E VNull Hnull); discriminate. }
  assert (Hsort : sort_by_date rt recs = Rejected TypeError).
  { unfold sort_by_date.
    assert (Hd : forallb readable (filter (fun v => negb (is_undefined v)) recs)
                 = false).
    { destruct (forallb readable (filter (fun v => negb (is_undefined v)) recs))
        eqn:E; [| reflexivity].
      rewrite forallb_forall in E.
      assert (Hin : In VNull (filter (fun v => negb (is_undefined v)) recs))
        by (apply filter_In; split; [exact Hnull | reflexivity]).
      specialize (E VNull Hin); discriminate. }
    rewrite Hd. apply Nat.leb_le in Hlen; rewrite Hlen; reflexivity. }
  assert (Hread : getAnalysesFromLocalStorage rt ls filters = []).
  { unfold fallback_records in Hs; unfold getAnalysesFromLocalStorage, getItem.
    destruct (accessible ls); [| reflexivity].
    destruct (item ls) as [| | doc]; try reflexivity.
    - injection Hs as Hs; subst recs; destruct Hnull.
    - destruct doc; try discriminate Hs. injection Hs as Hs; subst elems.
      cbn [parse_stored bind].
      destruct (applyFilters_unreadable recs filters Hbad) as [E | E];
        rewrite E; cbn [bind]; [reflexivity | rewrite Hsort; reflexivity]. }
  split; [exact Hread |].
  unfold getAnalyses; simpl; rewrite Hread; reflexivity.
Qed.

(** X16.  On records that can be read, filtering twice is filtering
    once with both filter objects, in either order, and filtering
    again with the same filter object changes nothing. *)
Theorem applyFilters_commutes_and_is_idempotent :
  forall (l : list value) (f g : obj),
    forallb readable l = true ->
    (kept <- applyFilters rt (VArr l) f ;; applyFilters rt (VArr kept) g)
      = Resolved (filter (fun a => andb (passes rt f a) (passes rt g a)) l) /\
    (kept <- applyFilters rt (VArr l) f ;; applyFilters rt (VArr kept) g)
      = (kept <- applyFilters rt (VArr l) g ;; applyFilters rt (VArr kept) f) /\
    (kept <- applyFilters rt (VArr l) f ;; applyFilters rt (VArr kept) f)
      = applyFilters rt (VArr l) f.
Proof.
  intros l f g Hl.
  assert (Hgo : forall f g,
            (kept <- applyFilters rt (VArr l) f ;; applyFilters rt (VArr kept) g)
            = Resolved (filter (fun a => andb (passes rt f a) (passes rt g a)) l)).
  { intros f0 g0. rewrite applyFilters_spec by exact Hl; cbn [bind].
    rewrite applyFilters_spec by (apply forallb_filter; exact Hl).
    rewrite filter_filter; reflexivity. }
  split; [apply Hgo |]. split.
  - rewrite !Hgo. f_equal. apply filter_ext; intros a; apply andb_comm.
  - rewrite Hgo, applyFilters_spec by exact Hl. f_equal.
    apply filter_ext; intros a; apply andb_diag.
Qed.

(** ** CSV import and export *)

Lemma length_split :
  forall (c : ascii) (s : string),
    List.length (split c s) = S (count_char c s).
Proof.
  intros c s; induction s as [| a r IH]; [reflexivity |].
  simpl. destruct (Ascii.eqb a c); simpl.
  - rewrite IH; reflexivity.
  - destruct (split c r) as [| w ws]; [discriminate IH | exact IH].
Qed.

Lemma parse_csv_length :
  forall data : string,
    List.length (parse_csv data) = count_char LF data.
Proof.
  intros data; unfold parse_csv.
  rewrite length_map.
  pose proof (length_split LF data) as H.
  destruct (split LF data); [discriminate H |].
  simpl in *; lia.
Qed.

Lemma importData_csv :
  forall (w : World) (clock : nat -> Instant) (data : Payload),
    fst (importData w clock data (VStr "csv"))
      = Resolved (VNum (inject_Z (Z.of_nat (count_char LF (text data))))).
Proof.
  intros w clock data.
  unfold importData; simpl.
  rewrite import_each_tries_all; simpl.
  rewrite parse_csv_length; reflexivity.
Qed.

(** X17.  A CSV import makes one record of every line after the first:
    the number returned is the number of newline characters of the
    payload, so an empty or header-only payload imports nothing and a
    newline at the end counts as one more record. *)
Theorem importData_csv_counts_newlines :
  forall (w : World) (clock : nat -> Instant) (data : Payload),
    List.length (parse_csv (text data)) = count_char LF (text data) /\
    fst (importData w clock data (VStr "csv"))
      = Resolved (VNum (inject_Z (Z.of_nat (count_char LF (text data))))).
Proof.
  intros w clock data; split; [apply parse_csv_length | apply importData_csv].
Qed.

Lemma count_char_app :
  forall (c : ascii) (a b : string),
    count_char c (a ++ b) = (count_char c a + count_char c b)%nat.
Proof.
  intros c a b; induction a as [| x a IH]; [reflexivity |].
  simpl; rewrite IH; lia.
Qed.

Lemma count_char_join :
  forall (lines : list string) (h : string),
    (forall r, In r lines -> count_char LF r = 0%nat) ->
    count_char LF (join newline (h :: lines))
      = (count_char LF h + List.length lines)%nat.
Proof.
  intros lines; induction lines as [| x lines IH]; intros h H.
  - simpl; lia.
  - change (join newline (h :: x :: lines))
      with (h ++ newline ++ join newline (x :: lines))%string.
    rewrite !count_char_app.
    rewrite IH by (intros r Hr; apply H; right; exact Hr).
    rewrite (H x) by (left; reflexivity). simpl; lia.
Qed.

(** X18.  When no line of the CSV export contains a newline, importing
    the exported text as CSV reports exactly as many records as were
    exported. *)
Theorem csv_export_reimports_with_the_same_count :
  forall (w : World) (recs : list value),
    stored_records w = Some recs ->
    forallb readable recs = true ->
    (forall a, In a recs -> count_char LF (csv_row rt a) = 0%nat) ->
    exists csv,
      exportData rt w (VStr "csv") = Resolved (CsvText csv) /\
      forall (w2 : World) (clock : nat -> Instant) (parse : outcome value),
        fst (importData w2 clock {| text := csv; JSON_parse := parse |}
                        (VStr "csv"))
          = Resolved (VNum (inject_Z (Z.of_nat (List.length recs)))).
Proof.
  intros w recs Hs Hr Hclean.
  pose proof (getAnalyses_unfiltered rt w recs Hs Hr) as Hg.
  set (analyses := fold_right (insert_by (newest_first rt)) [] recs) in *.
  assert (HP : Permutation recs analyses) by apply insertion_perm.
  exists (join newline (join "," csv_headers :: map (csv_row rt) analyses)).
  split.
  - unfold exportData; rewrite Hg; cbn [bind].
    replace (strict_eq (VStr "csv") (VStr "csv")) with true by reflexivity.
    rewrite (forallb_perm _ _ _ _ HP Hr); reflexivity.
  - intros w2 clock parse.
    rewrite importData_csv; cbn [text].
    rewrite count_char_join.
    + rewrite length_map, <- (Permutation_length HP); reflexivity.
    + intros r Hin. apply in_map_iff in Hin.
      destruct Hin as [a [Hr' Ha]]; subst r.
      apply Hclean. eapply Permutation_in; [apply Permutation_sym |]; eassumption.
Qed.

(** ** Recent analyses *)

Lemma firstn_min :
  forall (A : Type) (n : nat) (l : list A),
    firstn (Nat.min n (List.length l)) l = firstn n l.
Proof.
  intros A n l; revert n; induction l as [| x l IH]; intros n.
  - rewrite Nat.min_0_r, !firstn_nil; reflexivity.
  - destruct n; [reflexivity |]. simpl; rewrite IH; reflexivity.
Qed.

(** X19.  getRecentAnalyses returns the head of what getAnalyses returns
    for that type (for every type when the type is falsy): the first
    limit records for a limit of zero or more, all but the last -limit
    records for a negative limit; with a truthy type every record
    returned has that type. *)
Theorem getRecentAnalyses_is_a_head_of_getAnalyses :
  forall (w : World) (recs : list value) (type : value) (limit : Z),
    stored_records w = Some recs ->
    forallb readable recs = true ->
    exists recent all,
      AnalysisLogger.getRecentAnalyses rt the_logger w type limit
        = Resolved recent /\
      getAnalyses rt w (if truthy type then [("type", type)] else [])
        = Resolved all /\
      recent = firstn (kept_by_slice (List.length all) limit) all /\
      (truthy type = true ->
       forall a, In a recent -> strict_eq (get a "type") type = true).
Proof.
  intros w recs type limit Hs Hr.
  set (filters := if truthy type then [("type", type)] else []).
  pose proof (getAnalyses_spec rt w recs filters Hs Hr) as Hg.
  set (all := fold_right (insert_by (newest_first rt)) []
                         (filter (passes rt filters) recs)) in *.
  exists (AnalysisLogger.slice_to all limit), all.
  split; [| split; [exact Hg | split]].
  - unfold AnalysisLogger.getRecentAnalyses; simpl.
    fold filters. rewrite Hg; reflexivity.
  - unfold AnalysisLogger.slice_to, kept_by_slice.
    destruct (Z.ltb limit 0) eqn:E.
    + apply Z.ltb_lt in E. f_equal. lia.
    + apply Z.ltb_ge in E. f_equal. lia.
  - intros Ht a Ha.
    assert (Hin : In a (filter (passes rt filters) recs)).
    { assert (Hall : In a all).
      { unfold AnalysisLogger.slice_to in Ha.
        match type of Ha with
        | In _ (firstn ?n _) => rewrite <- (firstn_skipn n all)
        end.
        apply in_or_app; left; exact Ha. }
      eapply Permutation_in; [apply Permutation_sym, insertion_perm |].
      exact Hall. }
    apply filter_In in Hin; destruct Hin as [_ Hp].
    unfold filters in Hp; rewrite Ht in Hp.
    unfold passes in Hp.
    change (own [("type", type)] "type") with type in Hp.
    do 2 (apply andb_prop in Hp; destruct Hp as [_ Hp]).
    apply andb_prop in Hp; destruct Hp as [Hp _].
    rewrite Ht in Hp; exact Hp.
Qed.

(** ** Deleting *)

Lemma number_key_eqb :
  forall (k : value) (q : Q),
    valid_key k = true ->
    key_eqb k (VNum q) = true ->
    exists y, k = VNum y /\ y == q.
Proof.
  intros k q Hk He; unfold key_eqb in He.
  destruct k; simpl in He; try discriminate.
  exists q0; split; [reflexivity |].
  apply Qeq_alt. destruct (Qcompare q0 q); [reflexivity | discriminate ..].
Qed.

Lemma find_row_remove_other :
  forall (q q' : Q) (l : list (value * obj)),
    keyed l = true ->
    ~ q == q' ->
    find_row (VNum q') (remove_row (VNum q) l) = find_row (VNum q') l.
Proof.
  intros q q' l Hk Hne; unfold remove_row.
  induction l as [| [k0 r0] t IH]; [reflexivity |].
  unfold keyed in Hk; simpl in Hk; apply andb_prop in Hk; destruct Hk as [Hk0 Ht].
  specialize (IH Ht). cbn [filter fst].
  destruct (key_eqb k0 (VNum q)) eqn:E; cbn [negb find_row].
  - destruct (number_key_eqb k0 q Hk0 E) as [y [Hy Hyq]].
    destruct (key_eqb k0 (VNum q')) eqn:E'; [| exact IH].
    destruct (number_key_eqb k0 q' Hk0 E') as [y' [Hy' Hyq']].
    subst k0; injection Hy' as Hy'; subst y'.
    exfalso; apply Hne. rewrite <- Hyq; exact Hyq'.
  - destruct (key_eqb k0 (VNum q')); [reflexivity | exact IH].
Qed.

(** X20.  deleteAnalysis of a numeric id removes the rows of that id
    and no other: a lookup of any other number answers after the
    delete what it answered before, and localStorage is not touched. *)
Theorem deleteAnalysis_leaves_the_other_rows :
  forall (d : IDBDatabase) (ls : LocalStorage) (q q' : Q),
    fault d = None ->
    keyed (rows d) = true ->
    ~ q == q' ->
    let w := {| db := Some d; storage := ls |} in
    exists w',
      deleteAnalysis w (VNum q) = (Resolved (VBool true), w') /\
      getAnalysis w' (VNum q) = Resolved VUndefined /\
      getAnalysis w' (VNum q') = getAnalysis w (VNum q') /\
      storage w' = ls.
Proof.
  intros d ls q q' Hf Hk Hne w.
  eexists; split; [| split; [| split]].
  - unfold deleteAnalysis, store_delete, w; simpl. rewrite Hf; reflexivity.
  - unfold getAnalysis, store_get; simpl.
    rewrite find_row_remove_row; reflexivity.
  - unfold getAnalysis, store_get, w; simpl. rewrite Hf.
    rewrite find_row_remove_other by assumption; reflexivity.
  - reflexivity.
Qed.

(** ** The carousel *)

Lemma next_in_range :
  forall (slides : nat) (c : Z),
    (0 < slides)%nat -> (0 <= c)%Z ->
    (0 <= Carousel.nextSlide slides c < Z.of_nat slides)%Z.
Proof.
  intros slides c Hs Hc; unfold Carousel.nextSlide.
  apply Z.rem_bound_pos; lia.
Qed.

Lemma prev_in_range :
  forall (slides : nat) (c : Z),
    (0 < slides)%nat -> (0 <= c)%Z ->
    (0 <= Carousel.prevSlide slides c < Z.of_nat slides)%Z.
Proof.
  intros slides c Hs Hc; unfold Carousel.prevSlide.
  apply Z.rem_bound_pos; lia.
Qed.

Lemma count_active :
  forall (count start : nat) (c : Z),
    count_occ Bool.bool_dec
      (map (fun index => Z.eqb (Z.of_nat index) c) (seq start count)) true
    = if andb (Z.leb (Z.of_nat start) c) (Z.ltb c (Z.of_nat (start + count)))
      then 1%nat else 0%nat.
Proof.
  induction count as [| n IH]; intros start c.
  - simpl.
    destruct (andb (Z.leb (Z.of_nat start) c) (Z.ltb c (Z.of_nat (start + 0))))
      eqn:E; [| reflexivity].
    rewrite andb_true_iff, Z.leb_le, Z.ltb_lt in E; lia.
  - cbn [seq map count_occ]. rewrite IH.
    destruct (andb (Z.leb (Z.of_nat (S start)) c)
                   (Z.ltb c (Z.of_nat (S start + n)))) eqn:EA;
      destruct (andb (Z.leb (Z.of_nat start) c)
                     (Z.ltb c (Z.of_nat (start + S n)))) eqn:EB;
      destruct (Z.eqb (Z.of_nat start) c) eqn:E3;
      (destruct (Bool.bool_dec _ true) as [Hd | Hd];
       [try discriminate Hd | try (exfalso; apply Hd; reflexivity)]);
      try reflexivity; exfalso;
      rewrite ?andb_true_iff, ?andb_false_iff, ?Z.leb_le, ?Z.ltb_lt,
              ?Z.leb_gt, ?Z.ltb_ge, ?Z.eqb_eq, ?Z.eqb_neq in *; lia.
Qed.

Lemma active_nth :
  forall (count i : nat) (c : Z),
    (i < count)%nat ->
    nth i (Carousel.active count c) false = Z.eqb (Z.of_nat i) c.
Proof.
  intros count i c Hi; unfold Carousel.active.
  rewrite (nth_indep _ false (Z.eqb (Z.of_nat 0) c))
    by (rewrite length_map, length_seq; exact Hi).
  rewrite (map_nth (fun index => Z.eqb (Z.of_nat index) c)).
  rewrite seq_nth by exact Hi. reflexivity.
Qed.

Lemma handle_in_range :
  forall (slides dots : nat) (c : Z) (e : Carousel.Event),
    (0 < slides)%nat -> (dots <= slides)%nat ->
    (0 <= c < Z.of_nat slides)%Z ->
    (0 <= Carousel.handle slides dots c e < Z.of_nat slides)%Z.
Proof.
  intros slides dots c e Hs Hd Hc; destruct e; simpl.
  - apply next_in_range; lia.
  - apply prev_in_range; lia.
  - destruct (Nat.ltb index dots) eqn:E; [| exact Hc].
    apply Nat.ltb_lt in E; lia.
  - apply next_in_range; lia.
Qed.

Lemma run_in_range :
  forall (slides dots : nat) (events : list Carousel.Event) (c : Z),
    (0 < slides)%nat -> (dots <= slides)%nat ->
    (0 <= c < Z.of_nat slides)%Z ->
    (0 <= Carousel.run slides dots c events < Z.of_nat slides)%Z.
Proof.
  intros slides dots events; unfold Carousel.run.
  induction events as [| e events IH]; intros c Hs Hd Hc; [exact Hc |].
  simpl. apply IH; try assumption. apply handle_in_range; assumption.
Qed.

(** X21.  On a carousel with at least one slide and no more dots than
    slides, whatever the clicks and auto-play ticks, currentSlide stays
    an index of a slide and updateCarousel marks exactly that slide
    active. *)
Theorem carousel_keeps_one_slide_active :
  forall (slides dots : nat) (c : Z) (events : list Carousel.Event),
    (0 < slides)%nat ->
    (dots <= slides)%nat ->
    (0 <= c < Z.of_nat slides)%Z ->
    let c' := Carousel.run slides dots c events in
    (0 <= c' < Z.of_nat slides)%Z /\
    count_occ Bool.bool_dec (Carousel.active slides c') true = 1%nat /\
    (forall i, (i < slides)%nat ->
               (nth i (Carousel.active slides c') false = true
                <-> Z.of_nat i = c')).
Proof.
  intros slides dots c events Hs Hd Hc c'.
  assert (Hr : (0 <= c' < Z.of_nat slides)%Z)
    by (apply run_in_range; assumption).
  split; [exact Hr |]. split.
  - unfold Carousel.active. rewrite count_active.
    replace (Z.leb (Z.of_nat 0) c') with true
      by (symmetry; apply Z.leb_le; lia).
    replace (Z.ltb c' (Z.of_nat (0 + slides))) with true
      by (symmetry; apply Z.ltb_lt; lia).
    reflexivity.
  - intros i Hi. rewrite active_nth by exact Hi. apply Z.eqb_eq.
Qed.

Lemma rem_is_mod :
  forall x n : Z, (0 <= x)%Z -> (0 < n)%Z -> Z.rem x n = (x mod n)%Z.
Proof.
  intros x n Hx Hn. apply Z.rem_mod_nonneg; lia.
Qed.

Lemma run_autoplay :
  forall (slides dots k : nat) (c : Z),
    (0 < slides)%nat -> (0 <= c)%Z ->
    Carousel.run slides dots c (repeat Carousel.AutoPlay k)
      = if Nat.eqb k 0 then c else ((c + Z.of_nat k) mod Z.of_nat slides)%Z.
Proof.
  intros slides dots k; induction k as [| k IH]; intros c Hs Hc; [reflexivity |].
  cbn [repeat]. unfold Carousel.run in *; cbn [fold_left Carousel.handle].
  pose proof (next_in_range slides c Hs Hc) as Hn.
  rewrite IH by (assumption || lia).
  unfold Carousel.nextSlide. rewrite rem_is_mod by lia.
  destruct k; simpl Nat.eqb; cbv iota.
  - f_equal; lia.
  - rewrite Zplus_mod_idemp_l. f_equal; lia.
Qed.

(** X22.  On a carousel with at least one slide, prevSlide undoes
    nextSlide and nextSlide undoes prevSlide, and as many auto-play
    ticks as there are slides bring the carousel back to the slide it
    showed. *)
Theorem carousel_next_and_prev_cycle :
  forall (slides dots : nat) (c : Z),
    (0 < slides)%nat ->
    (0 <= c < Z.of_nat slides)%Z ->
    Carousel.prevSlide slides (Carousel.nextSlide slides c) = c /\
    Carousel.nextSlide slides (Carousel.prevSlide slides c) = c /\
    Carousel.run slides dots c (repeat Carousel.AutoPlay slides) = c.
Proof.
  intros slides dots c Hs Hc.
  pose proof (next_in_range slides c Hs (proj1 Hc)) as Hn.
  pose proof (prev_in_range slides c Hs (proj1 Hc)) as Hp.
  split; [| split].
  - unfold Carousel.prevSlide, Carousel.nextSlide in *.
    rewrite (rem_is_mod (c + 1)) in * by lia.
    rewrite rem_is_mod by lia.
    destruct (Z.eq_dec (c + 1) (Z.of_nat slides)) as [E | E].
    + rewrite E, Z_mod_same_full.
      rewrite Z.mod_small by lia. lia.
    + rewrite (Z.mod_small (c + 1)) by lia.
      replace (c + 1 - 1 + Z.of_nat slides)%Z with (c + 1 * Z.of_nat slides)%Z
        by lia.
      rewrite Z_mod_plus_full. apply Z.mod_small; lia.
  - unfold Carousel.prevSlide, Carousel.nextSlide in *.
    rewrite (rem_is_mod (c - 1 + Z.of_nat slides)) in * by lia.
    rewrite rem_is_mod by lia.
    destruct (Z.eq_dec c 0) as [E | E].
    + subst c. rewrite (Z.mod_small (0 - 1 + Z.of_nat slides)) by lia.
      replace (0 - 1 + Z.of_nat slides + 1)%Z with (Z.of_nat slides) by lia.
      apply Z_mod_same_full.
    + replace (c - 1 + Z.of_nat slides)%Z with (c - 1 + 1 * Z.of_nat slides)%Z
        by lia.
      rewrite Z_mod_plus_full, (Z.mod_small (c - 1)) by lia.
      rewrite Z.mod_small by lia. lia.
  - rewrite run_autoplay by lia.
    destruct slides; [lia |]. simpl Nat.eqb; cbv iota.
    replace (c + Z.of_nat (S slides))%Z with (c + 1 * Z.of_nat (S slides))%Z
      by lia.
    rewrite Z_mod_plus_full. apply Z.mod_small; lia.
Qed.

(** X23.  With more dots than slides, a click on a dot beyond the last
    slide sets currentSlide to an index that no slide has: that dot is
    marked active and no slide is; the next click on the next button
    brings currentSlide back among the slides. *)
Theorem dot_beyond_the_slides_leaves_no_slide_active :
  forall (slides dots index : nat) (c : Z),
    (0 < slides)%nat ->
    (slides <= index < dots)%nat ->
    let c' := Carousel.handle slides dots c (Carousel.ClickDot index) in
    c' = Z.of_nat index /\
    count_occ Bool.bool_dec (Carousel.active slides c') true = 0%nat /\
    count_occ Bool.bool_dec (Carousel.active dots c') true = 1%nat /\
    (0 <= Carousel.handle slides dots c' Carousel.ClickNext
       < Z.of_nat slides)%Z.
Proof.
  intros slides dots index c Hs Hi c'.
  assert (Hc : c' = Z.of_nat index).
  { unfold c'; simpl.
    replace (Nat.ltb index dots) with true
      by (symmetry; apply Nat.ltb_lt; lia).
    reflexivity. }
  split; [exact Hc |]. rewrite Hc. split; [| split].
  - unfold Carousel.active. rewrite count_active.
    replace (Z.ltb (Z.of_nat index) (Z.of_nat (0 + slides))) with false
      by (symmetry; apply Z.ltb_ge; lia).
    rewrite andb_false_r; reflexivity.
  - unfold Carousel.active. rewrite count_active.
    replace (Z.leb (Z.of_nat 0) (Z.of_nat index)) with true
      by (symmetry; apply Z.leb_le; lia).
    replace (Z.ltb (Z.of_nat index) (Z.of_nat (0 + dots))) with true
      by (symmetry; apply Z.ltb_lt; lia).
    reflexivity.
  - simpl. apply next_in_range; lia.
Qed.

End Further.

(** * Instances of the further properties *)

Lemma failed_open_witness :
  fst (init (new_EcoViewDatabase (UpgradeThrows TypeError primary_db)
                                 (storage_of Missing))
            (UpgradeThrows TypeError primary_db))
    = InitRejected (Raised TypeError) /\
  isSupported (onDOMContentLoaded
                 (new_EcoViewDatabase (UpgradeThrows TypeError primary_db)
                                      (storage_of Missing))
                 (UpgradeThrows TypeError primary_db) sample_instant)
    = false /\
  world (onDOMContentLoaded
           (new_EcoViewDatabase (UpgradeThrows TypeError primary_db)
                                (storage_of Missing))
           (UpgradeThrows TypeError primary_db) sample_instant)
    = {| db := Some primary_db;
         storage := storage_of (Json (VArr (sampleData_at sample_instant))) |} /\
  db (world (onDOMContentLoaded
               (new_EcoViewDatabase (OpenFails None) (storage_of Missing))
               (OpenFails None) sample_instant))
    = None.
Proof.
  split; [reflexivity |].
  pose proof (page_load_after_a_failed_init (UpgradeThrows TypeError primary_db)
                (storage_of Missing) sample_instant _ eq_refl) as H.
  cbv zeta in H. destruct H as [Hs _].
  split; [exact Hs |]. split; [reflexivity |].
  pose proof (page_load_after_a_failed_init (OpenFails None)
                (storage_of Missing) sample_instant _ eq_refl) as H.
  cbv zeta in H. destruct H as [_ [Hd _]]. exact Hd.
Defined.

Lemma getStats_witness :
  fault primary_db = None /\
  exists st l,
    getStats primary_world sample_instant (Some (VNum 4096)) = Resolved st /\
    getAnalyses sample_runtime primary_world [] = Resolved l /\
    totalRecords st = List.length l /\
    databaseSize st = VNum 0.
Proof.
  split; [reflexivity |].
  exact (getStats_counts_rows_and_reports_size_zero sample_runtime primary_db
           (storage_of Missing) sample_instant (Some (VNum 4096)) eq_refl).
Defined.

Lemma logger_witness :
  In (AnalysisLogger.logSpeciesAnalysis, AnalysisLogger.species_record)
     (logging VUndefined) /\
  exists w' rec,
    AnalysisLogger.logSpeciesAnalysis the_logger primary_world later_instant
                                      oak_sighting
      = (Resolved (VNum 1736899200003), w') /\
    getAnalysis w' (VNum 1736899200003) = Resolved (VObj rec) /\
    lookup "species" rec = Some (VStr "Oak") /\
    lookup "confidence" rec = Some VNull /\
    own rec "updatedAt" = VStr "2025-01-16T00:00:00.000Z".
Proof.
  assert (Hin : In (AnalysisLogger.logSpeciesAnalysis,
                    AnalysisLogger.species_record) (logging VUndefined))
    by (left; reflexivity).
  split; [exact Hin |].
  destruct (logger_answers_with_the_id_of_the_stored_record VUndefined _ _
              the_logger primary_world later_instant oak_sighting Hin)
    as [_ [_ H]].
  destruct (H eq_refl eq_refl)
    as [Hfalse | [q [w' [rec [Hres [_ [_ [Hup [Hprimary | Hfallback]]]]]]]]].
  - vm_compute in Hfalse. discriminate Hfalse.
  - destruct Hprimary as [d [Hd [Hq [_ [Hget Hframe]]]]].
    injection Hd as Hd; subst d q.
    exists w', rec.
    split; [exact Hres |]. split; [exact Hget |].
    split; [rewrite Hframe by discriminate; reflexivity |].
    split; [rewrite Hframe by discriminate; reflexivity | exact Hup].
  - destruct Hfallback as [front [_ [Hq _]]]. subst q.
    vm_compute in Hres. discriminate Hres.
Defined.

Lemma logged_record_witness :
  In (AnalysisLogger.species_record sample_instant oak_sighting)
     (log_records sample_instant VUndefined oak_sighting) /\
  lookup "id" (AnalysisLogger.species_record sample_instant oak_sighting) = None /\
  own (AnalysisLogger.species_record sample_instant oak_sighting) "confidence"
    = VNull.
Proof.
  assert (Hin : In (AnalysisLogger.species_record sample_instant oak_sighting)
                   (log_records sample_instant VUndefined oak_sighting))
    by (left; reflexivity).
  split; [exact Hin |].
  destruct (logged_records_turn_falsy_values_into_null sample_instant VUndefined
              oak_sighting _ Hin) as [Hid _].
  split; [exact Hid | reflexivity].
Defined.

Lemma fallback_create_witness :
  usable (storage_of (Json (VArr sampleData))) sampleData /\
  forallb is_object sampleData = true /\
  unique_names new_sighting = true /\
  lookup "id" new_sighting = None /\
  exists w' l,
    addAnalysis fallback_world later_instant (VObj new_sighting)
      = (Resolved (VNum (inject_Z (Date_now later_instant))), w') /\
    getAnalyses sample_runtime w' [] = Resolved l /\
    List.length l = 4%nat.
Proof.
  assert (Hu : usable (storage_of (Json (VArr sampleData))) sampleData)
    by (repeat split).
  split; [exact Hu |]. do 3 (split; [reflexivity |]).
  destruct (fallback_create_can_be_read_back sample_runtime
              (storage_of (Json (VArr sampleData))) sampleData later_instant
              new_sighting Hu eq_refl eq_refl eq_refl)
    as [w' [l [rec [Ha [Hg [Hl _]]]]]].
  exists w', l. split; [exact Ha |]. split; [exact Hg | exact Hl].
Defined.

Lemma shared_id_witness :
  usable (storage_of Missing) [] /\
  unique_names new_sighting = true /\
  lookup "id" new_sighting = None /\
  exists ls1 ls2 ra rb,
    addAnalysisToLocalStorage (storage_of Missing) sample_instant
                              (VObj new_sighting)
      = (Resolved (VNum 1736899200000), ls1) /\
    addAnalysisToLocalStorage ls1 sample_instant (VObj new_sighting)
      = (Resolved (VNum 1736899200000), ls2) /\
    fallback_records ls2 = Some [ra; rb] /\
    get ra "id" = get rb "id".
Proof.
  assert (Hu : usable (storage_of Missing) []) by (repeat split).
  split; [exact Hu |]. do 2 (split; [reflexivity |]).
  destruct (fallback_creates_in_one_millisecond_share_their_id
              (storage_of Missing) [] sample_instant new_sighting new_sighting
              Hu eq_refl eq_refl eq_refl eq_refl)
    as [ls1 [ls2 [front [ra [rb [H1 [H2 [H3 [H4 [H5 H6]]]]]]]]]].
  destruct front as [| x front]; [| discriminate H4].
  exists ls1, ls2, ra, rb.
  split; [exact H1 |]. split; [exact H2 |]. split; [exact H3 |].
  rewrite H5, H6; reflexivity.
Defined.

Lemma clashing_create_witness :
  fault primary_db = None /\
  usable (storage_of Missing) [] /\
  unique_names clashing_sighting = true /\
  lookup "id" clashing_sighting = Some path_id /\
  valid_key path_id = true /\
  find_row path_id (rows primary_db) = Some sample_path /\
  exists id w' kept,
    addAnalysis primary_world later_instant (VObj clashing_sighting)
      = (Resolved id, w') /\
    db w' = Some primary_db /\
    fallback_records (storage w') = Some kept /\
    List.length kept = 1%nat.
Proof.
  assert (Hu : usable (storage_of Missing) []) by (repeat split).
  split; [reflexivity |]. split; [exact Hu |]. do 4 (split; [reflexivity |]).
  destruct (create_under_an_existing_key_lands_in_localStorage sample_runtime
              primary_db (storage_of Missing) [] later_instant
              clashing_sighting sample_path path_id
              eq_refl Hu eq_refl eq_refl eq_refl eq_refl)
    as [id [w' [kept [Ha [Hd [_ [Hk Hl]]]]]]].
  exists id, w', kept.
  split; [exact Ha |]. split; [exact Hd |]. split; [exact Hk | exact Hl].
Defined.

Lemma primary_create_witness :
  fault primary_db = None /\
  unique_names new_sighting = true /\
  lookup "id" new_sighting = None /\
  (keyGenerator primary_db <= last_generated_key)%Z /\
  (exists d' rec,
      addAnalysis primary_world later_instant (VObj new_sighting)
        = (Resolved (VNum 1736899200003),
           {| db := Some d'; storage := storage_of Missing |}) /\
      keyGenerator d' = 1736899200004%Z /\
      getAnalysis {| db := Some d'; storage := storage_of Missing |}
                  (VNum 1736899200003)
        = Resolved (VObj rec) /\
      lookup "species" rec = Some (VStr "Birch")) /\
  fault spent_db = None /\
  (last_generated_key < keyGenerator spent_db)%Z /\
  usable (storage_of Missing) [] /\
  (exists ls' rec,
      addAnalysis {| db := Some spent_db; storage := storage_of Missing |}
                  later_instant (VObj new_sighting)
        = (Resolved (VNum 1736985600000),
           {| db := Some spent_db; storage := ls' |}) /\
      fallback_records ls' = Some [VObj rec]).
Proof.
  assert (Hg : (keyGenerator primary_db <= last_generated_key)%Z)
    by (vm_compute; discriminate).
  assert (Hs : (last_generated_key < keyGenerator spent_db)%Z) by reflexivity.
  assert (Hu : usable (storage_of Missing) []) by (repeat split).
  do 3 (split; [reflexivity |]). split; [exact Hg |]. split.
  - pose proof (primary_create_can_be_read_back primary_db (storage_of Missing)
                  later_instant new_sighting eq_refl eq_refl eq_refl) as H.
    cbv zeta in H. destruct H as [H _].
    destruct (H Hg) as [d' [rec [Ha [Hk [Hget [_ [_ [_ Hframe]]]]]]]].
    exists d', rec.
    split; [exact Ha |]. split; [exact Hk |]. split; [exact Hget |].
    rewrite Hframe by discriminate. reflexivity.
  - split; [reflexivity |]. split; [exact Hs |]. split; [exact Hu |].
    pose proof (primary_create_can_be_read_back spent_db (storage_of Missing)
                  later_instant new_sighting eq_refl eq_refl eq_refl) as H.
    cbv zeta in H. destruct H as [_ H].
    destruct (H Hs [] Hu) as [ls' [rec [Ha [Hrec _]]]].
    exists ls', rec. split; [exact Ha | exact Hrec].
Defined.

Lemma update_read_back_witness :
  fault primary_db = None /\
  find_row (VNum 1736899200001) (rows primary_db) = Some sample_path /\
  unique_names sample_path = true /\
  own sample_path "id" = VNum 1736899200001 /\
  names confidence_patch "id" = false /\
  exists merged w',
    updateAnalysis primary_world later_instant (VNum 1736899200001)
                   confidence_patch
      = (Resolved (VObj merged), w') /\
    getAnalysis w' (VNum 1736899200001) = Resolved (VObj merged) /\
    storage w' = storage_of Missing.
Proof.
  do 5 (split; [reflexivity |]).
  exact (update_can_be_read_back primary_db (storage_of Missing) later_instant
           1736899200001 confidence_patch sample_path
           eq_refl eq_refl eq_refl eq_refl eq_refl).
Defined.

Lemma clearAllData_witness :
  fault primary_db = None /\
  exists w',
    clearAllData primary_world = (Resolved (VBool true), w') /\
    storage w' = storage_of Missing /\
    getAnalyses sample_runtime w' species_filter = Resolved [].
Proof.
  split; [reflexivity |].
  destruct (clearAllData_empties_the_object_store_only sample_runtime primary_db
              (storage_of Missing) eq_refl) as [w' [a [Hc [Hs [Hg _]]]]].
  exists w'. split; [exact Hc |]. split; [exact Hs | apply Hg].
Defined.

Lemma by_type_witness :
  stored_records numbered_world = Some numbered_records /\
  forallb readable numbered_records = true /\
  forallb string_date numbered_records = true /\
  forallb plain_type numbered_records = true /\
  exists a analyses,
    getAnalytics sample_runtime numbered_world = Resolved a /\
    getAnalyses sample_runtime numbered_world [] = Resolved analyses /\
    totalAnalyses a = 2%nat /\
    first_seen (type_names analyses) = ["b"; "1"] /\
    Object_keys (analysesByType a) = ["1"; "b"] /\
    Permutation (first_seen (type_names analyses))
                (Object_keys (analysesByType a)).
Proof.
  do 4 (split; [reflexivity |]).
  destruct (getAnalytics_counts_records_by_type sample_runtime numbered_world
              numbered_records eq_refl eq_refl eq_refl eq_refl)
    as [a [analyses [Ha [Hg [Ht [_ [Hk _]]]]]]].
  exists a, analyses.
  split; [exact Ha |]. split; [exact Hg |]. split; [exact Ht |].
  split; [| split; [| exact Hk]].
  - vm_compute in Hg. injection Hg as Hg; subst analyses. reflexivity.
  - vm_compute in Ha. injection Ha as Ha; subst a. reflexivity.
Defined.

Lemma by_day_witness :
  stored_records numbered_world = Some numbered_records /\
  forallb readable numbered_records = true /\
  forallb plain_day numbered_records = true /\
  exists a analyses,
    getAnalytics sample_runtime numbered_world = Resolved a /\
    getAnalyses sample_runtime numbered_world [] = Resolved analyses /\
    first_seen (day_names analyses) = ["2025-01-15"; "2025"] /\
    Object_keys (analysesByDate a) = ["2025"; "2025-01-15"] /\
    Permutation (first_seen (day_names analyses))
                (Object_keys (analysesByDate a)).
Proof.
  do 3 (split; [reflexivity |]).
  destruct (getAnalytics_counts_records_by_day sample_runtime numbered_world
              numbered_records eq_refl eq_refl eq_refl)
    as [a [analyses [Ha [Hg [Hk _]]]]].
  exists a, analyses.
  split; [exact Ha |]. split; [exact Hg |].
  split; [| split; [| exact Hk]].
  - vm_compute in Hg. injection Hg as Hg; subst analyses. reflexivity.
  - vm_compute in Ha. injection Ha as Ha; subst a. reflexivity.
Defined.

Lemma distinct_species_witness :
  stored_records fallback_world = Some sampleData /\
  forallb readable sampleData = true /\
  forallb string_date sampleData = true /\
  forallb plain_species sampleData = true /\
  exists a analyses,
    getAnalytics sample_runtime fallback_world = Resolved a /\
    getAnalyses sample_runtime fallback_world [] = Resolved analyses /\
    speciesCount a = List.length (first_seen (species_names analyses)) /\
    recentAnalyses a = firstn 10 analyses /\
    List.length (recentAnalyses a) = Nat.min 10 (List.length sampleData).
Proof.
  do 4 (split; [reflexivity |]).
  exact (getAnalytics_counts_distinct_species sample_runtime fallback_world
           sampleData eq_refl eq_refl eq_refl eq_refl).
Defined.

Lemma undated_record_witness :
  forallb string_date
    [VObj sample_oak; VObj [("id", VNum 7); ("date", VNum 20250115)]] = false /\
  getAnalytics sample_runtime undated_world = Rejected TypeError /\
  AnalysisLogger.getStats sample_runtime the_logger undated_world
    = Resolved None.
Proof.
  split; [reflexivity |].
  destruct (getAnalytics_rejects_on_a_record_without_date_string sample_runtime
              undated_world _ eq_refl eq_refl eq_refl) as [Ha [Hs _]].
  split; [exact Ha | exact Hs].
Defined.

Lemma null_entry_witness :
  fallback_records holed_storage = Some [VObj sample_oak; VNull] /\
  In VNull [VObj sample_oak; VNull] /\
  getAnalysesFromLocalStorage sample_runtime holed_storage [] = [] /\
  getAnalyses sample_runtime {| db := None; storage := holed_storage |} []
    = Resolved [].
Proof.
  assert (Hin : In VNull [VObj sample_oak; VNull]) by (right; left; reflexivity).
  split; [reflexivity |]. split; [exact Hin |].
  apply (null_entry_hides_the_fallback_records sample_runtime holed_storage
           [VObj sample_oak; VNull] [] eq_refl Hin).
  simpl; lia.
Defined.

Lemma filter_twice_witness :
  forallb readable sampleData = true /\
  (kept <- applyFilters sample_runtime (VArr sampleData) species_filter ;;
   applyFilters sample_runtime (VArr kept) empty_type_filter)
    = (kept <- applyFilters sample_runtime (VArr sampleData) empty_type_filter ;;
       applyFilters sample_runtime (VArr kept) species_filter).
Proof.
  split; [reflexivity |].
  destruct (applyFilters_commutes_and_is_idempotent sample_runtime sampleData
              species_filter empty_type_filter eq_refl) as [_ [H _]].
  exact H.
Defined.

Lemma csv_round_trip_witness :
  stored_records fallback_world = Some sampleData /\
  forallb readable sampleData = true /\
  (forall a, In a sampleData ->
             count_char LF (csv_row sample_runtime a) = 0%nat) /\
  exists csv,
    exportData sample_runtime fallback_world (VStr "csv")
      = Resolved (CsvText csv) /\
    fst (importData garbled_world (fun _ => sample_instant)
                    {| text := csv; JSON_parse := Rejected SyntaxError |}
                    (VStr "csv"))
      = Resolved (VNum 3).
Proof.
  assert (Hclean : forall a, In a sampleData ->
                             count_char LF (csv_row sample_runtime a) = 0%nat).
  { intros a [Ha | [Ha | [Ha | []]]]; subst a; vm_compute; reflexivity. }
  do 2 (split; [reflexivity |]). split; [exact Hclean |].
  destruct (csv_export_reimports_with_the_same_count sample_runtime
              fallback_world sampleData eq_refl eq_refl Hclean) as [csv [He Hi]].
  exists csv. split; [exact He | apply Hi].
Defined.

Lemma recent_analyses_witness :
  stored_records primary_world = Some sampleData /\
  forallb readable sampleData = true /\
  exists recent all,
    AnalysisLogger.getRecentAnalyses sample_runtime the_logger primary_world
                                     (VStr "species") 1
      = Resolved recent /\
    getAnalyses sample_runtime primary_world [("type", VStr "species")]
      = Resolved all /\
    recent = firstn (kept_by_slice (List.length all) 1) all /\
    (forall a, In a recent ->
               strict_eq (get a "type") (VStr "species") = true).
Proof.
  do 2 (split; [reflexivity |]).
  destruct (getRecentAnalyses_is_a_head_of_getAnalyses sample_runtime
              primary_world sampleData (VStr "species") 1 eq_refl eq_refl)
    as [recent [all [Hr [Hg [Hf Ht]]]]].
  exists recent, all.
  split; [exact Hr |]. split; [exact Hg |]. split; [exact Hf |].
  apply Ht; reflexivity.
Defined.

Lemma delete_frame_witness :
  fault primary_db = None /\
  keyed (rows primary_db) = true /\
  ~ 1736899200001 == 1736899200002 /\
  exists w',
    deleteAnalysis primary_world (VNum 1736899200001)
      = (Resolved (VBool true), w') /\
    getAnalysis w' (VNum 1736899200001) = Resolved VUndefined /\
    getAnalysis w' (VNum 1736899200002)
      = getAnalysis primary_world (VNum 1736899200002) /\
    storage w' = storage_of Missing.
Proof.
  assert (Hne : ~ 1736899200001 == 1736899200002)
    by (intros H; vm_compute in H; discriminate H).
  do 2 (split; [reflexivity |]). split; [exact Hne |].
  exact (deleteAnalysis_leaves_the_other_rows primary_db (storage_of Missing)
           1736899200001 1736899200002 eq_refl eq_refl Hne).
Defined.

Lemma carousel_witness :
  (0 < 3)%nat /\ (3 <= 3)%nat /\ (0 <= 0 < Z.of_nat 3)%Z /\
  count_occ Bool.bool_dec
    (Carousel.active 3
       (Carousel.run 3 3 0
          [Carousel.ClickPrev; Carousel.ClickDot 1; Carousel.AutoPlay]))
    true = 1%nat.
Proof.
  assert (H0 : (0 < 3)%nat) by lia.
  assert (H1 : (3 <= 3)%nat) by lia.
  assert (H2 : (0 <= 0 < Z.of_nat 3)%Z) by (simpl; lia).
  split; [exact H0 |]. split; [exact H1 |]. split; [exact H2 |].
  pose proof (carousel_keeps_one_slide_active 3 3 0
                [Carousel.ClickPrev; Carousel.ClickDot 1; Carousel.AutoPlay]
                H0 H1 H2) as H.
  cbv zeta in H. destruct H as [_ [H _]]. exact H.
Defined.

Lemma carousel_cycle_witness :
  (0 < 3)%nat /\ (0 <= 2 < Z.of_nat 3)%Z /\
  Carousel.prevSlide 3 (Carousel.nextSlide 3 2) = 2%Z /\
  Carousel.nextSlide 3 (Carousel.prevSlide 3 2) = 2%Z /\
  Carousel.run 3 3 2 (repeat Carousel.AutoPlay 3) = 2%Z.
Proof.
  assert (H0 : (0 < 3)%nat) by lia.
  assert (H2 : (0 <= 2 < Z.of_nat 3)%Z) by (simpl; lia).
  split; [exact H0 |]. split; [exact H2 |].
  exact (carousel_next_and_prev_cycle 3 3 2 H0 H2).
Defined.

Lemma stray_dot_witness :
  (0 < 3)%nat /\ (3 <= 4 < 5)%nat /\
  Carousel.handle 3 5 0 (Carousel.ClickDot 4) = 4%Z /\
  count_occ Bool.bool_dec (Carousel.active 3 4) true = 0%nat.
Proof.
  assert (H0 : (0 < 3)%nat) by lia.
  assert (H1 : (3 <= 4 < 5)%nat) by lia.
  split; [exact H0 |]. split; [exact H1 |].
  pose proof (dot_beyond_the_slides_leaves_no_slide_active 3 5 4 0 H0 H1) as H.
  cbv zeta in H. destruct H as [Hc [Hn _]].
  split; [exact Hc | exact Hn].
Defined.
